(** * test_case_scanner: a shallow embedding of the rule engine

    The development follows the Python sources module by module
    ([app/rules/common.py], the rule files, [app/core_steps.py],
    [app/config.py], [app/scanner.py] and the issue helpers, the report and
    the command line of [app/main.py]) and then states the properties of the
    specification and further properties of the code.

    Modelling conventions.
    - A Python [str] is a Rocq [string] whose characters are the code points
      0..255; whitespace and case mapping follow Python on that range.
    - A cell of the table is [None], an [int], a [float] or a [str]
      ([value]); a [float] is a [spec_float] of the Standard Library.
    - A row ([pd.Series]) is a finite map from column names to cells; the
      table keeps its column list beside its rows, and every validator guards
      its lookups by the column list exactly as the source does.
    - An issue is a Python [dict]: an insertion-ordered association list.
    - The two text conversions of floats, [str(float)] and [float(str)], are
      builtins of the language; they are an interface ([FloatText]) of which
      [python_float_text] is an executable instance.
    - What a function prints is the list of the texts it passes to [print];
      what it reads ([sys.argv], the line of [input]) is an argument.
    - A call that can raise returns a [result]: the value it returns or the
      exception it raises. *)

From Stdlib Require Import ZArith Strings.Ascii Strings.String Floats.SpecFloat.
From stdpp Require Import gmap strings list pretty sorting.

#[local] Set Warnings "-clear-no-such-hyp".

Local Open Scope string_scope.
Local Open Scope list_scope.

(** ** Python strings *)

Module pystr.

(** [str.isspace] on the code points below 256. *)
Definition is_space (c : ascii) : bool :=
  let n := nat_of_ascii c in
  ((9 <=? n)%nat && (n <=? 13)%nat) || ((28 <=? n)%nat && (n <=? 32)%nat)
  || (n =? 133)%nat || (n =? 160)%nat.

Fixpoint lstrip (s : string) : string :=
  match s with
  | "" => ""
  | String c t => if is_space c then lstrip t else s
  end.

Fixpoint rstrip (s : string) : string :=
  match s with
  | "" => ""
  | String c t =>
      match rstrip t with
      | "" => if is_space c then "" else String c ""
      | t' => String c t'
      end
  end.

(** [s.strip()] *)
Definition strip (s : string) : string := rstrip (lstrip s).

Definition lower_char (c : ascii) : ascii :=
  let n := nat_of_ascii c in
  if ((65 <=? n)%nat && (n <=? 90)%nat)
     || ((192 <=? n)%nat && (n <=? 222)%nat && negb (n =? 215)%nat)
  then ascii_of_nat (n + 32) else c.

(** [s.lower()] *)
Fixpoint lower (s : string) : string :=
  match s with
  | "" => ""
  | String c t => String (lower_char c) (lower t)
  end.

(** [s.upper()].  The sharp s (223) becomes "SS" as in Python; the micro sign
    (181) and y with diaeresis (255) have their capitals outside the range
    and are kept: the source only compares the result with ASCII words. *)
Fixpoint upper (s : string) : string :=
  match s with
  | "" => ""
  | String c t =>
      let n := nat_of_ascii c in
      if (n =? 223)%nat then String "S" (String "S" (upper t))
      else if ((97 <=? n)%nat && (n <=? 122)%nat)
              || ((224 <=? n)%nat && (n <=? 254)%nat && negb (n =? 247)%nat)
      then String (ascii_of_nat (n - 32)) (upper t)
      else String c (upper t)
  end.

(** [s.split()]: the maximal runs of non-whitespace characters. *)
Fixpoint split_go (cur : option string) (s : string) : list string :=
  match s with
  | "" => match cur with Some w => [String.rev w] | None => [] end
  | String c t =>
      if is_space c
      then match cur with
           | Some w => String.rev w :: split_go None t
           | None => split_go None t
           end
      else split_go (Some (String c (default "" cur))) t
  end.

Definition split (s : string) : list string := split_go None s.

(** [sep.join(l)] *)
Definition join (sep : string) (l : list string) : string := String.concat sep l.

Fixpoint last_char (s : string) : option ascii :=
  match s with
  | "" => None
  | String c "" => Some c
  | String _ t => last_char t
  end.

(** [s.endswith(c)] for a one-character suffix. *)
Definition endswith_char (s : string) (c : ascii) : bool :=
  match last_char s with
  | Some c' => Ascii.eqb c' c
  | None => false
  end.

(** The double quote, for the messages that quote a cell. *)
Definition dquote : string := String (ascii_of_nat 34) "".

(** [s.replace(old, new)]: the occurrences of [old] are replaced from the
    left, each search starting after the previous occurrence; [skip] counts
    the characters of an occurrence still to pass. *)
Fixpoint replace_go (old new : string) (skip : nat) (s : string) : string :=
  match s with
  | "" => ""
  | String c t =>
      match skip with
      | S k => replace_go old new k t
      | O =>
          if String.prefix old s
          then new +:+ replace_go old new (String.length old - 1) t
          else String c (replace_go old new 0 t)
      end
  end.

(** With an empty [old], [new] goes before every character and at the end. *)
Fixpoint replace_empty (new : string) (s : string) : string :=
  match s with
  | "" => new
  | String c t => new +:+ String c (replace_empty new t)
  end.

Definition replace (s old new : string) : string :=
  if String.eqb old "" then replace_empty new s else replace_go old new 0 s.

End pystr.

(** ** Cell values and floats *)

Inductive value : Type :=
  | VNone
  | VInt (z : Z)
  | VFloat (f : spec_float)
  | VStr (s : string).

Global Instance spec_float_eq_dec : EqDecision spec_float.
Proof. solve_decision. Defined.

Global Instance value_eq_dec : EqDecision value.
Proof. solve_decision. Defined.

(** [str(float)] and [float(str)] ([None] for [ValueError]). *)
Class FloatText := {
  float_str : spec_float → string;
  float_of_str : string → option spec_float;
}.

Module pyfloat.

Definition is_nan (f : spec_float) : bool :=
  match f with S754_nan => true | _ => false end.

(** [f.is_integer()] *)
Definition is_integer (f : spec_float) : bool :=
  match f with
  | S754_zero _ => true
  | S754_finite _ m e =>
      if (0 <=? e)%Z then true
      else (Z.pos m mod 2 ^ (- e) =? 0)%Z
  | _ => false
  end.

(** [int(f)], truncation towards zero (infinities and NaN raise in Python and
    are never converted by the source). *)
Definition to_int (f : spec_float) : Z :=
  match f with
  | S754_finite s m e =>
      let a := if (0 <=? e)%Z then (Z.pos m * 2 ^ e)%Z else (Z.pos m / 2 ^ (- e))%Z in
      if s then (- a)%Z else a
  | _ => 0%Z
  end.

(** [bool(f)] *)
Definition truthy (f : spec_float) : bool :=
  match f with S754_zero _ => false | _ => true end.

End pyfloat.

(** ** Tables and issue records *)

(** A row of the table ([pd.Series] indexed by the column names). *)
Abbreviation row := (gmap string value).

(** A Python [dict] with string keys, in insertion order. *)
Abbreviation dict := (list (string * value)).

Record DataFrame := {
  columns : list string;
  rows : list row;
}.

(** The rows numbered from [start]. *)
Fixpoint number_rows (start : Z) (l : list row) : list (Z * row) :=
  match l with
  | [] => []
  | r :: t => (start, r) :: number_rows (start + 1) t
  end.

(** [df.iterrows()]: the rows with their index labels, which are the
    positions 0, 1, ... of a table as loaded. *)
Definition iterrows (df : DataFrame) : list (Z * row) := number_rows 0 (rows df).

(** [name in df.columns] *)
Definition has_column (df : DataFrame) (name : string) : bool :=
  bool_decide (name ∈ columns df).

(** [row.get(name, default)] *)
Definition row_get (r : row) (name : string) (d : value) : value :=
  default d (r !! name).

(** [d.get(key)] *)
Fixpoint dict_get (d : dict) (key : string) : option value :=
  match d with
  | [] => None
  | (k, v) :: t => if String.eqb k key then Some v else dict_get t key
  end.

(** [d[key] = v]: the value is replaced in place, a new key goes last. *)
Fixpoint dict_set (d : dict) (key : string) (v : value) : dict :=
  match d with
  | [] => [(key, v)]
  | (k, w) :: t =>
      if String.eqb k key then (k, v) :: t else (k, w) :: dict_set t key v
  end.

(** ** Exceptions *)

(** [KeyError: key], raised by the lookup of a column a table lacks. *)
Inductive exn : Type :=
  | KeyError (key : string).

Inductive result (A : Type) : Type :=
  | Ok (a : A)
  | Raise (e : exn).

Global Arguments Ok {A} a.
Global Arguments Raise {A} e.

(** ** app/rules/common.py *)

Module common.
Section common.
Context `{FloatText}.

Definition EMPTY_LIKE_VALUES : gset string :=
  {[ ""; "-"; "--"; "n/a"; "na"; "none"; "null"; "nil"; "empty" ]}.

(** [pd.isna(value)] *)
Definition isna (v : value) : bool :=
  match v with
  | VNone => true
  | VFloat f => pyfloat.is_nan f
  | _ => false
  end.

(** [str(value)] *)
Definition str (v : value) : string :=
  match v with
  | VNone => "None"
  | VInt z => pretty z
  | VFloat f => float_str f
  | VStr s => s
  end.

Definition is_empty_like (v : value) : bool :=
  match v with
  | VNone => true
  | _ =>
      if isna v then true
      else
        let text := pystr.strip (str v) in
        if String.eqb text "" then true
        else bool_decide (pystr.lower text ∈ EMPTY_LIKE_VALUES)
  end.

Definition excel_row_number (df_index : Z) : Z := (df_index + 2)%Z.

Definition is_blank_row (r : row) : bool :=
  let candidates :=
    [ row_get r "Test Case ID" (VStr "");
      row_get r "Step #" (VStr "");
      row_get r "Action" (VStr "");
      row_get r "Input Data" (VStr "");
      row_get r "Data" (VStr "");
      row_get r "Expected Results" (VStr "") ] in
  forallb is_empty_like candidates.

(** The two places that turn a float into an integer share this step. *)
Definition int_of_whole (f : spec_float) : option Z :=
  if pyfloat.is_integer f then Some (pyfloat.to_int f) else None.

Definition to_int_step (v : value) : option Z :=
  if is_empty_like v then None
  else
    match v with
    | VInt z => Some z
    | VFloat f => int_of_whole f
    | _ =>
        let text := pystr.strip (str v) in
        match float_of_str text with
        | Some f => int_of_whole f
        | None => None
        end
    end.

(** [make_issue(row=..., message=..., rule=..., severity=..., field=...)];
    the severity defaults to "FAIL" and an absent or empty field adds no key. *)
Definition make_issue (r : value) (message rule : string)
    (severity : option string) (field : option string) : dict :=
  let issue :=
    [ ("row", r); ("message", VStr message); ("rule", VStr rule);
      ("severity", VStr (default "FAIL" severity)) ] in
  match field with
  | Some f => if String.eqb f "" then issue else issue ++ [("field", VStr f)]
  | None => issue
  end.

End common.
End common.

(** ** app/rules/missing_columns.py *)

Module missing_columns.

Definition RULE_ID : string := "MISSING_COLUMNS".
Definition SEVERITY : string := "FAIL".

Definition required : gset string := {[ "Action"; "Expected Results" ]}.

(** [sorted(required - set(df.columns))] *)
Definition missing (df : DataFrame) : list string :=
  merge_sort String.le (elements (required ∖ list_to_set (columns df))).

Definition check_missing_columns (df : DataFrame) : list dict :=
  match missing df with
  | [] => []
  | _ :: _ =>
      [ common.make_issue VNone
          ("Missing required columns: " +:+ pystr.join ", " (missing df))
          RULE_ID (Some SEVERITY) None ]
  end.

End missing_columns.

(** ** app/rules/required_fields.py *)

Module required_fields.
Section required_fields.
Context `{FloatText}.

Definition RULE_ID : string := "REQUIRED_FIELDS".
Definition SEVERITY : string := "FAIL".

(** The body of the loop over the rows. *)
Definition check_row (idx : Z) (r : row) : list dict :=
  if common.is_blank_row r then []
  else
    let row_num := common.excel_row_number idx in
    (if common.is_empty_like (row_get r "Action" (VStr ""))
     then [ common.make_issue (VInt row_num) "Action is empty"
              RULE_ID (Some SEVERITY) (Some "Action") ]
     else [])
    ++
    (if common.is_empty_like (row_get r "Expected Results" (VStr ""))
     then [ common.make_issue (VInt row_num) "Expected Results is empty"
              RULE_ID (Some SEVERITY) (Some "Expected Results") ]
     else []).

Definition check_required_fields (df : DataFrame) : list dict :=
  if negb (has_column df "Action" && has_column df "Expected Results") then []
  else flat_map (λ '(idx, r), check_row idx r) (iterrows df).

End required_fields.
End required_fields.

(** ** app/rules/blank_rows.py *)

Module blank_rows.
Section blank_rows.
Context `{FloatText}.

Definition RULE_ID : string := "BLANK_ROW".

Definition check_row (idx : Z) (r : row) : list dict :=
  if common.is_blank_row r
  then [ common.make_issue (VInt (common.excel_row_number idx)) "Blank row"
           RULE_ID (Some "WARNING") None ]
  else [].

Definition check_blank_rows (df : DataFrame) : list dict :=
  flat_map (λ '(idx, r), check_row idx r) (iterrows df).

End blank_rows.
End blank_rows.

(** ** app/rules/data_required.py *)

Module data_required.
Section data_required.
Context `{FloatText}.

Definition RULE_ID : string := "DATA_REQUIRED".

Definition target_action : string := "search for patient using name or ssn".

Definition check_row (idx : Z) (r : row) : list dict :=
  if common.is_blank_row r then []
  else
    let action := pystr.lower (pystr.strip (common.str (row_get r "Action" (VStr "")))) in
    let data := row_get r "Data" (VStr "") in
    if String.eqb action target_action && common.is_empty_like data
    then [ common.make_issue (VInt (common.excel_row_number idx))
             "Data is required for this Action (provide patient name or SSN)"
             RULE_ID (Some "FAIL") (Some "Data") ]
    else [].

Definition check_data_required_for_actions (df : DataFrame) : list dict :=
  if negb (has_column df "Action" && has_column df "Data") then []
  else flat_map (λ '(idx, r), check_row idx r) (iterrows df).

End data_required.
End data_required.

(** ** app/rules/expected_results_punctuation.py *)

Module expected_results_punctuation.
Section expected_results_punctuation.
Context `{FloatText}.

Definition RULE_ID : string := "EXPECTED_RESULTS_PUNCTUATION".
Definition SEVERITY : string := "WARNING".

Definition check_row (idx : Z) (r : row) : list dict :=
  if common.is_blank_row r then []
  else
    let v := row_get r "Expected Results" (VStr "") in
    if common.is_empty_like v then []
    else
      let text := pystr.strip (common.str v) in
      if negb (pystr.endswith_char text ".")
      then [ common.make_issue (VInt (common.excel_row_number idx))
               "Expected Results should end with a period (.)"
               RULE_ID (Some SEVERITY) (Some "Expected Results") ]
      else [].

Definition check_expected_results_punctuation (df : DataFrame) : list dict :=
  if negb (has_column df "Expected Results") then []
  else flat_map (λ '(idx, r), check_row idx r) (iterrows df).

End expected_results_punctuation.
End expected_results_punctuation.

(** ** app/rules/generic_expected_results.py *)

Module generic_expected_results.
Section generic_expected_results.
Context `{FloatText}.

Definition RULE_ID : string := "GENERIC_EXPECTED_RESULTS".
Definition SEVERITY : string := "WARNING".

Definition GENERIC_PHRASES : gset string :=
  {[ "ok"; "okay"; "works"; "work"; "done"; "completed"; "complete";
     "success"; "successful"; "pass"; "passed"; "correct"; "correctly";
     "as expected" ]}.

Definition _normalize (text : value) : string :=
  match text with
  | VNone => ""
  | _ => pystr.lower (pystr.strip (common.str text))
  end.

(** The two messages, each quoting the trimmed cell. *)
Definition generic_message (expected : value) : string :=
  "Expected Results is too generic (" +:+ pystr.dquote
  +:+ pystr.strip (common.str expected) +:+ pystr.dquote +:+ ")".

Definition short_message (expected : value) : string :=
  "Expected Results is too short (" +:+ pystr.dquote
  +:+ pystr.strip (common.str expected) +:+ pystr.dquote +:+ ")".

Definition check_row (idx : Z) (r : row) : list dict :=
  if common.is_blank_row r then []
  else
    let expected := row_get r "Expected Results" (VStr "") in
    if common.is_empty_like expected then []
    else
      let expected_norm := _normalize expected in
      if bool_decide (expected_norm ∈ GENERIC_PHRASES)
      then [ common.make_issue (VInt (common.excel_row_number idx))
               (generic_message expected)
               RULE_ID (Some SEVERITY) (Some "Expected Results") ]
      else if (String.length expected_norm <=? 3)%nat
      then [ common.make_issue (VInt (common.excel_row_number idx))
               (short_message expected)
               RULE_ID (Some SEVERITY) (Some "Expected Results") ]
      else [].

Definition check_generic_expected_results (df : DataFrame) : list dict :=
  if negb (has_column df "Expected Results") then []
  else flat_map (λ '(idx, r), check_row idx r) (iterrows df).

End generic_expected_results.
End generic_expected_results.

(** ** app/rules/step_numbering.py *)

Module step_numbering.
Section step_numbering.
Context `{FloatText}.

(** *** [DataFrame.groupby("Test Case ID", dropna=False)]

    pandas groups the rows by equality of the key ([1 == 1.0] in Python) and
    yields the groups in sorted key order: numbers by value, text by code
    point, numbers before text. *)

Inductive number : Type :=
  | NegInf
  | Dyadic (n e : Z)   (* n * 2^e *)
  | PosInf.

Definition number_of (v : value) : option number :=
  match v with
  | VInt z => Some (Dyadic z 0)
  | VFloat (S754_zero _) => Some (Dyadic 0 0)
  | VFloat (S754_infinity s) => Some (if s then NegInf else PosInf)
  | VFloat (S754_finite s m e) => Some (Dyadic (if s then Z.neg m else Z.pos m) e)
  | _ => None
  end.

Definition number_compare (a b : number) : comparison :=
  match a, b with
  | NegInf, NegInf | PosInf, PosInf => Eq
  | NegInf, _ | _, PosInf => Lt
  | _, NegInf | PosInf, _ => Gt
  | Dyadic n1 e1, Dyadic n2 e2 =>
      let e := Z.min e1 e2 in
      (n1 * 2 ^ (e1 - e) ?= n2 * 2 ^ (e2 - e))%Z
  end.

(** Python's [==] on two keys. *)
Definition key_eqb (a b : value) : bool :=
  match number_of a, number_of b with
  | Some x, Some y => match number_compare x y with Eq => true | _ => false end
  | _, _ =>
      match a, b with
      | VStr s, VStr t => String.eqb s t
      | VNone, VNone => true
      | _, _ => false
      end
  end.

Definition key_leb (a b : value) : bool :=
  match number_of a, number_of b with
  | Some x, Some y => match number_compare x y with Gt => false | _ => true end
  | Some _, None => true
  | None, Some _ => false
  | None, None =>
      match a, b with
      | VStr s, VStr t => String.leb s t
      | _, _ => true
      end
  end.

Definition key_le (a b : value) : Prop := key_leb a b = true.

Global Instance key_le_dec : RelDecision key_le.
Proof. intros a b. unfold key_le. apply _. Defined.

(** The distinct keys, each at its first occurrence. *)
Fixpoint distinct_keys (l : list value) : list value :=
  match l with
  | [] => []
  | k :: t => k :: List.filter (λ k', negb (key_eqb k' k)) (distinct_keys t)
  end.

Definition tc_id_of (r : row) : value := row_get r "Test Case ID" VNone.

Definition groupby (l : list (Z * row)) : list (value * list (Z * row)) :=
  map (λ k, (k, List.filter (λ ir, key_eqb (tc_id_of ir.2) k) l))
      (merge_sort key_le (distinct_keys (map (λ ir, tc_id_of ir.2) l))).

(** *** The rule *)

(** [{"row": row, "error": message}] *)
Definition error_item (row_num : Z) (message : string) : dict :=
  [ ("row", VInt row_num); ("error", VStr message) ].

Definition empty_message (tc_id : value) : string :=
  "Step # is empty (Test Case ID: " +:+ common.str tc_id +:+ ")".

Definition not_a_number_message (raw tc_id : value) : string :=
  "Step # is not a number: " +:+ pystr.dquote +:+ pystr.strip (common.str raw)
  +:+ pystr.dquote +:+ " (Test Case ID: " +:+ common.str tc_id +:+ ")".

Definition duplicate_message (step : Z) (tc_id : value) : string :=
  "Duplicate Step # " +:+ pretty step +:+ " in Test Case ID " +:+ common.str tc_id.

Definition missing_message (tc_id : value) (missing : list Z) : string :=
  "Missing Step # in Test Case ID " +:+ common.str tc_id +:+ ": "
  +:+ pystr.join ", " (map pretty missing).

(** The message is an ordinary string literal in the source, not an f-string:
    the braces are part of the text. *)
Definition out_of_order_message : string :=
  "Step # is out of order in Test Case ID {tc_id} (expected ascending order)".

(** The variables of one iteration of the loop over the groups; [errors]
    holds what the group appends to the function's list. *)
Record group_state := {
  errors : list dict;
  steps_in_order : list (Z * Z);
  step_to_rows : list (Z * list Z);
  group_rows : list Z;
}.

Definition group_init : group_state :=
  {| errors := []; steps_in_order := []; step_to_rows := []; group_rows := [] |}.

(** [d.setdefault(k, []).append(r)] on an insertion-ordered dict. *)
Fixpoint setdefault_append (d : list (Z * list Z)) (k r : Z) : list (Z * list Z) :=
  match d with
  | [] => [(k, [r])]
  | (k', rs) :: t =>
      if (k' =? k)%Z then (k', rs ++ [r]) :: t
      else (k', rs) :: setdefault_append t k r
  end.

(** The body of [for idx, row in group.iterrows()]. *)
Definition scan_row (tc_id : value) (st : group_state) (ir : Z * row) : group_state :=
  let row_num := common.excel_row_number ir.1 in
  let raw := row_get ir.2 "Step #" (VStr "") in
  match common.to_int_step raw with
  | None =>
      let e :=
        if common.is_empty_like raw
        then error_item row_num (empty_message tc_id)
        else error_item row_num (not_a_number_message raw tc_id) in
      {| errors := errors st ++ [e];
         steps_in_order := steps_in_order st;
         step_to_rows := step_to_rows st;
         group_rows := group_rows st ++ [row_num] |}
  | Some step_int =>
      {| errors := errors st;
         steps_in_order := steps_in_order st ++ [(row_num, step_int)];
         step_to_rows := setdefault_append (step_to_rows st) step_int row_num;
         group_rows := group_rows st ++ [row_num] |}
  end.

Definition duplicate_errors (tc_id : value) (d : list (Z * list Z)) : list dict :=
  flat_map (λ '(step, rs),
    if (1 <? length rs)%nat
    then map (λ r, error_item r (duplicate_message step tc_id)) rs
    else []) d.

(** [max(l)] and [min(l)] of a non-empty list. *)
Definition list_max (x : Z) (l : list Z) : Z := foldl Z.max x l.
Definition list_min (x : Z) (l : list Z) : Z := foldl Z.min x l.

(** [sorted(set(range(1, max_step + 1)) - set(valid_steps))] *)
Definition missing_steps (max_step : Z) (valid_steps : list Z) : list Z :=
  merge_sort Z.le
    (elements ((list_to_set (Z.of_nat <$> seq 1 (Z.to_nat max_step)) : gset Z)
               ∖ list_to_set valid_steps)).

Definition missing_errors (tc_id : value) (st : group_state) : list dict :=
  let valid_steps := merge_sort Z.le (map fst (step_to_rows st)) in
  match valid_steps, group_rows st with
  | v :: vs, g :: gs =>
      let max_step := list_max v vs in
      let missing := missing_steps max_step valid_steps in
      match missing with
      | [] => []
      | _ :: _ => [ error_item (list_min g gs) (missing_message tc_id missing) ]
      end
  | _, _ => []
  end.

(** [for i in range(1, len(ordered)): if ordered[i] < ordered[i - 1]: ...
    break]: the row of the first step below its predecessor. *)
Fixpoint first_decrease (prev : Z) (l : list (Z * Z)) : option Z :=
  match l with
  | [] => None
  | (row_num, s) :: t =>
      if (s <? prev)%Z then Some row_num else first_decrease s t
  end.

Definition order_errors (sio : list (Z * Z)) : list dict :=
  match sio with
  | [] => []
  | (_, s0) :: t =>
      match first_decrease s0 t with
      | Some bad_row => [ error_item bad_row out_of_order_message ]
      | None => []
      end
  end.

(** What follows the loop over the rows of a group. *)
Definition finish_group (tc_id : value) (st : group_state) : list dict :=
  match steps_in_order st with
  | [] => errors st
  | _ :: _ =>
      errors st ++ duplicate_errors tc_id (step_to_rows st)
      ++ missing_errors tc_id st ++ order_errors (steps_in_order st)
  end.

(** The body of [for tc_id, group in grouped]. *)
Definition check_group (tc_id : value) (group : list (Z * row)) : list dict :=
  finish_group tc_id (foldl (scan_row tc_id) group_init group).

(** The rows the two filters keep, on a table that has rows. *)
Definition working_rows (df : DataFrame) : list (Z * row) :=
  List.filter (λ ir, negb (common.is_empty_like (tc_id_of ir.2)))
    (List.filter (λ ir, negb (common.is_blank_row ir.2)) (iterrows df)).

(** From [if working_df.empty] to the end of the function. *)
Definition check_working_rows (w : list (Z * row)) : list dict :=
  match w with
  | [] => []
  | _ :: _ => flat_map (λ '(tc_id, group), check_group tc_id group) (groupby w)
  end.

(** On a table without rows, [working_df.apply(is_blank_row, axis=1)] calls
    the function on no row and gives an empty Series of floats, not of
    booleans; [~] leaves an empty Series as it is, and [working_df[...]]
    reads it as an empty list of column labels.  The frame left has no
    column, and the lookup [working_df["Test Case ID"]] of the next line
    raises [KeyError].  On a table with rows the mask is a Series of
    booleans and selects rows; when no row is left, the second mask is empty
    and leaves a frame which is [empty], so the function returns. *)
Definition check_step_numbering (df : DataFrame) : result (list dict) :=
  if negb (has_column df "Test Case ID" && has_column df "Step #") then Ok []
  else
    match rows df with
    | [] => Raise (KeyError "Test Case ID")
    | _ :: _ => Ok (check_working_rows (working_rows df))
    end.

End step_numbering.
End step_numbering.

(** ** app/config.py *)

Module config.

(** The settings the scanner reads (the module's globals). *)
Record Config := {
  ENABLE_CORE_STEPS : bool;
  CORE_ANCHOR_STEP_3_ACTION : string;
  CORE_ANCHOR_STEP_4_ACTION : string;
  CORE_ANCHOR_STEP_5_ACTION : string;
  CORE_ANCHOR_STEP_8_ACTION : string;
  CORE_ANCHOR_MIN_MATCHES : Z;
  CORE_STEPS_COUNT : Z;
}.

(** The values of the repository's [config.py]. *)
Definition shipped : Config := {|
  ENABLE_CORE_STEPS := true;
  CORE_ANCHOR_STEP_3_ACTION := "Enter PIN and hit Enter";
  CORE_ANCHOR_STEP_4_ACTION := "Click OK button";
  CORE_ANCHOR_STEP_5_ACTION := "Click OK button";
  CORE_ANCHOR_STEP_8_ACTION := "Click Continue button";
  CORE_ANCHOR_MIN_MATCHES := 2;
  CORE_STEPS_COUNT := 8;
|}.

End config.

(** ** app/core_steps.py *)

Module core_steps.

Record CoreStep := {
  action : string;
  expected : string;
}.

Definition CORE_STEPS : list CoreStep :=
  [ {| action := "Launch CAPRI application from desktop";
       expected := "Windows Security Certificate Selection window pop-up displays." |};
    {| action := "Select appropriate PIV Card Certificate and select OK button";
       expected := "ActivClient Login pin screen displays." |};
    {| action := "Enter PIN and hit Enter";
       expected := "System Use Notification window displays." |};
    {| action := "Click OK button";
       expected := "CAPRI News feed displays." |};
    {| action := "Click Close button";
       expected := "CAPRI GUI version pop-up displays." |};
    {| action := "Click OK button";
       expected := "CAPRI alerts screen displays." |};
    {| action := "Click Continue button";
       expected := "CAPRI application loads. Patient Selector screen displays." |};
    {| action := "Search for Patient using Name or SSN";
       expected := "Patient record is displayed." |} ].

(** [" ".join(str(text).strip().split())] *)
Definition normalize_spaces (text : string) : string :=
  pystr.join " " (pystr.split (pystr.strip text)).

Definition steps_match (a b : string) : bool :=
  String.eqb (normalize_spaces a) (normalize_spaces b).

(** [step.get(key, "")] on a step given as a [Dict[str, str]]. *)
Fixpoint step_get (d : list (string * string)) (key : string) : string :=
  match d with
  | [] => ""
  | (k, v) :: t => if String.eqb k key then v else step_get t key
  end.

Definition is_standard_case (steps : list (list (string * string)))
    (anchor3 anchor4 : string) : bool :=
  if (length steps <? 4)%nat then false
  else
    match steps !! 2%nat, steps !! 3%nat with
    | Some step3, Some step4 =>
        let s3 := normalize_spaces (step_get step3 "action") in
        let s4 := normalize_spaces (step_get step4 "action") in
        String.eqb s3 (normalize_spaces anchor3)
        && String.eqb s4 (normalize_spaces anchor4)
    | _, _ => false
    end.

End core_steps.

(** ** app/scanner.py *)

Module scanner.
Section scanner.
Context `{FloatText}.

Definition RULES : list (DataFrame → list dict) :=
  [ missing_columns.check_missing_columns;
    required_fields.check_required_fields;
    blank_rows.check_blank_rows;
    data_required.check_data_required_for_actions;
    expected_results_punctuation.check_expected_results_punctuation;
    generic_expected_results.check_generic_expected_results ].

Definition CONDITIONAL_RULES
    : list (list string * (DataFrame → result (list dict))) :=
  [ (["Test Case ID"; "Step #"], step_numbering.check_step_numbering) ].

(** One entry of the [steps] list: [{"action": ..., "expected": ...}]. *)
Record step := {
  action : string;
  expected : string;
}.

(** ["" if pd.isna(row.get(name)) else str(row.get(name))] *)
Definition cell_text (r : row) (name : string) : string :=
  let v := row_get r name VNone in
  if common.isna v then "" else common.str v.

Definition steps_of (df : DataFrame) : list step :=
  map (λ ir, {| action := cell_text ir.2 "Action";
                expected := cell_text ir.2 "Expected Results" |})
      (iterrows df).

Definition anchor_step_map (cfg : config.Config) : list (nat * string) :=
  [ (3, config.CORE_ANCHOR_STEP_3_ACTION cfg);
    (4, config.CORE_ANCHOR_STEP_4_ACTION cfg);
    (5, config.CORE_ANCHOR_STEP_5_ACTION cfg);
    (8, config.CORE_ANCHOR_STEP_8_ACTION cfg) ]%nat.

(** One anchor of the counting loop: 1 when the configured text is not empty
    and matches the action at that 1-based position.  The position exists,
    the rows having been counted before the loop. *)
Definition anchor_hit (steps : list step) (a : nat * string) : Z :=
  if String.eqb a.2 "" then 0%Z
  else
    match steps !! (a.1 - 1)%nat with
    | Some s => if core_steps.steps_match (action s) a.2 then 1%Z else 0%Z
    | None => 0%Z
    end.

Definition match_count (cfg : config.Config) (steps : list step) : Z :=
  foldl (λ n a, (n + anchor_hit steps a)%Z) 0%Z (anchor_step_map cfg).

(** [{"severity": "WARNING", "excel_row": row, "message": message}] *)
Definition core_issue (excel_row : Z) (message : string) : dict :=
  [ ("severity", VStr "WARNING"); ("excel_row", VInt excel_row);
    ("message", VStr message) ].

Definition mismatch_message (i : nat) (what want found : string) : string :=
  "Core Step " +:+ pretty (Z.of_nat i + 1)%Z +:+ " " +:+ what
  +:+ " mismatch. Expected: " +:+ pystr.dquote +:+ want +:+ pystr.dquote
  +:+ " | Found: " +:+ pystr.dquote +:+ found +:+ pystr.dquote +:+ ".".

(** The body of [for i in range(enforce_n)]. *)
Definition enforce_step (steps : list step) (i : nat) : list dict :=
  match core_steps.CORE_STEPS !! i, steps !! i with
  | Some c, Some s =>
      let excel_row := (Z.of_nat i + 2)%Z in
      (if negb (core_steps.steps_match (action s) (core_steps.action c))
       then [ core_issue excel_row
                (mismatch_message i "Action" (core_steps.action c) (action s)) ]
       else [])
      ++
      (if negb (core_steps.steps_match (expected s) (core_steps.expected c))
       then [ core_issue excel_row
                (mismatch_message i "Expected Results"
                   (core_steps.expected c) (expected s)) ]
       else [])
  | _, _ => []
  end.

(** The enforcement loop over the first [enforce_n] steps. *)
Definition enforce (cfg : config.Config) (steps : list step) : list dict :=
  let enforce_n :=
    Z.min (Z.min (config.CORE_STEPS_COUNT cfg)
                 (Z.of_nat (length core_steps.CORE_STEPS)))
          (Z.of_nat (length steps)) in
  flat_map (enforce_step steps) (seq 0 (Z.to_nat enforce_n)).

Definition check_core_steps_enforcement (cfg : config.Config) (df : DataFrame)
    : list dict :=
  if negb (config.ENABLE_CORE_STEPS cfg) then []
  else if negb (has_column df "Action") || negb (has_column df "Expected Results")
  then []
  else
    let steps := steps_of df in
    if (length steps <? foldr Nat.max 0 (map fst (anchor_step_map cfg)))%nat then []
    else if (match_count cfg steps <? config.CORE_ANCHOR_MIN_MATCHES cfg)%Z then []
    else enforce cfg steps.

(** The dictionary [scan] returns. *)
Record ScanResult := {
  scan_rows : nat;
  scan_columns : list string;
  scan_errors : list dict;
}.

(** One turn of the loop over [CONDITIONAL_RULES]; an exception of a rule
    ends the loop and the scan. *)
Definition conditional_step (df : DataFrame) (acc : result (list dict))
    (entry : list string * (DataFrame → result (list dict))) : result (list dict) :=
  let '(required_columns, rule) := entry in
  match acc with
  | Raise e => Raise e
  | Ok errors =>
      if forallb (has_column df) required_columns
      then match rule df with
           | Ok found => Ok (errors ++ found)
           | Raise e => Raise e
           end
      else Ok errors
  end.

(** [TestCaseScanner.scan], on the table [load_csv] returned.  No exception
    is caught: what a rule raises, the scan raises. *)
Definition scan (cfg : config.Config) (df : DataFrame) : result ScanResult :=
  let errors := [] ++ missing_columns.check_missing_columns df in
  match errors with
  | _ :: _ =>
      Ok {| scan_rows := length (rows df); scan_columns := columns df;
            scan_errors := errors |}
  | [] =>
      let errors := foldl (λ acc rule, acc ++ rule df) errors RULES in
      let errors := errors ++ check_core_steps_enforcement cfg df in
      match foldl (conditional_step df) (Ok errors) CONDITIONAL_RULES with
      | Raise e => Raise e
      | Ok errors =>
          Ok {| scan_rows := length (rows df); scan_columns := columns df;
                scan_errors := errors |}
      end
  end.

End scanner.
End scanner.

(** ** app/main.py: reading issue records, strict mode *)

(** An element of an error list: a [str], or a [dict]. *)
Inductive err : Type :=
  | ErrStr (s : string)
  | ErrDict (d : dict).

(** The same list as the interpreter holds it: a [str] is an immutable value,
    a [dict] is an object of the store, named by its address. *)
Inductive ref : Type :=
  | RStr (s : string)
  | RDict (a : nat).

(** The store of dict objects, by address. *)
Abbreviation heap := (gmap nat dict).

Module main.
Section main.
Context `{FloatText}.

(** [bool(v)] *)
Definition truthy (v : value) : bool :=
  match v with
  | VNone => false
  | VInt z => negb (z =? 0)%Z
  | VFloat f => pyfloat.truthy f
  | VStr s => negb (String.eqb s "")
  end.

(** [a or b] *)
Definition py_or (a b : value) : value := if truthy a then a else b.

(** [err.get(key)], [None] for a missing key. *)
Definition get (d : dict) (key : string) : value :=
  default VNone (dict_get d key).

(** [isinstance(val, str) and val.strip()], then [val.strip()]. *)
Definition nonblank_text (v : value) : option string :=
  match v with
  | VStr s => if String.eqb (pystr.strip s) "" then None else Some (pystr.strip s)
  | _ => None
  end.

(** The first key or value of a sequence that holds non-blank text. *)
Fixpoint first_text (vals : list value) : option string :=
  match vals with
  | [] => None
  | v :: t =>
      match nonblank_text v with
      | Some s => Some s
      | None => first_text t
      end
  end.

Definition message_keys : list string :=
  [ "message"; "issue"; "error"; "msg"; "details"; "text"; "Issue"; "Error" ].

Definition extract_message (e : err) : string :=
  match e with
  | ErrStr s => pystr.strip s
  | ErrDict d =>
      match first_text (map (get d) message_keys) with
      | Some s => s
      | None => default "" (first_text (map snd d))
      end
  end.

Definition extract_severity (e : err) : string :=
  match e with
  | ErrStr _ => "FAIL"
  | ErrDict d =>
      let sev := py_or (py_or (get d "severity") (get d "level")) (get d "type") in
      match nonblank_text sev with
      | Some s =>
          let sev_norm := pystr.upper s in
          if bool_decide (sev_norm ∈ ({[ "FAIL"; "ERROR" ]} : gset string)) then "FAIL"
          else if bool_decide (sev_norm ∈ ({[ "WARNING"; "WARN" ]} : gset string))
          then "WARNING"
          else if bool_decide (sev_norm ∈ ({[ "INFO" ]} : gset string)) then "INFO"
          else "FAIL"
      | None => "FAIL"
      end
  end.

(** [(fail_count, warning_count, info_count)] *)
Definition summarize_issues (errors : list err) : Z * Z * Z :=
  foldl (λ '(fail, warning, info) e,
           let sev := extract_severity e in
           if String.eqb sev "FAIL" then (fail + 1, warning, info)%Z
           else if String.eqb sev "WARNING" then (fail, warning + 1, info)%Z
           else (fail, warning, info + 1)%Z)
        (0, 0, 0)%Z errors.

(** *** Strict mode, over the store *)

(** The value a list element stands for. *)
Definition deref (h : heap) (e : ref) : option err :=
  match e with
  | RStr s => Some (ErrStr s)
  | RDict a => ErrDict <$> h !! a
  end.

(** [dict(e)]: a new object, at an unused address, with the entries of [e]. *)
Definition alloc (h : heap) (d : dict) : heap * nat :=
  let a := fresh (dom h) in (<[a := d]> h, a).

(** [obj[key] = v] on the object at address [a]. *)
Definition store (h : heap) (a : nat) (key : string) (v : value) : heap :=
  alter (λ d, dict_set d key v) a h.

(** The body of [for e in errors]; the state is the store and
    [strict_errors]. *)
Definition strict_step (st : heap * list ref) (e : ref) : heap * list ref :=
  let '(h, strict_errors) := st in
  match e with
  | RStr _ => (h, strict_errors ++ [e])
  | RDict a =>
      match h !! a with
      | Some d =>
          if String.eqb (extract_severity (ErrDict d)) "WARNING"
          then
            let '(h1, new_e) := alloc h d in
            let h2 := store h1 new_e "severity" (VStr "FAIL") in
            (h2, strict_errors ++ [RDict new_e])
          else (h, strict_errors ++ [e])
      | None => (h, strict_errors ++ [e])
      end
  end.

Definition apply_strict_mode (h : heap) (errors : list ref) : heap * list ref :=
  foldl strict_step (h, []) errors.

End main.
End main.

(** ** The float builtins as Python has them

    [float(text)] reads a decimal literal (or inf, infinity, nan) and rounds
    it to the nearest binary64 value, ties to even; [str(x)] prints the
    shortest decimal text that reads back as [x]. *)

Module float64.

(** [a / b] (for positive [a] and [b]) scaled by [2^(-e)]: quotient and
    whether twice the remainder is below, at or above the divisor. *)
Definition scaled (a b e : Z) : Z * comparison :=
  let num := if (0 <=? e)%Z then a else (a * 2 ^ (- e))%Z in
  let den := if (0 <=? e)%Z then (b * 2 ^ e)%Z else b in
  ((num / den)%Z, (2 * (num mod den) ?= den)%Z).

(** The binary64 value nearest to [a / b], with sign [s]. *)
Definition round_ratio (s : bool) (a b : Z) : spec_float :=
  if (a <=? 0)%Z then S754_zero s
  else
    let l := (Z.log2 a - Z.log2 b)%Z in
    let e1 := (l - 52)%Z in
    let e2 := if (fst (scaled a b e1) <? 2 ^ 52)%Z then (e1 - 1)%Z else e1 in
    let e := Z.max e2 (-1074) in
    let '(q, half) := scaled a b e in
    let q' :=
      match half with
      | Lt => q
      | Gt => (q + 1)%Z
      | Eq => if Z.even q then q else (q + 1)%Z
      end in
    let '(m, e') := if (q' =? 2 ^ 53)%Z then (2 ^ 52, e + 1)%Z else (q', e) in
    if (m =? 0)%Z then S754_zero s
    else if (971 <? e')%Z then S754_infinity s
    else S754_finite s (Z.to_pos m) e'.

(** [m * 10^e10] rounded. *)
Definition of_decimal (s : bool) (m e10 : Z) : spec_float :=
  if (0 <=? e10)%Z then round_ratio s (m * 10 ^ e10) 1
  else round_ratio s m (10 ^ (- e10)).

(** *** Reading *)

Definition is_digit (c : ascii) : bool :=
  let n := nat_of_ascii c in (48 <=? n)%nat && (n <=? 57)%nat.

Definition digit_value (c : ascii) : Z := Z.of_nat (nat_of_ascii c - 48).

(** The leading digits of [s]: their value after [acc], their number after
    [n], and the rest of the text. *)
Fixpoint take_digits (s : string) (acc n : Z) : Z * Z * string :=
  match s with
  | String c t =>
      if is_digit c then take_digits t (acc * 10 + digit_value c)%Z (n + 1)%Z
      else (acc, n, s)
  | "" => (acc, n, s)
  end.

(** Underscores may only stand between two digits; they are dropped. *)
Fixpoint drop_underscores (prev : option ascii) (s : string) : option string :=
  match s with
  | "" => match prev with Some "_"%char => None | _ => Some "" end
  | String c t =>
      if Ascii.eqb c "_"
      then match prev with
           | Some p => if is_digit p then drop_underscores (Some c) t else None
           | None => None
           end
      else
        match prev with
        | Some "_"%char =>
            if is_digit c then String c <$> drop_underscores (Some c) t else None
        | _ => String c <$> drop_underscores (Some c) t
        end
  end.

Definition take_sign (s : string) : bool * string :=
  match s with
  | String "-" t => (true, t)
  | String "+" t => (false, t)
  | _ => (false, s)
  end.

(** The exponent part: empty, or e or E, a sign and digits up to the end. *)
Definition take_exponent (s : string) : option Z :=
  match s with
  | "" => Some 0%Z
  | String c t =>
      if Ascii.eqb c "e" || Ascii.eqb c "E"
      then
        let '(neg, t1) := take_sign t in
        match take_digits t1 0 0 with
        | (x, n, "") => if (0 <? n)%Z then Some (if neg then (- x)%Z else x) else None
        | _ => None
        end
      else None
  end.

Definition is_ascii_space (c : ascii) : bool :=
  let n := nat_of_ascii c in ((9 <=? n)%nat && (n <=? 13)%nat) || (n =? 32)%nat.

Fixpoint all_ascii (s : string) : bool :=
  match s with
  | "" => true
  | String c t => (nat_of_ascii c <? 128)%nat && all_ascii t
  end.

Fixpoint lstrip_by (p : ascii → bool) (s : string) : string :=
  match s with
  | "" => ""
  | String c t => if p c then lstrip_by p t else s
  end.

Definition strip_by (p : ascii → bool) (s : string) : string :=
  String.rev (lstrip_by p (String.rev (lstrip_by p s))).

(** [float(text)] *)
Definition of_str (text : string) : option spec_float :=
  let s0 := strip_by (if all_ascii text then is_ascii_space else pystr.is_space) text in
  match drop_underscores None s0 with
  | None => None
  | Some s1 =>
      let '(neg, s2) := take_sign s1 in
      let word := pystr.lower s2 in
      if String.eqb word "inf" || String.eqb word "infinity" then Some (S754_infinity neg)
      else if String.eqb word "nan" then Some S754_nan
      else
        let '(m1, n1, r1) := take_digits s2 0 0 in
        let '(m, n2, r2) :=
          match r1 with
          | String "." t => take_digits t m1 0
          | _ => (m1, 0%Z, r1)
          end in
        if (n1 + n2 =? 0)%Z then None
        else
          match take_exponent r2 with
          | Some x => Some (of_decimal neg m (x - n2))
          | None => None
          end
  end.

(** *** Printing *)

(** The number [k] of a positive [a / b] with [10^(k-1) <= a / b < 10^k]. *)
Definition below_pow10 (a b k : Z) : bool :=
  if (0 <=? k)%Z then (a <? b * 10 ^ k)%Z else (a * 10 ^ (- k) <? b)%Z.

Definition decimal_exponent (a b : Z) : Z :=
  let k0 := (((Z.log2 a - Z.log2 b) * 30103) / 100000 - 1)%Z in
  if below_pow10 a b k0 then k0
  else if below_pow10 a b (k0 + 1) then (k0 + 1)%Z
  else if below_pow10 a b (k0 + 2) then (k0 + 2)%Z
  else (k0 + 3)%Z.

Fixpoint strip_zeros (rev_digits : string) : string :=
  match rev_digits with
  | String "0" t => strip_zeros t
  | _ => rev_digits
  end.

(** The digits of the candidate [d * 10^p], without trailing zeros, and the
    position of the decimal point before them. *)
Definition candidate_digits (d p : Z) : string * Z :=
  let all := pretty d in
  (String.rev (strip_zeros (String.rev all)), (p + Z.of_nat (String.length all))%Z).

(** The candidates with [n] digits around [a / b]: the shortest text is the
    nearer one that reads back as [x]. *)
Definition try_digits (x : spec_float) (a b k : Z) (n : nat) : option (string * Z) :=
  let p := (k - Z.of_nat n)%Z in
  let num := if (0 <=? p)%Z then a else (a * 10 ^ (- p))%Z in
  let den := if (0 <=? p)%Z then (b * 10 ^ p)%Z else b in
  let lo := (num / den)%Z in
  let hi := (lo + 1)%Z in
  let ok d := bool_decide (of_decimal false d p = x) in
  let lo_near := (2 * (num mod den) <=? den)%Z in
  if ok lo && (lo_near || negb (ok hi)) then Some (candidate_digits lo p)
  else if ok hi then Some (candidate_digits hi p)
  else None.

Fixpoint shortest_from (x : spec_float) (a b k : Z) (n fuel : nat) : string * Z :=
  match fuel with
  | O => candidate_digits (a * 10 ^ Z.max 0 (17 - k) / (b * 10 ^ Z.max 0 (k - 17)))%Z (k - 17)
  | S fuel' =>
      match try_digits x a b k n with
      | Some r => r
      | None => shortest_from x a b k (S n) fuel'
      end
  end.

Fixpoint zeros (n : nat) : string :=
  match n with O => "" | S n' => String "0" (zeros n') end.

(** [repr]'s layout of the digits [ds] with the point at [decpt]. *)
Definition layout (ds : string) (decpt : Z) : string :=
  let n := Z.of_nat (String.length ds) in
  if (decpt <=? -4)%Z || (16 <? decpt)%Z
  then
    let x := (decpt - 1)%Z in
    let mant :=
      match ds with
      | String c "" => String c ""
      | String c t => String c ("." +:+ t)
      | "" => "0"
      end in
    let xs := pretty (Z.abs x) in
    mant +:+ "e" +:+ (if (x <? 0)%Z then "-" else "+")
    +:+ (if (String.length xs <? 2)%nat then "0" +:+ xs else xs)
  else if (decpt <=? 0)%Z then "0." +:+ zeros (Z.to_nat (- decpt)) +:+ ds
  else if (n <=? decpt)%Z then ds +:+ zeros (Z.to_nat (decpt - n)) +:+ ".0"
  else substring 0 (Z.to_nat decpt) ds +:+ "."
       +:+ substring (Z.to_nat decpt) (Z.to_nat (n - decpt)) ds.

(** [str(x)] *)
Definition to_str (x : spec_float) : string :=
  match x with
  | S754_nan => "nan"
  | S754_infinity s => if s then "-inf" else "inf"
  | S754_zero s => if s then "-0.0" else "0.0"
  | S754_finite s m e =>
      let a := if (0 <=? e)%Z then (Z.pos m * 2 ^ e)%Z else Z.pos m in
      let b := if (0 <=? e)%Z then 1%Z else (2 ^ (- e))%Z in
      let k := decimal_exponent a b in
      let '(ds, decpt) := shortest_from (S754_finite false m e) a b k 1 17 in
      (if s then "-" else "") +:+ layout ds decpt
  end.

End float64.

Definition python_float_text : FloatText :=
  {| float_str := float64.to_str; float_of_str := float64.of_str |}.

(** ** [int(x)]

    [int(text)] reads an optional sign and decimal digits, with single
    underscores between digits, surrounded by whitespace; [int] of a float
    truncates and raises on an infinity or a NaN. *)

Module pyint.

(** The whitespace [int] passes over at both ends of the text. *)
Definition is_space (c : ascii) : bool :=
  let n := nat_of_ascii c in
  float64.is_ascii_space c || (n =? 133)%nat || (n =? 160)%nat.

(** [int(text)] ([None] for [ValueError]). *)
Definition of_str (text : string) : option Z :=
  let s0 := float64.strip_by is_space text in
  match float64.drop_underscores None s0 with
  | None => None
  | Some s1 =>
      let '(neg, s2) := float64.take_sign s1 in
      match float64.take_digits s2 0 0 with
      | (m, n, "") => if (0 <? n)%Z then Some (if neg then (- m)%Z else m) else None
      | _ => None
      end
  end.

(** [int(v)] ([None] when it raises). *)
Definition of_value (v : value) : option Z :=
  match v with
  | VNone => None
  | VInt z => Some z
  | VFloat (S754_zero _) => Some 0%Z
  | VFloat (S754_finite s m e) => Some (pyfloat.to_int (S754_finite s m e))
  | VFloat _ => None
  | VStr s => of_str s
  end.

End pyint.

(** ** app/main.py: the Excel row of an issue, the report, the command line *)

Module report.
Section report.

(** [os.path.basename], which depends on the platform. *)
Context (basename : string → string).

Definition filename_only (path : string) : string := basename path.

Definition format_columns (columns : list string) : string :=
  pystr.join " | " (map pystr.strip columns).

Definition row_keys : list string :=
  [ "excel_row"; "excelRow"; "row"; "Row"; "excel" ].

(** The loop over the keys: the first key that is present with a value other
    than [None] that [int] accepts. *)
Fixpoint first_int (d : dict) (keys : list string) : option Z :=
  match keys with
  | [] => None
  | key :: t =>
      match dict_get d key with
      | Some VNone | None => first_int d t
      | Some v =>
          match pyint.of_value v with
          | Some n => Some n
          | None => first_int d t
          end
      end
  end.

Definition extract_excel_row (e : err) : option Z :=
  match e with
  | ErrStr _ => None
  | ErrDict d => first_int d row_keys
  end.

(** The line feed. *)
Definition newline : string := String (ascii_of_nat 10) "".

(** The three status texts end with a sign outside the code points 0..255;
    it is held as its UTF-8 bytes, and nothing inspects it. *)
Definition status (issues_found : nat) (fail_count : Z) : string :=
  if (issues_found =? 0)%nat then "PASS ✅"
  else if (0 <? fail_count)%Z then "FAIL ❌"
  else "PASS (Warnings) ⚠️".

Definition breakdown_parts (fail_count warning_count info_count : Z) : list string :=
  (if (fail_count =? 0)%Z then [] else [ "FAIL=" +:+ pretty fail_count ])
  ++ (if (warning_count =? 0)%Z then [] else [ "WARNING=" +:+ pretty warning_count ])
  ++ (if (info_count =? 0)%Z then [] else [ "INFO=" +:+ pretty info_count ]).

Definition group_key (e : err) : string :=
  match extract_excel_row e with
  | Some r => "Excel Row " +:+ pretty r
  | None => "Excel Row ?"
  end.

(** [grouped.setdefault(group_key, []).append(err)] *)
Fixpoint setdefault_append (grouped : list (string * list err)) (k : string) (e : err)
    : list (string * list err) :=
  match grouped with
  | [] => [(k, [e])]
  | (k', es) :: t =>
      if String.eqb k' k then (k', es ++ [e]) :: t
      else (k', es) :: setdefault_append t k e
  end.

Definition grouped (errors : list err) : list (string * list err) :=
  foldl (λ g e, setdefault_append g (group_key e) e) [] errors.

(** [grouped[group]] *)
Fixpoint group_get (g : list (string * list err)) (k : string) : list err :=
  match g with
  | [] => []
  | (k', es) :: t => if String.eqb k' k then es else group_get t k
  end.

Definition sort_key (k : string) : Z :=
  match pyint.of_str (pystr.strip (pystr.replace k "Excel Row" "")) with
  | Some n => n
  | None => (10 ^ 9)%Z
  end.

(** [sorted(l, key=key)]: a stable sort, equal keys keep their order. *)
Fixpoint insert_by_key {A} (key : A → Z) (x : A) (l : list A) : list A :=
  match l with
  | [] => [x]
  | y :: t => if (key x <=? key y)%Z then x :: l else y :: insert_by_key key x t
  end.

Definition sorted_by_key {A} (key : A → Z) (l : list A) : list A :=
  foldr (insert_by_key key) [] l.

(** What the inner loop prints for one issue: nothing when it has no message. *)
Definition issue_lines (e : err) : list string :=
  let msg := main.extract_message e in
  if String.eqb msg "" then []
  else
    let sev := main.extract_severity e in
    let prefix :=
      if String.eqb sev "FAIL" then "FAIL"
      else if String.eqb sev "WARNING" then "WARNING"
      else "INFO" in
    [ "  " +:+ prefix +:+ ": " +:+ msg ].

(** The body of [for group in sorted(grouped.keys(), key=sort_key)]. *)
Definition group_lines (g : list (string * list err)) (group : string) : list string :=
  [ group +:+ ":" ] ++ flat_map issue_lines (group_get g group) ++ [ "" ].

(** The texts [print_human_report] prints, one per call of [print]. *)
Definition print_human_report (file_path : string) (columns : list string)
    (steps_loaded steps_scanned : Z) (errors : list err) (header_suffix : string)
    : list string :=
  let title :=
    "TEST CASE SCAN REPORT"
    +:+ (if String.eqb header_suffix "" then "" else " " +:+ header_suffix) in
  let '(fail_count, warning_count, info_count) := main.summarize_issues errors in
  let issues_found := length errors in
  [ "Loading test case file: " +:+ filename_only file_path +:+ newline;
    "Columns: " +:+ format_columns columns;
    "Steps loaded: " +:+ pretty steps_loaded +:+ newline;
    "==============================";
    title;
    "==============================";
    "Steps scanned: " +:+ pretty steps_scanned +:+ newline;
    "Status: " +:+ status issues_found fail_count;
    "Issues found: " +:+ pretty issues_found ]
  ++ (if (0 <? issues_found)%nat
      then [ "Breakdown: "
             +:+ pystr.join ", " (breakdown_parts fail_count warning_count info_count) ]
      else [])
  ++ [ "" ]
  ++ (if (issues_found =? 0)%nat then []
      else
        let g := grouped errors in
        flat_map (group_lines g) (sorted_by_key sort_key (map fst g))).

(** [resolve_csv_path], as a function of [sys.argv] and of the configured
    [TEST_CASE_FILES]. *)
Definition default_path : string :=
  "/Users/artiomkisliakov/Desktop/test_case - 12345.csv".

Definition resolve_csv_path (argv : list string) (TEST_CASE_FILES : list value)
    : string :=
  let configured :=
    match TEST_CASE_FILES with
    | VStr p :: _ =>
        if negb (String.eqb (pystr.strip p) "") then pystr.strip p else default_path
    | _ => default_path
    end in
  match argv !! 1%nat with
  | Some a => if negb (String.eqb (pystr.strip a) "") then pystr.strip a else configured
  | None => configured
  end.

(** [ask_yes_no], as a function of the line [input] returns. *)
Definition ask_yes_no (answer : string) : bool :=
  String.eqb (pystr.lower (pystr.strip answer)) "y".

End report.
End report.

(** * The vocabulary of the properties *)

Section vocabulary.

(** The issues a validator attaches to the row at position [i]. *)
Definition issues_at (i : nat) (l : list dict) : list dict :=
  List.filter (λ e, bool_decide (dict_get e "row" = Some (VInt (Z.of_nat i + 2)))) l.

(** Every character of [s] satisfies [p]. *)
Fixpoint all_chars (p : ascii → bool) (s : string) : bool :=
  match s with
  | "" => true
  | String c t => p c && all_chars p t
  end.

(** Some character of [s] satisfies [p]. *)
Fixpoint has_char (p : ascii → bool) (s : string) : bool :=
  match s with
  | "" => false
  | String c t => p c || has_char p t
  end.

(** The characters a printed number has at least one of. *)
Definition digit_or_dot (c : ascii) : bool := float64.is_digit c || Ascii.eqb c ".".

(** What strict mode makes of one issue value. *)
Definition promote (v : err) : err :=
  match v with
  | ErrStr _ => v
  | ErrDict d =>
      if String.eqb (main.extract_severity v) "WARNING"
      then ErrDict (dict_set d "severity" (VStr "FAIL"))
      else v
  end.

(** The values a list of references stands for in a store. *)
Definition issue_values (h : heap) (l : list ref) : list err :=
  omap (main.deref h) l.

(** The output element [o] for the input element [e]: it stands for the
    promoted value; a WARNING is a new object, anything else is the very
    same element. *)
Definition promoted_to (h h' : heap) (e o : ref) : Prop :=
  ∃ v, main.deref h e = Some v
       ∧ main.deref h' o = Some (promote v)
       ∧ if String.eqb (main.extract_severity v) "WARNING"
         then ∃ a, o = RDict a ∧ h !! a = None
         else o = e.

(** The raw Step # cell and the Excel number of a row of a group. *)
(** The issues a rule returned; none when it raised. *)
Definition returned (r : result (list dict)) : list dict :=
  match r with
  | Ok errors => errors
  | Raise _ => []
  end.

Definition raw_step (ir : Z * row) : value := row_get ir.2 "Step #" (VStr "").
Definition row_num (ir : Z * row) : Z := common.excel_row_number ir.1.

(** The valid step at position [i + 1] is below the one at position [i]. *)
Definition decrease_at (sio : list (Z * Z)) (i : nat) : Prop :=
  ∃ p q, sio !! i = Some p ∧ sio !! S i = Some q ∧ (q.2 < p.2)%Z.

(** An out-of-order error of the step-numbering rule. *)
Definition is_out_of_order (e : dict) : bool :=
  bool_decide (dict_get e "error" = Some (VStr step_numbering.out_of_order_message)).





End vocabulary.

Section vocabulary_cells.
Context `{FloatText}.

(** The valid step numbers of a group, in row order, each with its row. *)
Definition valid_steps (group : list (Z * row)) : list (Z * Z) :=
  omap (λ ir, (λ s, (row_num ir, s)) <$> common.to_int_step (raw_step ir)) group.

(** What the loop over the rows of a group appends to the errors. *)
Definition cell_errors (tc_id : value) (group : list (Z * row)) : list dict :=
  flat_map (λ ir,
    match common.to_int_step (raw_step ir) with
    | Some _ => []
    | None =>
        [ step_numbering.error_item (row_num ir)
            (if common.is_empty_like (raw_step ir)
             then step_numbering.empty_message tc_id
             else step_numbering.not_a_number_message (raw_step ir) tc_id) ]
    end) group.

(** The anchor [a] (a 1-based position and its configured action) matches
    the table: the configured text is not empty and equals, after
    whitespace normalisation, the action of the row at that position. *)
Definition anchor_matches (df : DataFrame) (a : nat * string) : bool :=
  negb (String.eqb a.2 "")
  && match rows df !! (a.1 - 1)%nat with
     | Some r =>
         String.eqb (core_steps.normalize_spaces (scanner.cell_text r "Action"))
                    (core_steps.normalize_spaces a.2)
     | None => false
     end.

(** How many of the four configured anchors match. *)
Definition anchors_matching (cfg : config.Config) (df : DataFrame) : nat :=
  length (List.filter (anchor_matches df) (scanner.anchor_step_map cfg)).

End vocabulary_cells.

(** ** Further vocabulary *)

(** A word of [split]: a non-empty text without whitespace. *)
Definition is_word (w : string) : Prop :=
  w ≠ "" ∧ all_chars (λ c, negb (pystr.is_space c)) w = true.

(** The [{"action": ..., "expected": ...}] dictionary of a step. *)
Definition step_dict (s : scanner.step) : list (string * string) :=
  [ ("action", scanner.action s); ("expected", scanner.expected s) ].

(** The step [s] follows the template entry [c] in both fields. *)
Definition follows (s : scanner.step) (c : core_steps.CoreStep) : bool :=
  core_steps.steps_match (scanner.action s) (core_steps.action c)
  && core_steps.steps_match (scanner.expected s) (core_steps.expected c).

(** Grouping by [setdefault(k, []).append(v)], whatever the keys: the entry
    of [k] receives [v] at its end, a new key goes last. *)
Section grouping.
Context {K V : Type} (eqb : K → K → bool).

Fixpoint group_add (d : list (K * list V)) (k : K) (v : V) : list (K * list V) :=
  match d with
  | [] => [(k, [v])]
  | (k', vs) :: t =>
      if eqb k' k then (k', vs ++ [v]) :: t else (k', vs) :: group_add t k v
  end.

(** The values under [k], none when the key is absent. *)
Fixpoint group_lookup (d : list (K * list V)) (k : K) : list V :=
  match d with
  | [] => []
  | (k', vs) :: t => if eqb k' k then vs else group_lookup t k
  end.

End grouping.

(** The step numbers of the valid rows of a group, in row order. *)
Definition step_numbers `{FloatText} (group : list (Z * row)) : list Z :=
  map snd (valid_steps group).

(** How many issues of a list have the severity [s]. *)
Definition count_severity (s : string) (errors : list err) : nat :=
  length (List.filter (λ e, String.eqb (main.extract_severity e) s) errors).

(** The issue [e] is one of the three records the validators build, on the
    Excel row [n]: a [make_issue] record with severity FAIL or WARNING, an
    error record of the step-numbering rule, or a core-steps record. *)
Definition issue_on_row (e : dict) (n : Z) : Prop :=
  (∃ m rule sev fld,
     e = common.make_issue (VInt n) m rule (Some sev) fld
     ∧ (sev = "FAIL" ∨ sev = "WARNING"))
  ∨ (∃ m, e = step_numbering.error_item n m)
  ∨ (∃ m, e = scanner.core_issue n m).

(** ** Tables and inputs for the examples *)

Definition nan : value := VFloat S754_nan.

(** A row of a table with the columns Test Case ID, Step #, Action and
    Expected Results. *)
Definition mk_row (tc step action expected : value) : row :=
  list_to_map [ ("Test Case ID", tc); ("Step #", step); ("Action", action);
                ("Expected Results", expected) ].

Definition four_columns : list string :=
  [ "Test Case ID"; "Step #"; "Action"; "Expected Results" ].

(** The row that follows the template at the 0-based position [i]. *)
Definition template_row (i : nat) : row :=
  match core_steps.CORE_STEPS !! i with
  | Some c =>
      mk_row (VStr "TC1") (VInt (Z.of_nat i + 1))
        (VStr (core_steps.action c)) (VStr (core_steps.expected c))
  | None => mk_row nan nan nan nan
  end.

(** Eight rows: an empty first row, then the template's steps 2 to 8. *)
Definition blank_first_table : DataFrame :=
  {| columns := four_columns;
     rows := mk_row nan nan nan nan :: map template_row (seq 1 7) |}.

(** The same with another action at step 4, which leaves one anchor. *)
Definition one_anchor_table : DataFrame :=
  {| columns := four_columns;
     rows := <[3%nat := mk_row (VStr "TC1") (VInt 4) (VStr "Click Cancel button")
                          (VStr "CAPRI News feed displays.")]>
               (rows blank_first_table) |}.

(** Five rows: an empty first row, then the template's steps 2 to 5. *)
Definition short_table : DataFrame :=
  {| columns := four_columns;
     rows := mk_row nan nan nan nan :: map template_row (seq 1 4) |}.

(** The four columns and no row. *)
Definition header_table : DataFrame :=
  {| columns := four_columns; rows := [] |}.

(** One test case whose steps read 3, 2, 1. *)
Definition descending_table : DataFrame :=
  {| columns := four_columns;
     rows := map (λ s, mk_row (VStr "TC1") (VInt s) (VStr "Click OK button")
                         (VStr "The window closes."))
                 [3; 2; 1]%Z |}.


(** A table without the two required columns. *)
Definition no_schema_table : DataFrame :=
  {| columns := [ "Test Case ID"; "Step #" ];
     rows := [ list_to_map [ ("Test Case ID", VStr "TC1"); ("Step #", VInt 1) ] ] |}.

(** Test Case ID "TC1" with the steps 1, 2, 2, 4. *)
Definition tc1_table : DataFrame :=
  {| columns := four_columns;
     rows := map (λ s, mk_row (VStr "TC1") (VInt s) (VStr "Click OK button")
                         (VStr "The window closes."))
                 [1; 2; 2; 4]%Z |}.

Definition ok_row : row :=
  mk_row (VStr "TC1") (VInt 1) (VStr "Click OK button") (VStr "OK ").

(** A store with a WARNING, a FAIL and an INFO issue. *)
Definition three_issues : heap :=
  list_to_map
    [ (0%nat, common.make_issue (VInt 2) "Blank row" "BLANK_ROW" (Some "WARNING") None);
      (1%nat, common.make_issue (VInt 3) "Action is empty" "REQUIRED_FIELDS"
                (Some "FAIL") (Some "Action"));
      (2%nat, [ ("row", VInt 4); ("message", VStr "Note"); ("severity", VStr "INFO") ]) ].

(** The float 3.0. *)
Definition three : spec_float := S754_finite false 6755399441055744 (-51).

(** Eight rows that follow the template step by step. *)
Definition template_table : DataFrame :=
  {| columns := four_columns; rows := map template_row (seq 0 8) |}.

(** Test Case ID "TC2" on the first row, "TC1" on the second, both with an
    empty Step # cell. *)
Definition two_groups_table : DataFrame :=
  {| columns := four_columns;
     rows := [ mk_row (VStr "TC2") nan (VStr "Open the page") (VStr "The page opens.");
               mk_row (VStr "TC1") nan (VStr "Close the page") (VStr "The page closes.") ] |}.

(** The three issues a scan of [tc1_table] finds, as objects of a store. *)
Definition tc1_issues : heap :=
  list_to_map
    [ (0%nat, step_numbering.error_item 3 "Duplicate Step # 2 in Test Case ID TC1");
      (1%nat, step_numbering.error_item 4 "Duplicate Step # 2 in Test Case ID TC1");
      (2%nat, step_numbering.error_item 2 "Missing Step # in Test Case ID TC1: 3") ].

(** * Properties *)

(** ** Strings *)

Section string_facts.

Lemma rstrip_cons_nonspace c s :
  pystr.is_space c = false → ∃ t, pystr.rstrip (String c s) = String c t.
Proof.
  intros Hc. simpl. destruct (pystr.rstrip s); rewrite ?Hc; eauto.
Qed.



Lemma eqb_empty_false s : s ≠ "" → String.eqb s "" = false.
Proof. intros Hs. by apply String.eqb_neq. Qed.

End string_facts.

(** ** Dictionaries *)

Section dict_facts.

Lemma dict_get_set_eq (d : dict) k v : dict_get (dict_set d k v) k = Some v.
Proof.
  induction d as [|[k' w] d IH]; simpl.
  - by rewrite String.eqb_refl.
  - destruct (String.eqb k' k) eqn:E; simpl; rewrite E; [done | apply IH].
Qed.

Lemma dict_get_set_ne (d : dict) k k' v :
  k ≠ k' → dict_get (dict_set d k v) k' = dict_get d k'.
Proof.
  intros Hne. induction d as [|[k0 w] d IH]; simpl.
  - destruct (String.eqb k k') eqn:E; [by apply String.eqb_eq in E | done].
  - destruct (String.eqb k0 k) eqn:E; simpl.
    + apply String.eqb_eq in E. subst k0.
      destruct (String.eqb k k') eqn:E'; [by apply String.eqb_eq in E' | done].
    + destruct (String.eqb k0 k'); [done | apply IH].
Qed.

End dict_facts.

(** ** Rows and their numbers *)

Section row_facts.

Lemma filter_none {A} (p : A → bool) (l : list A) :
  (∀ x, x ∈ l → p x = false) → List.filter p l = [].
Proof.
  induction l as [|x l IH]; intros Hp; simpl; [done |].
  rewrite (Hp x) by left. apply IH. intros y Hy. apply Hp. by right.
Qed.

Lemma filter_all {A} (p : A → bool) (l : list A) :
  (∀ x, x ∈ l → p x = true) → List.filter p l = l.
Proof.
  induction l as [|x l IH]; intros Hp; simpl; [done |].
  rewrite (Hp x) by left. f_equal. apply IH. intros y Hy. apply Hp. by right.
Qed.

Lemma elem_of_number_rows (start idx : Z) (r : row) (l : list row) :
  (idx, r) ∈ number_rows start l ↔
  ∃ i : nat, idx = (start + Z.of_nat i)%Z ∧ l !! i = Some r.
Proof.
  revert start. induction l as [|x l IH]; intros start; simpl.
  - split; [by intros ?%elem_of_nil | by intros (i & _ & ?)].
  - rewrite elem_of_cons, IH. split.
    + intros [[= -> ->] | (i & -> & Hi)].
      * exists 0%nat. split; [lia | done].
      * exists (S i). split; [lia | done].
    + intros ([|i] & -> & Hi); simpl in Hi.
      * left. injection Hi as ->. f_equal. lia.
      * right. exists i. split; [lia | done].
Qed.

(** Selecting the issues of one row number from the output of a loop over
    the rows whose body tags every issue with the number of its row. *)
Lemma filter_row_number_rows (f : Z → row → list dict) (start : Z) (l : list row) (i : nat) :
  (∀ idx r e, e ∈ f idx r → dict_get e "row" = Some (VInt (idx + 2))) →
  List.filter (λ e, bool_decide (dict_get e "row" = Some (VInt (start + Z.of_nat i + 2))))
    (flat_map (λ '(idx, r), f idx r) (number_rows start l))
  = match l !! i with Some r => f (start + Z.of_nat i)%Z r | None => [] end.
Proof.
  intros Hf. revert start i. induction l as [|x l IH]; intros start i; simpl.
  - done.
  - rewrite List.filter_app. destruct i as [|i].
    + replace (start + Z.of_nat 0)%Z with start by lia.
      rewrite (filter_all _ (f start x)), (filter_none _ (flat_map _ _)).
      * by rewrite app_nil_r.
      * intros e He%list_elem_of_In.
        apply in_flat_map in He as ([idx r] & Hin & He).
        apply list_elem_of_In, elem_of_number_rows in Hin as (j & -> & _).
        apply list_elem_of_In, Hf in He. rewrite He.
        apply bool_decide_eq_false. intros [= ?]. lia.
      * intros e He%Hf. by apply bool_decide_eq_true.
    + replace (start + Z.of_nat (S i))%Z with (start + 1 + Z.of_nat i)%Z by lia.
      rewrite (filter_none _ (f start x)).
      * apply (IH (start + 1)%Z i).
      * intros e He%Hf. rewrite He.
        apply bool_decide_eq_false. intros [= ?]. lia.
Qed.

End row_facts.

(** ** The row validators *)

Section row_validators.
Context `{FloatText}.

Lemma make_issue_row r m rule sev fld :
  dict_get (common.make_issue r m rule sev fld) "row" = Some r.
Proof. unfold common.make_issue. destruct fld as [f|]; [destruct (String.eqb f "")|]; done. Qed.

Lemma make_issue_message r m rule sev fld :
  dict_get (common.make_issue r m rule sev fld) "message" = Some (VStr m).
Proof. unfold common.make_issue. destruct fld as [f|]; [destruct (String.eqb f "")|]; done. Qed.


Lemma make_issue_severity r m rule sev fld :
  dict_get (common.make_issue r m rule sev fld) "severity" = Some (VStr (default "FAIL" sev)).
Proof. unfold common.make_issue. destruct fld as [f|]; [destruct (String.eqb f "")|]; done. Qed.

(** Selecting one row number from a loop over [df.iterrows()]. *)
Lemma filter_iterrows (f : Z → row → list dict) (df : DataFrame) (i : nat) :
  (∀ idx r e, e ∈ f idx r → dict_get e "row" = Some (VInt (idx + 2))) →
  List.filter (λ e, bool_decide (dict_get e "row" = Some (VInt (Z.of_nat i + 2))))
    (flat_map (λ '(idx, r), f idx r) (iterrows df))
  = match rows df !! i with Some r => f (Z.of_nat i) r | None => [] end.
Proof.
  intros Hf. unfold iterrows.
  pose proof (filter_row_number_rows f 0 (rows df) i Hf) as Hsel.
  by rewrite !Z.add_0_l in Hsel.
Qed.

(** Every issue of a row body carries the Excel number of its row. *)
Ltac row_tag :=
  intros; repeat match goal with
  | H : _ ∈ (if ?b then _ else _) |- _ => destruct b
  | H : _ ∈ _ ++ _ |- _ => apply elem_of_app in H as [H | H]
  | H : _ ∈ [] |- _ => by apply elem_of_nil in H
  | H : _ ∈ [_] |- _ => apply list_elem_of_singleton in H; subst
  end; try apply make_issue_row.

Lemma required_fields_row idx r e :
  e ∈ required_fields.check_row idx r →
  dict_get e "row" = Some (VInt (idx + 2)).
Proof. unfold required_fields.check_row. row_tag. Qed.

Lemma blank_rows_row idx r e :
  e ∈ blank_rows.check_row idx r → dict_get e "row" = Some (VInt (idx + 2)).
Proof. unfold blank_rows.check_row. row_tag. Qed.

Lemma data_required_row idx r e :
  e ∈ data_required.check_row idx r → dict_get e "row" = Some (VInt (idx + 2)).
Proof. unfold data_required.check_row. row_tag. Qed.

Lemma punctuation_row idx r e :
  e ∈ expected_results_punctuation.check_row idx r →
  dict_get e "row" = Some (VInt (idx + 2)).
Proof. unfold expected_results_punctuation.check_row. row_tag. Qed.

Lemma generic_row idx r e :
  e ∈ generic_expected_results.check_row idx r →
  dict_get e "row" = Some (VInt (idx + 2)).
Proof. unfold generic_expected_results.check_row. row_tag. Qed.

Lemma issues_at_app i l1 l2 : issues_at i (l1 ++ l2) = issues_at i l1 ++ issues_at i l2.
Proof. apply List.filter_app. Qed.

Lemma issues_at_nil_elem i l e :
  issues_at i l = [] → e ∈ l → dict_get e "row" ≠ Some (VInt (Z.of_nat i + 2)).
Proof.
  intros Hnil He Hrow.
  assert (e ∈ issues_at i l) as Hin.
  { apply list_elem_of_In, filter_In. split; [by apply list_elem_of_In |].
    by apply bool_decide_eq_true. }
  rewrite Hnil in Hin. by apply elem_of_nil in Hin.
Qed.

Lemma required_fields_at df i r :
  rows df !! i = Some r → common.is_blank_row r = true →
  issues_at i (required_fields.check_required_fields df) = [].
Proof.
  intros Hr Hb. unfold required_fields.check_required_fields.
  destruct (negb _); [done |]. unfold issues_at.
  rewrite (filter_iterrows required_fields.check_row) by apply required_fields_row.
  rewrite Hr. unfold required_fields.check_row. by rewrite Hb.
Qed.

Lemma data_required_at df i r :
  rows df !! i = Some r → common.is_blank_row r = true →
  issues_at i (data_required.check_data_required_for_actions df) = [].
Proof.
  intros Hr Hb. unfold data_required.check_data_required_for_actions.
  destruct (negb _); [done |]. unfold issues_at.
  rewrite (filter_iterrows data_required.check_row) by apply data_required_row.
  rewrite Hr. unfold data_required.check_row. by rewrite Hb.
Qed.

Lemma punctuation_at df i r :
  rows df !! i = Some r → common.is_blank_row r = true →
  issues_at i (expected_results_punctuation.check_expected_results_punctuation df) = [].
Proof.
  intros Hr Hb. unfold expected_results_punctuation.check_expected_results_punctuation.
  destruct (negb _); [done |]. unfold issues_at.
  rewrite (filter_iterrows expected_results_punctuation.check_row) by apply punctuation_row.
  rewrite Hr. unfold expected_results_punctuation.check_row. by rewrite Hb.
Qed.

Lemma generic_at df i r :
  rows df !! i = Some r → common.is_blank_row r = true →
  issues_at i (generic_expected_results.check_generic_expected_results df) = [].
Proof.
  intros Hr Hb. unfold generic_expected_results.check_generic_expected_results.
  destruct (negb _); [done |]. unfold issues_at.
  rewrite (filter_iterrows generic_expected_results.check_row) by apply generic_row.
  rewrite Hr. unfold generic_expected_results.check_row. by rewrite Hb.
Qed.

Lemma blank_rows_at df i r :
  rows df !! i = Some r →
  issues_at i (blank_rows.check_blank_rows df) = blank_rows.check_row (Z.of_nat i) r.
Proof.
  intros Hr. unfold blank_rows.check_blank_rows, issues_at.
  rewrite (filter_iterrows blank_rows.check_row) by apply blank_rows_row.
  by rewrite Hr.
Qed.

(** C7. Blank-row invariance: when the row at position [i] (Excel row
    [i + 2]) is blank, no issue of the required-fields, data-required,
    punctuation or generic-text validator carries its row number, and among
    the issues of the five row validators of sections 4.3 to 4.7 the only one
    on that row is the BLANK_ROW warning. *)
Theorem blank_row_invariance (df : DataFrame) (i : nat) (r : row) :
  rows df !! i = Some r →
  common.is_blank_row r = true →
  (∀ e,
     e ∈ required_fields.check_required_fields df
         ++ data_required.check_data_required_for_actions df
         ++ expected_results_punctuation.check_expected_results_punctuation df
         ++ generic_expected_results.check_generic_expected_results df →
     dict_get e "row" ≠ Some (VInt (Z.of_nat i + 2)))
  ∧ issues_at i
      (required_fields.check_required_fields df
       ++ blank_rows.check_blank_rows df
       ++ data_required.check_data_required_for_actions df
       ++ expected_results_punctuation.check_expected_results_punctuation df
       ++ generic_expected_results.check_generic_expected_results df)
    = [ common.make_issue (VInt (Z.of_nat i + 2)) "Blank row" "BLANK_ROW"
          (Some "WARNING") None ].
Proof.
  intros Hr Hb. split.
  - intros e He. eapply issues_at_nil_elem; [| exact He].
    rewrite !issues_at_app.
    by rewrite (required_fields_at df i r), (data_required_at df i r),
      (punctuation_at df i r), (generic_at df i r).
  - rewrite !issues_at_app.
    rewrite (required_fields_at df i r), (data_required_at df i r),
      (punctuation_at df i r), (generic_at df i r), (blank_rows_at df i r) by done.
    unfold blank_rows.check_row. by rewrite Hb.
Qed.

End row_validators.

(** ** The generic-text rule *)

Section generic_text.
Context `{FloatText}.

Lemma generic_short_messages_differ v :
  generic_expected_results.generic_message v ≠ generic_expected_results.short_message v.
Proof.
  unfold generic_expected_results.generic_message, generic_expected_results.short_message.
  simpl. intros [=].
Qed.

Lemma not_blank_of_expected (r : row) :
  common.is_empty_like (row_get r "Expected Results" (VStr "")) = false →
  common.is_blank_row r = false.
Proof.
  intros He. unfold common.is_blank_row. cbn [forallb]. rewrite He.
  by rewrite !andb_false_r.
Qed.

(** C8. A row whose Expected Results cell is "OK " is not blank and gets
    exactly one GENERIC_EXPECTED_RESULTS warning, the generic-phrase one,
    quoting "OK"; in a table it is the only issue of the rule on that row.
    For every row the rule emits at most one issue, and it is the
    generic-phrase message whenever the normalised text is a generic phrase,
    the too-short message only otherwise (and then the text has at most
    three characters); the two messages are never the same text. *)
Theorem generic_phrase_precedence (df : DataFrame) (i : nat) (r : row) :
  let expected := row_get r "Expected Results" (VStr "") in
  let norm := generic_expected_results._normalize expected in
  let ok_issue :=
    common.make_issue (VInt (Z.of_nat i + 2))
      ("Expected Results is too generic (" +:+ pystr.dquote +:+ "OK"
       +:+ pystr.dquote +:+ ")")
      "GENERIC_EXPECTED_RESULTS" (Some "WARNING") (Some "Expected Results") in
  (expected = VStr "OK " →
     common.is_blank_row r = false
     ∧ generic_expected_results.check_row (Z.of_nat i) r = [ ok_issue ]
     ∧ (has_column df "Expected Results" = true → rows df !! i = Some r →
        issues_at i (generic_expected_results.check_generic_expected_results df)
        = [ ok_issue ]))
  ∧ (length (generic_expected_results.check_row (Z.of_nat i) r) ≤ 1)%nat
  ∧ (∀ e, e ∈ generic_expected_results.check_row (Z.of_nat i) r →
       if bool_decide (norm ∈ generic_expected_results.GENERIC_PHRASES)
       then dict_get e "message"
            = Some (VStr (generic_expected_results.generic_message expected))
       else dict_get e "message"
            = Some (VStr (generic_expected_results.short_message expected))
            ∧ (String.length norm ≤ 3)%nat)
  ∧ generic_expected_results.generic_message expected
    ≠ generic_expected_results.short_message expected.
Proof.
  intros expected norm ok_issue. split; [| split; [| split]].
  - intros Hok.
    assert (common.is_blank_row r = false) as Hnb.
    { apply not_blank_of_expected. fold expected. rewrite Hok. by vm_compute. }
    assert (generic_expected_results.check_row (Z.of_nat i) r = [ok_issue]) as Hrow.
    { unfold generic_expected_results.check_row. rewrite Hnb. fold expected.
      rewrite Hok. reflexivity. }
    split; [done | split; [done |]].
    intros Hcol Hr. unfold generic_expected_results.check_generic_expected_results.
    rewrite Hcol. cbn [negb]. unfold issues_at.
    rewrite (filter_iterrows generic_expected_results.check_row) by apply generic_row.
    by rewrite Hr.
  - unfold generic_expected_results.check_row.
    repeat (case_match; simpl; try lia).
  - intros e. unfold generic_expected_results.check_row. fold expected. fold norm.
    destruct (common.is_blank_row r); [by intros ?%elem_of_nil |].
    destruct (common.is_empty_like expected); [by intros ?%elem_of_nil |].
    destruct (bool_decide (norm ∈ generic_expected_results.GENERIC_PHRASES)).
    + intros ->%list_elem_of_singleton. apply make_issue_message.
    + destruct (String.length norm <=? 3)%nat eqn:Hlen;
        [| by intros ?%elem_of_nil].
      intros ->%list_elem_of_singleton. split; [apply make_issue_message |].
      by apply Nat.leb_le.
  - apply generic_short_messages_differ.
Qed.

End generic_text.

(** ** The schema check *)

Section missing_names.

(** The missing names are the required ones the table lacks, "Action" before
    "Expected Results". *)
Lemma missing_spec (df : DataFrame) :
  missing_columns.missing df
  = List.filter (λ c, bool_decide (c ∉ columns df)) ["Action"; "Expected Results"].
Proof.
  unfold missing_columns.missing, missing_columns.required. cbn [List.filter].
  destruct (decide ("Action" ∈ columns df)) as [Ha | Ha],
           (decide ("Expected Results" ∈ columns df)) as [He | He].
  - rewrite !bool_decide_eq_false_2 by naive_solver.
    assert (({["Action"; "Expected Results"]} : gset string)
              ∖ list_to_set (columns df) = ∅) as -> by set_solver.
    by vm_compute.
  - rewrite (bool_decide_eq_false_2 ("Action" ∉ _)) by naive_solver.
    rewrite (bool_decide_eq_true_2 ("Expected Results" ∉ _)) by done.
    assert (({["Action"; "Expected Results"]} : gset string)
              ∖ list_to_set (columns df) = {["Expected Results"]}) as -> by set_solver.
    by vm_compute.
  - rewrite (bool_decide_eq_true_2 ("Action" ∉ _)) by done.
    rewrite (bool_decide_eq_false_2 ("Expected Results" ∉ _)) by naive_solver.
    assert (({["Action"; "Expected Results"]} : gset string)
              ∖ list_to_set (columns df) = {["Action"]}) as -> by set_solver.
    by vm_compute.
  - rewrite !bool_decide_eq_true_2 by done.
    assert (({["Action"; "Expected Results"]} : gset string)
              ∖ list_to_set (columns df) = {["Action"; "Expected Results"]}) as ->
      by set_solver.
    by vm_compute.
Qed.

Lemma missing_columns_complete (df : DataFrame) :
  has_column df "Action" = true → has_column df "Expected Results" = true →
  missing_columns.check_missing_columns df = [].
Proof.
  unfold has_column. intros Ha%bool_decide_eq_true He%bool_decide_eq_true.
  unfold missing_columns.check_missing_columns. rewrite missing_spec.
  cbn [List.filter]. by rewrite !bool_decide_eq_false_2 by naive_solver.
Qed.

End missing_names.

Section schema.
Context `{FloatText}.

(** C2. When the table lacks "Action" or "Expected Results", the scan
    returns exactly one issue: rule MISSING_COLUMNS, severity FAIL, no row,
    and a message that lists the missing required columns comma-joined in
    alphabetical order; no other validator adds anything, whatever the rows
    hold. *)
Theorem schema_short_circuit (cfg : config.Config) (df : DataFrame) :
  "Action" ∉ columns df ∨ "Expected Results" ∉ columns df →
  ∃ names : list string,
    scanner.scan cfg df
    = Ok {| scanner.scan_rows := length (rows df);
            scanner.scan_columns := columns df;
            scanner.scan_errors :=
              [ [ ("row", VNone);
                  ("message",
                   VStr ("Missing required columns: " +:+ pystr.join ", " names));
                  ("rule", VStr "MISSING_COLUMNS");
                  ("severity", VStr "FAIL") ] ] |}
    ∧ names = (if bool_decide ("Action" ∈ columns df) then [] else ["Action"])
              ++ (if bool_decide ("Expected Results" ∈ columns df) then []
                  else ["Expected Results"])
    ∧ Sorted String.le names
    ∧ (∀ c, c ∈ names ↔ (c = "Action" ∨ c = "Expected Results") ∧ c ∉ columns df).
Proof.
  intros Hmiss. exists (missing_columns.missing df).
  assert (missing_columns.missing df
          = (if bool_decide ("Action" ∈ columns df) then [] else ["Action"])
            ++ (if bool_decide ("Expected Results" ∈ columns df) then []
                else ["Expected Results"])) as Hnames.
  { rewrite missing_spec. cbn [List.filter].
    repeat case_bool_decide; simpl; first [done | contradiction]. }
  split; [| split; [done | split]].
  - unfold scanner.scan, missing_columns.check_missing_columns. cbn [app].
    destruct (missing_columns.missing df) as [|c names] eqn:Hm; [| done].
    exfalso. rewrite Hnames in Hm.
    repeat case_bool_decide; first [done | naive_solver].
  - unfold missing_columns.missing. apply Sorted_merge_sort. apply _.
  - intros c. rewrite Hnames, elem_of_app.
    repeat case_bool_decide;
      rewrite ?elem_of_nil, ?list_elem_of_singleton; naive_solver.
Qed.

End schema.

(** ** Step numbers *)

Section int_text.

Lemma append_cons (c : ascii) (a b : string) :
  String c a +:+ b = String c (a +:+ b).
Proof. done. Qed.

Lemma has_char_app (p : ascii → bool) (a b : string) :
  has_char p (a +:+ b) = has_char p a || has_char p b.
Proof.
  induction a as [| c a IH]; [done |].
  rewrite append_cons. cbn [has_char]. by rewrite IH, orb_assoc.
Qed.

Lemma digit_or_dot_not_space c : digit_or_dot c = true → pystr.is_space c = false.
Proof. destruct c as [[] [] [] [] [] [] [] []]; by vm_compute. Qed.

Lemma digit_or_dot_lower c : digit_or_dot c = true → pystr.lower_char c = c.
Proof. destruct c as [[] [] [] [] [] [] [] []]; by vm_compute. Qed.

Lemma has_char_lstrip s :
  has_char digit_or_dot s = true → has_char digit_or_dot (pystr.lstrip s) = true.
Proof.
  induction s as [| c s IH]; [done |]. cbn [pystr.lstrip has_char].
  destruct (pystr.is_space c) eqn:Hc; [| done].
  destruct (digit_or_dot c) eqn:Hd; [| done].
  by rewrite (digit_or_dot_not_space c Hd) in Hc.
Qed.

Lemma has_char_rstrip s :
  has_char digit_or_dot s = true → has_char digit_or_dot (pystr.rstrip s) = true.
Proof.
  induction s as [| c s IH]; [done |]. cbn [pystr.rstrip has_char].
  intros Hs. destruct (digit_or_dot c) eqn:Hd.
  - destruct (pystr.rstrip s); [| by cbn [has_char]; rewrite Hd].
    rewrite (digit_or_dot_not_space c Hd). by cbn [has_char]; rewrite Hd.
  - simpl in Hs. specialize (IH Hs).
    destruct (pystr.rstrip s) as [| c' t]; [done |].
    cbn [has_char] in *. by rewrite IH, orb_true_r.
Qed.

Lemma has_char_lower s :
  has_char digit_or_dot s = true → has_char digit_or_dot (pystr.lower s) = true.
Proof.
  induction s as [| c s IH]; [done |]. cbn [pystr.lower has_char].
  destruct (digit_or_dot c) eqn:Hd.
  - by rewrite (digit_or_dot_lower c Hd), Hd.
  - simpl. intros Hs. by rewrite (IH Hs), orb_true_r.
Qed.

Lemma pretty_N_char_digit x : float64.is_digit (pretty_N_char x) = true.
Proof. unfold pretty_N_char. by repeat case_match. Qed.

Lemma pretty_N_go_digits x s :
  all_chars float64.is_digit s = true →
  all_chars float64.is_digit (pretty_N_go x s) = true.
Proof.
  revert s. induction (N.lt_wf_0 x) as [x _ IH]; intros s Hs.
  assert (x = 0 ∨ 0 < x)%N as [-> | Hx] by lia.
  - by rewrite pretty_N_go_0.
  - rewrite pretty_N_go_step by done. apply IH; [by apply N.div_lt |].
    simpl. by rewrite pretty_N_char_digit.
Qed.

Lemma pretty_N_go_nonempty x s : s ≠ "" → pretty_N_go x s ≠ "".
Proof.
  revert s. induction (N.lt_wf_0 x) as [x _ IH]; intros s Hs.
  assert (x = 0 ∨ 0 < x)%N as [-> | Hx] by lia.
  - by rewrite pretty_N_go_0.
  - rewrite pretty_N_go_step by done. apply IH; [by apply N.div_lt | done].
Qed.

Lemma pretty_pos_digits (p : positive) :
  all_chars float64.is_digit (pretty p) = true ∧ pretty p ≠ "".
Proof.
  unfold pretty, pretty_positive, pretty, pretty_N.
  destruct (decide (N.pos p = 0%N)) as [? | _]; [done |]. split.
  - by apply pretty_N_go_digits.
  - rewrite pretty_N_go_step by lia. by apply pretty_N_go_nonempty.
Qed.

Lemma pretty_nonneg_has_char (z : Z) :
  (0 ≤ z)%Z → has_char digit_or_dot (pretty z) = true.
Proof.
  destruct z as [| p | p]; [done | | lia]. intros _.
  change (pretty (Z.pos p)) with (pretty p).
  destruct (pretty_pos_digits p) as [Hd Hne].
  destruct (pretty p) as [| c t]; [done |]. simpl in Hd.
  apply andb_prop in Hd as [Hc _]. cbn [has_char]. unfold digit_or_dot.
  by rewrite Hc.
Qed.

Lemma pretty_has_char (z : Z) : has_char digit_or_dot (pretty z) = true.
Proof.
  destruct z as [| p | p]; [done | by apply pretty_nonneg_has_char |].
  change (pretty (Z.neg p)) with ("-" +:+ pretty (Z.pos p)).
  by rewrite has_char_app, pretty_nonneg_has_char, orb_true_r.
Qed.

(** The text [repr] lays out from a digit string has a digit or a point. *)
Lemma layout_has_char (ds : string) (decpt : Z) :
  has_char digit_or_dot (float64.layout ds decpt) = true.
Proof.
  unfold float64.layout. repeat case_match; rewrite !has_char_app;
    try (by rewrite ?orb_true_r; cbn; rewrite ?orb_true_r).
  all: rewrite pretty_nonneg_has_char by lia; by rewrite ?orb_true_r.
Qed.

Lemma lower_cons_inv (t : string) (x : ascii) (w : string) :
  pystr.lower t = String x w →
  ∃ c t', t = String c t' ∧ pystr.lower_char c = x ∧ pystr.lower t' = w.
Proof. destruct t as [| c t']; [done |]. intros [= Hc Ht]. by exists c, t'. Qed.

Lemma lower_nil_inv (t : string) : pystr.lower t = "" → t = "".
Proof. by destruct t. Qed.

Lemma lower_char_inv (c x : ascii) :
  pystr.lower_char c = x → c = x ∨ c = ascii_of_nat (nat_of_ascii x - 32).
Proof.
  intros <-. destruct c as [[] [] [] [] [] [] [] []]; vm_compute; auto.
Qed.

End int_text.

Section to_int_step.
Context `{FloatText}.

(** Text with a digit or a point is never empty-like. *)
Lemma text_with_digit_not_empty_like (s : string) :
  has_char digit_or_dot s = true → common.is_empty_like (VStr s) = false.
Proof.
  intros Hs. unfold common.is_empty_like. cbn [common.isna common.str].
  assert (has_char digit_or_dot (pystr.strip s) = true) as Hstrip
    by by apply has_char_rstrip, has_char_lstrip.
  apply has_char_lower in Hstrip as Hlow.
  destruct (String.eqb_spec (pystr.strip s) "") as [Ht | _];
    [by rewrite Ht in Hstrip |].
  apply bool_decide_eq_false. unfold common.EMPTY_LIKE_VALUES.
  set_unfold. intros Hin.
  repeat (destruct Hin as [Hin | Hin]); rewrite Hin in Hlow; by vm_compute in Hlow.
Qed.

(** The text of an integer is never one of the placeholder tokens. *)
Lemma int_not_empty_like (z : Z) : common.is_empty_like (VInt z) = false.
Proof.
  change (common.is_empty_like (VStr (pretty z)) = false).
  apply text_with_digit_not_empty_like, pretty_has_char.
Qed.

(** [f.is_integer()] and [int(f)] say what they should of the dyadic value
    [m * 2^e]: it is whole exactly when a negative exponent divides the
    mantissa, and the integer returned is the value itself. *)
Lemma whole_float_value (s : bool) (m : positive) (e : Z) :
  pyfloat.is_integer (S754_finite s m e) = true →
  (pyfloat.to_int (S754_finite s m e) * 2 ^ Z.max 0 (- e)
   = (if s then Z.neg m else Z.pos m) * 2 ^ Z.max 0 e)%Z.
Proof.
  unfold pyfloat.is_integer, pyfloat.to_int.
  destruct (0 <=? e)%Z eqn:He.
  - apply Z.leb_le in He. intros _.
    rewrite (Z.max_l 0 (- e)), (Z.max_r 0 e) by lia.
    destruct s; simpl; lia.
  - apply Z.leb_gt in He. intros Hdiv%Z.eqb_eq.
    rewrite (Z.max_r 0 (- e)), (Z.max_l 0 e) by lia.
    assert (0 < 2 ^ (- e))%Z as Hpos by (apply Z.pow_pos_nonneg; lia).
    pose proof (Z.div_mod (Z.pos m) (2 ^ (- e)) ltac:(lia)) as Hdm.
    rewrite Hdiv in Hdm.
    destruct s; simpl; lia.
Qed.

(** C9. [to_int_step] gives no value for every empty-like input; otherwise
    an integer is returned as it is, a float gives its integer value when it
    is whole (3.0 gives 3) and no value when it is not, and any other cell is
    read through the text of [str]: text parsing to a whole float gives that
    integer, and text parsing to a float that is not whole, or not parsing at
    all, gives no value.  The function is total: no input raises.  The two
    premises are facts of the builtins [str] and [float]: the text of a float
    other than NaN is not a placeholder token, and [float] parses no
    placeholder token; both are shown of Python's builtins below
    ([float_not_empty_like], [parsed_not_empty_like]). *)
Theorem to_int_step_spec :
  (∀ f, pyfloat.is_nan f = false → common.is_empty_like (VFloat f) = false) →
  (∀ s f, float_of_str (pystr.strip s) = Some f →
          common.is_empty_like (VStr s) = false) →
  ∀ v : value,
    (common.is_empty_like v = true → common.to_int_step v = None)
    ∧ common.to_int_step v
      = match v with
        | VNone => None
        | VInt z => Some z
        | VFloat f =>
            if pyfloat.is_integer f then Some (pyfloat.to_int f) else None
        | VStr s =>
            match float_of_str (pystr.strip s) with
            | Some f =>
                if pyfloat.is_integer f then Some (pyfloat.to_int f) else None
            | None => None
            end
        end.
Proof.
  intros Hfloat Htext v. split.
  { intros He. unfold common.to_int_step. by rewrite He. }
  destruct v as [| z | f | s].
  - done.
  - unfold common.to_int_step. by rewrite int_not_empty_like.
  - unfold common.to_int_step, common.int_of_whole.
    destruct (pyfloat.is_nan f) eqn:Hnan.
    + by destruct f.
    + by rewrite (Hfloat f Hnan).
  - unfold common.to_int_step, common.int_of_whole. cbn [common.str].
    destruct (float_of_str (pystr.strip s)) as [f |] eqn:Hf.
    + by rewrite (Htext s f Hf).
    + by destruct (common.is_empty_like _).
Qed.

End to_int_step.

(** ** Strict mode *)

Section strict_mode.

Lemma extract_severity_cases (e : err) :
  main.extract_severity e = "FAIL" ∨ main.extract_severity e = "WARNING"
  ∨ main.extract_severity e = "INFO".
Proof.
  destruct e as [s | d]; simpl; [by left |].
  repeat case_match; auto.
Qed.

Lemma extract_severity_set_fail (d : dict) :
  main.extract_severity (ErrDict (dict_set d "severity" (VStr "FAIL"))) = "FAIL".
Proof.
  unfold main.extract_severity, main.get. rewrite dict_get_set_eq. reflexivity.
Qed.

Lemma extract_severity_promote (v : err) :
  main.extract_severity (promote v)
  = if String.eqb (main.extract_severity v) "WARNING" then "FAIL"
    else main.extract_severity v.
Proof.
  destruct v as [s | d]; [done |]. unfold promote.
  destruct (String.eqb _ "WARNING") eqn:E; [| done].
  apply extract_severity_set_fail.
Qed.

Lemma promote_keeps_fields (d : dict) (k : string) :
  k ≠ "severity" →
  dict_get (dict_set d "severity" (VStr "FAIL")) k = dict_get d k.
Proof. intros Hk. by apply dict_get_set_ne. Qed.

Lemma deref_weaken (h h' : heap) (e : ref) (v : err) :
  h ⊆ h' → main.deref h e = Some v → main.deref h' e = Some v.
Proof.
  intros Hsub. destruct e as [s | a]; simpl; [done |].
  destruct (h !! a) as [d |] eqn:Ha; [| done].
  by rewrite (lookup_weaken _ _ _ _ Ha Hsub).
Qed.

Lemma promoted_to_weaken (h h1 h2 : heap) (e o : ref) :
  h1 ⊆ h2 → promoted_to h h1 e o → promoted_to h h2 e o.
Proof.
  intros Hsub (v & He & Ho & Hid). exists v.
  split; [done | split; [| done]]. by apply (deref_weaken h1).
Qed.

(** One iteration: the store only grows, and the element appended stands
    for the promoted value. *)
Lemma strict_step_spec (h h1 : heap) (acc : list ref) (e : ref) :
  h ⊆ h1 → is_Some (main.deref h e) →
  ∃ h2 o, main.strict_step (h1, acc) e = (h2, acc ++ [o])
          ∧ h1 ⊆ h2 ∧ promoted_to h h2 e o.
Proof.
  intros Hsub [v Hv]. destruct e as [s | a].
  - exists h1, (RStr s). split; [done | split; [done |]].
    exists v. simpl in Hv. by simplify_eq.
  - simpl in Hv. destruct (h !! a) as [d |] eqn:Ha; [| done].
    injection Hv as <-. unfold main.strict_step.
    rewrite (lookup_weaken _ _ _ _ Ha Hsub).
    destruct (String.eqb (main.extract_severity (ErrDict d)) "WARNING") eqn:E.
    + unfold main.alloc, main.store. set (a' := fresh (dom h1)).
      assert (h1 !! a' = None) as Hfresh by apply not_elem_of_dom, is_fresh.
      exists (<[a' := dict_set d "severity" (VStr "FAIL")]> h1), (RDict a').
      split; [by rewrite alter_insert_eq | split; [by apply insert_subseteq |]].
      exists (ErrDict d). unfold promote. cbn [main.deref].
      rewrite Ha, lookup_insert_eq, E.
      split; [done | split; [done |]]. exists a'. split; [done |].
      destruct (h !! a') as [d' |] eqn:Ha'; [| done].
      by rewrite (lookup_weaken _ _ _ _ Ha' Hsub) in Hfresh.
    + exists h1, (RDict a). split; [done | split; [done |]].
      exists (ErrDict d). unfold promote. cbn [main.deref].
      by rewrite Ha, E, (lookup_weaken _ _ _ _ Ha Hsub).
Qed.

Lemma apply_strict_mode_spec (h : heap) (errors : list ref) :
  Forall (λ e, is_Some (main.deref h e)) errors →
  ∃ h' out, main.apply_strict_mode h errors = (h', out)
            ∧ h ⊆ h' ∧ Forall2 (promoted_to h h') errors out.
Proof.
  induction errors as [| e errors IH] using rev_ind; intros Hvalid.
  - exists h, []. by repeat split.
  - apply Forall_app in Hvalid as [Hvalid He]. apply Forall_inv in He.
    destruct (IH Hvalid) as (h1 & out & Hrun & Hsub & Hall).
    destruct (strict_step_spec h h1 out e Hsub He) as (h2 & o & Hstep & Hsub2 & Ho).
    exists h2, (out ++ [o]). unfold main.apply_strict_mode in *.
    rewrite foldl_snoc, Hrun, Hstep. split; [done | split].
    + by trans h1.
    + apply Forall2_app; [| by repeat constructor].
      eapply Forall2_impl; [exact Hall |].
      intros e' o' ?. by apply (promoted_to_weaken h h1).
Qed.

Lemma issue_values_promoted (h h' : heap) (errors out : list ref) :
  Forall2 (promoted_to h h') errors out →
  issue_values h' out = map promote (issue_values h errors).
Proof.
  unfold issue_values. induction 1 as [| e o errors out (v & He & Ho & _) _ IH]; [done |].
  change (omap (main.deref h') (o :: out))
    with (match main.deref h' o with
          | Some y => y :: omap (main.deref h') out
          | None => omap (main.deref h') out
          end).
  change (omap (main.deref h) (e :: errors))
    with (match main.deref h e with
          | Some y => y :: omap (main.deref h) errors
          | None => omap (main.deref h) errors
          end).
  by rewrite He, Ho, IH.
Qed.

(** The tally of [summarize_issues], from any starting counts. *)
Lemma tally_promote (l : list err) (f w i f' i' : Z) :
  ∀ f2 w2 i2,
  foldl (λ '(fail, warning, info) e,
           let sev := main.extract_severity e in
           if String.eqb sev "FAIL" then (fail + 1, warning, info)%Z
           else if String.eqb sev "WARNING" then (fail, warning + 1, info)%Z
           else (fail, warning, info + 1)%Z) (f, w, i) l = (f2, w2, i2) →
  foldl (λ '(fail, warning, info) e,
           let sev := main.extract_severity e in
           if String.eqb sev "FAIL" then (fail + 1, warning, info)%Z
           else if String.eqb sev "WARNING" then (fail, warning + 1, info)%Z
           else (fail, warning, info + 1)%Z) (f', 0%Z, i') (map promote l)
  = ((f' + (f2 - f) + (w2 - w))%Z, 0%Z, (i' + (i2 - i))%Z).
Proof.
  revert f w i f' i'. induction l as [| v l IH]; intros f w i f' i' f2 w2 i2.
  - simpl. intros [= <- <- <-]. apply (f_equal2 pair); [apply (f_equal2 pair) |]; first [lia | done].
  - cbn [foldl map]. rewrite extract_severity_promote.
    destruct (extract_severity_cases v) as [-> | [-> | ->]]; cbn [String.eqb Ascii.eqb Bool.eqb];
      intros Hrun; rewrite (IH _ _ _ _ _ _ _ _ Hrun); (apply (f_equal2 pair); [apply (f_equal2 pair) |]; first [lia | done]).
Qed.

(** C3 (as amended). On a list whose elements are strings or objects of the
    store, strict mode returns a list of the same length whose elements
    stand, position by position, for the promoted values: a WARNING issue
    has become a new object that is a FAIL issue with every other key (row,
    message, rule, field) as before, and any other element is the very same
    element.  No object of the input store is changed.  The output holds no
    WARNING; its INFO count is the input's, and its FAIL count is the input's
    FAIL count plus the input's WARNING count. *)
Theorem strict_mode_promotes (h : heap) (errors : list ref) :
  Forall (λ e, is_Some (main.deref h e)) errors →
  let '(h', strict_errors) := main.apply_strict_mode h errors in
  length strict_errors = length errors
  ∧ h ⊆ h'
  ∧ Forall2 (promoted_to h h') errors strict_errors
  ∧ (∀ d k, k ≠ "severity" →
       dict_get (dict_set d "severity" (VStr "FAIL")) k = dict_get d k)
  ∧ (∀ d, main.extract_severity (ErrDict (dict_set d "severity" (VStr "FAIL"))) = "FAIL")
  ∧ Forall (λ v, main.extract_severity v ≠ "WARNING") (issue_values h' strict_errors)
  ∧ (∀ fail warning info,
       main.summarize_issues (issue_values h errors) = (fail, warning, info) →
       main.summarize_issues (issue_values h' strict_errors)
       = ((fail + warning)%Z, 0%Z, info)).
Proof.
  intros Hvalid.
  destruct (apply_strict_mode_spec h errors Hvalid) as (h' & out & -> & Hsub & Hall).
  split; [by rewrite (Forall2_length _ _ _ Hall) |].
  split; [done |]. split; [done |].
  split; [apply promote_keeps_fields |].
  split; [apply extract_severity_set_fail |].
  rewrite (issue_values_promoted h h' errors out Hall). split.
  - apply Forall_forall. intros v (u & -> & _)%list_elem_of_fmap.
    rewrite extract_severity_promote.
    destruct (extract_severity_cases u) as [-> | [-> | ->]]; by vm_compute.
  - intros fail warning info Hsum. unfold main.summarize_issues in *.
    rewrite (tally_promote _ _ _ _ _ _ _ _ _ Hsum). apply (f_equal2 pair); [apply (f_equal2 pair) |]; first [lia | done].
Qed.

End strict_mode.

(** ** Step numbering *)

Section step_numbering_facts.
Context `{FloatText}.

Lemma omap_cons_eq {A B} (f : A → option B) (x : A) (l : list A) :
  omap f (x :: l) = match f x with Some y => y :: omap f l | None => omap f l end.
Proof. done. Qed.

Lemma scan_rows_state (tc_id : value) (group : list (Z * row))
    (st : step_numbering.group_state) :
  let st' := foldl (step_numbering.scan_row tc_id) st group in
  step_numbering.errors st'
    = step_numbering.errors st ++ cell_errors tc_id group
  ∧ step_numbering.steps_in_order st'
    = step_numbering.steps_in_order st ++ valid_steps group
  ∧ step_numbering.group_rows st'
    = step_numbering.group_rows st ++ map row_num group
  ∧ step_numbering.step_to_rows st'
    = foldl (λ d p, step_numbering.setdefault_append d p.2 p.1)
        (step_numbering.step_to_rows st) (valid_steps group).
Proof.
  revert st. induction group as [| ir group IH]; intros st; cbn [foldl].
  - unfold cell_errors, valid_steps. simpl. by rewrite !app_nil_r.
  - destruct (IH (step_numbering.scan_row tc_id st ir)) as (He & Hs & Hg & Hd).
    cbv zeta. rewrite He, Hs, Hg, Hd. clear He Hs Hg Hd IH.
    unfold step_numbering.scan_row, cell_errors, valid_steps.
    fold (raw_step ir) (row_num ir). rewrite omap_cons_eq. cbn [flat_map].
    destruct (common.to_int_step (raw_step ir)) as [s |]; cbn [fmap option_fmap option_map
      step_numbering.errors step_numbering.steps_in_order
      step_numbering.group_rows step_numbering.step_to_rows foldl map];
      destruct (common.is_empty_like (raw_step ir));
      by rewrite <- ?app_assoc.
Qed.

(** *** The ordering check *)

Lemma first_decrease_None (r0 prev : Z) (l : list (Z * Z)) :
  step_numbering.first_decrease prev l = None →
  ∀ i, ¬ decrease_at ((r0, prev) :: l) i.
Proof.
  revert r0 prev. induction l as [| [r s] l IH]; intros r0 prev Hnone i.
  - intros (p & q & _ & Hq & _). by destruct i.
  - simpl in Hnone. destruct (s <? prev)%Z eqn:Hlt; [done |].
    apply Z.ltb_ge in Hlt. destruct i as [| i].
    + intros (p & q & [= <-] & [= <-] & Hd). simpl in Hd. lia.
    + intros (p & q & Hp & Hq & Hd). apply (IH r s Hnone i).
      exists p, q. by repeat split.
Qed.

Lemma first_decrease_Some (r0 prev bad : Z) (l : list (Z * Z)) :
  step_numbering.first_decrease prev l = Some bad →
  ∃ i s, ((r0, prev) :: l) !! S i = Some (bad, s)
         ∧ decrease_at ((r0, prev) :: l) i
         ∧ ∀ j, (j < i)%nat → ¬ decrease_at ((r0, prev) :: l) j.
Proof.
  revert r0 prev. induction l as [| [r s] l IH]; intros r0 prev Hsome; [done |].
  simpl in Hsome. destruct (s <? prev)%Z eqn:Hlt.
  - injection Hsome as <-. apply Z.ltb_lt in Hlt.
    exists 0%nat, s. split; [done | split].
    + exists (r0, prev), (r, s). by repeat split.
    + intros j Hj. lia.
  - apply Z.ltb_ge in Hlt.
    destruct (IH r s Hsome) as (i & s' & Hi & Hd & Hfirst).
    exists (S i), s'. split; [done | split].
    + destruct Hd as (p & q & Hp & Hq & Hd). exists p, q. by repeat split.
    + intros [| j] Hj.
      * intros (p & q & [= <-] & [= <-] & Hd'). simpl in Hd'. lia.
      * intros (p & q & Hp & Hq & Hd'). apply (Hfirst j); [lia |].
        exists p, q. by repeat split.
Qed.

Lemma order_errors_length (sio : list (Z * Z)) :
  (length (step_numbering.order_errors sio) ≤ 1)%nat.
Proof.
  destruct sio as [| [r0 s0] l]; simpl; [lia |].
  destruct (step_numbering.first_decrease s0 l); simpl; lia.
Qed.

Lemma order_errors_none (sio : list (Z * Z)) :
  (∀ i, ¬ decrease_at sio i) → step_numbering.order_errors sio = [].
Proof.
  intros Hnone. destruct sio as [| [r0 s0] l]; simpl; [done |].
  destruct (step_numbering.first_decrease s0 l) as [bad |] eqn:Hfd; [| done].
  destruct (first_decrease_Some r0 s0 bad l Hfd) as (i & s & _ & Hd & _).
  by destruct (Hnone i).
Qed.

Lemma order_errors_first (sio : list (Z * Z)) (i : nat) :
  decrease_at sio i → (∀ j, (j < i)%nat → ¬ decrease_at sio j) →
  ∃ bad s, sio !! S i = Some (bad, s)
           ∧ step_numbering.order_errors sio
             = [ step_numbering.error_item bad step_numbering.out_of_order_message ].
Proof.
  intros Hd Hfirst. destruct sio as [| [r0 s0] l].
  - destruct Hd as (p & q & Hp & _). done.
  - simpl. destruct (step_numbering.first_decrease s0 l) as [bad |] eqn:Hfd.
    + destruct (first_decrease_Some r0 s0 bad l Hfd) as (i' & s & Hi' & Hd' & Hfirst').
      assert (i = i') as <-.
      { destruct (Nat.lt_trichotomy i i') as [Hlt | [Heq | Hgt]]; [| done |].
        - by destruct (Hfirst' i Hlt).
        - by destruct (Hfirst i' Hgt). }
      by exists bad, s.
    + by destruct (first_decrease_None r0 s0 l Hfd i).
Qed.

(** *** The shape of the errors *)

Lemma cell_errors_in_order (tc_id : value) (group : list (Z * row)) :
  List.filter is_out_of_order (cell_errors tc_id group) = [].
Proof.
  apply filter_none. intros e He%list_elem_of_In.
  apply in_flat_map in He as (ir & _ & He).
  destruct (common.to_int_step (raw_step ir)); [done |].
  destruct He as [<- | []]. apply bool_decide_eq_false.
  destruct (common.is_empty_like (raw_step ir)); simpl; intros [=].
Qed.

Lemma duplicate_errors_in_order (tc_id : value) (d : list (Z * list Z)) :
  List.filter is_out_of_order (step_numbering.duplicate_errors tc_id d) = [].
Proof.
  apply filter_none. intros e He%list_elem_of_In.
  apply in_flat_map in He as ([step rs] & _ & He).
  destruct (1 <? length rs)%nat; [| done].
  apply in_map_iff in He as (r & <- & _). apply bool_decide_eq_false.
  simpl. intros [=].
Qed.

Lemma missing_errors_in_order (tc_id : value) (st : step_numbering.group_state) :
  List.filter is_out_of_order (step_numbering.missing_errors tc_id st) = [].
Proof.
  apply filter_none. intros e. unfold step_numbering.missing_errors.
  repeat case_match; try by intros ?%elem_of_nil.
  intros ->%list_elem_of_singleton. apply bool_decide_eq_false.
  simpl. intros [=].
Qed.

Lemma order_errors_out_of_order (sio : list (Z * Z)) :
  List.filter is_out_of_order (step_numbering.order_errors sio)
  = step_numbering.order_errors sio.
Proof.
  apply filter_all. intros e. unfold step_numbering.order_errors.
  repeat case_match; try by intros ?%elem_of_nil.
  intros ->%list_elem_of_singleton. by apply bool_decide_eq_true.
Qed.

(** The three outcomes of the rule. *)
Lemma check_step_numbering_cases (df : DataFrame) :
  step_numbering.check_step_numbering df
  = if negb (has_column df "Test Case ID" && has_column df "Step #") then Ok []
    else if bool_decide (rows df = []) then Raise (KeyError "Test Case ID")
    else Ok (step_numbering.check_working_rows (step_numbering.working_rows df)).
Proof.
  unfold step_numbering.check_step_numbering.
  destruct (negb _); [done |]. by destruct (rows df).
Qed.

Lemma returned_check_step_numbering (df : DataFrame) :
  returned (step_numbering.check_step_numbering df)
  = if negb (has_column df "Test Case ID" && has_column df "Step #") then []
    else step_numbering.check_working_rows (step_numbering.working_rows df).
Proof.
  unfold step_numbering.check_step_numbering.
  destruct (negb _); [done |].
  unfold step_numbering.working_rows, iterrows. by destruct (rows df).
Qed.

Lemma check_step_numbering_raises (df : DataFrame) (e : exn) :
  step_numbering.check_step_numbering df = Raise e →
  e = KeyError "Test Case ID" ∧ rows df = []
  ∧ "Test Case ID" ∈ columns df ∧ "Step #" ∈ columns df.
Proof.
  rewrite check_step_numbering_cases. unfold has_column.
  destruct (bool_decide ("Test Case ID" ∈ columns df)) eqn:H1; [| done].
  destruct (bool_decide ("Step #" ∈ columns df)) eqn:H2; [| done].
  apply bool_decide_eq_true_1 in H1, H2. cbn [andb negb].
  case_bool_decide; [| done]. intros [= <-]. done.
Qed.

Lemma check_group_unfold (tc_id : value) (group : list (Z * row)) :
  step_numbering.check_group tc_id group
  = let st := foldl (step_numbering.scan_row tc_id) step_numbering.group_init group in
    cell_errors tc_id group
    ++ match valid_steps group with
       | [] => []
       | _ :: _ =>
           step_numbering.duplicate_errors tc_id (step_numbering.step_to_rows st)
           ++ step_numbering.missing_errors tc_id st
           ++ step_numbering.order_errors (valid_steps group)
       end.
Proof.
  unfold step_numbering.check_group, step_numbering.finish_group.
  destruct (scan_rows_state tc_id group step_numbering.group_init) as (He & Hs & _).
  cbv zeta in *. rewrite He, Hs. simpl.
  destruct (valid_steps group); [by rewrite app_nil_r | done].
Qed.

Lemma number_compare_antisym (x y : step_numbering.number) :
  step_numbering.number_compare y x = CompOpp (step_numbering.number_compare x y).
Proof.
  destruct x as [| n1 e1 |], y as [| n2 e2 |]; try done. simpl.
  rewrite (Z.min_comm e2 e1). apply Z.compare_antisym.
Qed.

Global Instance key_le_total : Total step_numbering.key_le.
Proof.
  intros a b. unfold step_numbering.key_le, step_numbering.key_leb.
  destruct (step_numbering.number_of a) as [x |] eqn:Ha,
    (step_numbering.number_of b) as [y |] eqn:Hb; auto.
  - rewrite (number_compare_antisym x y).
    destruct (step_numbering.number_compare x y); auto.
  - destruct a as [| | | s], b as [| | | t]; auto.
    destruct (String.leb_total s t); auto.
Qed.

Lemma distinct_keys_elem (l : list value) (k : value) :
  k ∈ step_numbering.distinct_keys l → k ∈ l.
Proof.
  induction l as [| x l IH]; [done |]. simpl.
  intros [-> | Hk]%elem_of_cons; [apply elem_of_cons; by left |].
  apply list_elem_of_In, filter_In in Hk as [Hk _].
  apply elem_of_cons. right. by apply IH, list_elem_of_In.
Qed.

Lemma number_compare_refl (x : step_numbering.number) :
  step_numbering.number_compare x x = Eq.
Proof. destruct x; try done. simpl. apply Z.compare_refl. Qed.

Lemma mul_compare_pos (a b p : Z) : (0 < p)%Z → (a * p ?= b * p)%Z = (a ?= b)%Z.
Proof.
  intros Hp. destruct (Z.compare_spec a b) as [-> | Hlt | Hgt].
  - apply Z.compare_refl.
  - apply Z.compare_lt_iff. nia.
  - apply Z.compare_gt_iff. nia.
Qed.

(** Two dyadic numbers compare as their numerators at any common exponent. *)
Lemma dyadic_compare (n1 e1 n2 e2 e : Z) :
  (e ≤ e1)%Z → (e ≤ e2)%Z →
  step_numbering.number_compare (step_numbering.Dyadic n1 e1)
    (step_numbering.Dyadic n2 e2)
  = (n1 * 2 ^ (e1 - e) ?= n2 * 2 ^ (e2 - e))%Z.
Proof.
  intros H1 H2. unfold step_numbering.number_compare. cbv zeta.
  set (m := Z.min e1 e2).
  assert (m ≤ e1 ∧ m ≤ e2 ∧ e ≤ m)%Z as (Hm1 & Hm2 & Hm) by (unfold m; lia).
  replace (e1 - e)%Z with ((e1 - m) + (m - e))%Z by lia.
  replace (e2 - e)%Z with ((e2 - m) + (m - e))%Z by lia.
  rewrite !Z.pow_add_r by lia. rewrite !Z.mul_assoc.
  symmetry. apply mul_compare_pos. apply Z.pow_pos_nonneg; lia.
Qed.

Lemma number_compare_trans (x y z : step_numbering.number) :
  step_numbering.number_compare x y = Eq →
  step_numbering.number_compare y z = Eq →
  step_numbering.number_compare x z = Eq.
Proof.
  destruct x as [| n1 e1 |], y as [| n2 e2 |], z as [| n3 e3 |]; try done.
  set (e := Z.min e1 (Z.min e2 e3)).
  rewrite (dyadic_compare n1 e1 n2 e2 e), (dyadic_compare n2 e2 n3 e3 e),
    (dyadic_compare n1 e1 n3 e3 e) by (unfold e; lia).
  rewrite !Z.compare_eq_iff. congruence.
Qed.

(** Python's [==] on keys is an equivalence, NaN left aside. *)
Lemma key_eqb_sym (a b : value) :
  step_numbering.key_eqb a b = step_numbering.key_eqb b a.
Proof.
  unfold step_numbering.key_eqb.
  destruct (step_numbering.number_of a) as [x |] eqn:Ha,
    (step_numbering.number_of b) as [y |] eqn:Hb.
  - rewrite (number_compare_antisym x y).
    by destruct (step_numbering.number_compare x y).
  - destruct a, b; simpl in *; done.
  - destruct a, b; simpl in *; done.
  - destruct a, b; simpl in *; try done. apply String.eqb_sym.
Qed.

Lemma key_eqb_refl (v : value) :
  common.is_empty_like v = false → step_numbering.key_eqb v v = true.
Proof.
  destruct v as [| z | f | s]; [done | ..].
  - intros _. unfold step_numbering.key_eqb. cbn [step_numbering.number_of].
    by rewrite number_compare_refl.
  - destruct f as [b | b | | b m e]; [| | done |]; intros _;
      unfold step_numbering.key_eqb; cbn [step_numbering.number_of];
      by rewrite number_compare_refl.
  - intros _. unfold step_numbering.key_eqb. cbn. apply String.eqb_refl.
Qed.

Lemma key_eqb_trans (a b c : value) :
  step_numbering.key_eqb a b = true → step_numbering.key_eqb b c = true →
  step_numbering.key_eqb a c = true.
Proof.
  unfold step_numbering.key_eqb.
  destruct (step_numbering.number_of a) as [x |] eqn:Ha,
    (step_numbering.number_of b) as [y |] eqn:Hb,
    (step_numbering.number_of c) as [z |] eqn:Hc.
  - destruct (step_numbering.number_compare x y) eqn:E1; [| done..].
    destruct (step_numbering.number_compare y z) eqn:E2; [| done..].
    by rewrite (number_compare_trans x y z).
  - destruct (step_numbering.number_compare x y); [| done..].
    destruct b, c; simpl in *; done.
  - destruct a, b; simpl in *; done.
  - destruct a, b; simpl in *; done.
  - destruct a, b; simpl in *; done.
  - destruct a, b; simpl in *; done.
  - destruct b, c; simpl in *; done.
  - destruct a, b, c; simpl in *; try done.
    intros ->%String.eqb_eq. done.
Qed.

(** [distinct_keys] keeps one key of each class, the first one met. *)
Lemma distinct_keys_complete (l : list value) (x : value) :
  x ∈ l → step_numbering.key_eqb x x = true →
  ∃ k, k ∈ step_numbering.distinct_keys l ∧ step_numbering.key_eqb x k = true.
Proof.
  induction l as [| y l IH]; [by intros ?%elem_of_nil |].
  intros [-> | Hx]%elem_of_cons Hrefl; simpl.
  - exists y. split; [apply elem_of_cons; by left | done].
  - destruct (IH Hx Hrefl) as (k & Hk & Hxk).
    destruct (step_numbering.key_eqb k y) eqn:Hky.
    + exists y. split; [apply elem_of_cons; by left |].
      by apply (key_eqb_trans x k y).
    + exists k. split; [| done]. apply elem_of_cons. right.
      apply list_elem_of_In, filter_In. split; [by apply list_elem_of_In |].
      by rewrite Hky.
Qed.

Lemma distinct_keys_distinct (l : list value) (a b : value) :
  a ∈ step_numbering.distinct_keys l → b ∈ step_numbering.distinct_keys l →
  step_numbering.key_eqb a b = true → a = b.
Proof.
  induction l as [| y l IH]; [by intros ?%elem_of_nil |]. simpl.
  intros [-> | Ha]%elem_of_cons [-> | Hb]%elem_of_cons Hab; [done | | |].
  - apply list_elem_of_In, filter_In in Hb as [_ Hb].
    rewrite key_eqb_sym, Hab in Hb. done.
  - apply list_elem_of_In, filter_In in Ha as [_ Ha]. by rewrite Hab in Ha.
  - apply list_elem_of_In, filter_In in Ha as [Ha _].
    apply list_elem_of_In, filter_In in Hb as [Hb _].
    apply IH; by try apply list_elem_of_In.
Qed.

Lemma distinct_keys_NoDup (l : list value) :
  Forall (λ k, step_numbering.key_eqb k k = true) l →
  NoDup (step_numbering.distinct_keys l).
Proof.
  induction l as [| y l IH]; intros Hl; simpl; [constructor |].
  apply Forall_cons in Hl as [Hy Hl]. apply NoDup_cons. split.
  - intros [_ Hin]%list_elem_of_In%filter_In. by rewrite Hy in Hin.
  - apply NoDup_ListNoDup, List.NoDup_filter, NoDup_ListNoDup. by apply IH.
Qed.

(** The key of a group is the key of its first row. *)
Lemma distinct_keys_first {A} (f : A → value) (l : list A) (k : value) :
  Forall (λ x, step_numbering.key_eqb (f x) (f x) = true) l →
  k ∈ step_numbering.distinct_keys (map f l) →
  ∃ x rest, List.filter (λ x, step_numbering.key_eqb (f x) k) l = x :: rest
            ∧ f x = k.
Proof.
  induction l as [| y l IH]; [by intros _ ?%elem_of_nil |].
  intros [Hy Hl]%Forall_cons. cbn [map step_numbering.distinct_keys List.filter].
  intros [-> | Hk]%elem_of_cons.
  - rewrite Hy. by eexists _, _.
  - apply list_elem_of_In, filter_In in Hk as [Hk Hne].
    rewrite key_eqb_sym. apply negb_true_iff in Hne. rewrite Hne.
    apply IH; [done | by apply list_elem_of_In].
Qed.

(** The groups of the rule. *)
Lemma groupby_keys (w : list (Z * row)) :
  map fst (step_numbering.groupby w)
  = merge_sort step_numbering.key_le
      (step_numbering.distinct_keys (map (λ ir, step_numbering.tc_id_of ir.2) w)).
Proof.
  unfold step_numbering.groupby. rewrite List.map_map. cbn [fst]. apply List.map_id.
Qed.

Lemma elem_of_groupby (w : list (Z * row)) (k : value) (group : list (Z * row)) :
  (k, group) ∈ step_numbering.groupby w
  ↔ k ∈ map fst (step_numbering.groupby w)
    ∧ group = List.filter (λ ir, step_numbering.key_eqb
                                   (step_numbering.tc_id_of ir.2) k) w.
Proof.
  rewrite groupby_keys. unfold step_numbering.groupby.
  rewrite list_elem_of_fmap. split.
  - intros (k' & [= <- ->] & Hk). done.
  - intros [Hk ->]. by exists k.
Qed.

Lemma working_rows_keyed (df : DataFrame) (ir : Z * row) :
  ir ∈ step_numbering.working_rows df →
  step_numbering.key_eqb (step_numbering.tc_id_of ir.2)
    (step_numbering.tc_id_of ir.2) = true.
Proof.
  unfold step_numbering.working_rows.
  intros [_ Hne%negb_true_iff]%list_elem_of_In%filter_In. by apply key_eqb_refl.
Qed.

(** The keys of the groups: sorted, one of each test case, none left out,
    each the identifier of the first row of its group. *)
Lemma groupby_keys_spec (df : DataFrame) :
  let w := step_numbering.working_rows df in
  let keys := map fst (step_numbering.groupby w) in
  let rows_of k :=
    List.filter (λ ir, step_numbering.key_eqb (step_numbering.tc_id_of ir.2) k) w in
  Sorted step_numbering.key_le keys
  ∧ NoDup keys
  ∧ (∀ a b, a ∈ keys → b ∈ keys → step_numbering.key_eqb a b = true → a = b)
  ∧ (∀ ir, ir ∈ w → ∃ k, k ∈ keys ∧ ir ∈ rows_of k)
  ∧ (∀ k, k ∈ keys →
       ∃ ir rest, rows_of k = ir :: rest ∧ step_numbering.tc_id_of ir.2 = k).
Proof.
  intros w keys rows_of.
  assert (Forall (λ ir, step_numbering.key_eqb (step_numbering.tc_id_of ir.2)
                          (step_numbering.tc_id_of ir.2) = true) w) as Hrefl.
  { apply Forall_forall. intros ir Hir. by apply (working_rows_keyed df). }
  unfold keys. rewrite groupby_keys.
  split; [apply (Sorted_merge_sort step_numbering.key_le) |].
  split; [| split; [| split]].
  - rewrite merge_sort_Permutation. apply distinct_keys_NoDup.
    apply Forall_fmap. by apply (Forall_impl _ _ _ Hrefl).
  - intros a b. rewrite !merge_sort_Permutation. apply distinct_keys_distinct.
  - intros ir Hir.
    destruct (distinct_keys_complete
                (map (λ ir, step_numbering.tc_id_of ir.2) w)
                (step_numbering.tc_id_of ir.2)) as (k & Hk & Heq).
    { by apply (list_elem_of_fmap_2 (λ ir, step_numbering.tc_id_of ir.2)). }
    { by apply (working_rows_keyed df). }
    exists k. split; [by rewrite merge_sort_Permutation |].
    apply list_elem_of_In, filter_In. split; [by apply list_elem_of_In | done].
  - intros k. rewrite merge_sort_Permutation. intros Hk.
    by apply (distinct_keys_first (λ ir, step_numbering.tc_id_of ir.2) w k).
Qed.

(** On a table with rows the rule returns the issues of its groups, one
    group after the other. *)
Lemma check_step_numbering_groups (df : DataFrame) :
  "Test Case ID" ∈ columns df → "Step #" ∈ columns df →
  step_numbering.check_step_numbering df
  = if bool_decide (rows df = []) then Raise (KeyError "Test Case ID")
    else Ok (flat_map (λ '(tc_id, group), step_numbering.check_group tc_id group)
               (step_numbering.groupby (step_numbering.working_rows df))).
Proof.
  intros Htc Hstep. rewrite check_step_numbering_cases. unfold has_column.
  rewrite !bool_decide_eq_true_2 by done. cbn [andb negb].
  case_bool_decide; [done |]. f_equal.
  unfold step_numbering.check_working_rows.
  by destruct (step_numbering.working_rows df).
Qed.

Lemma filter_flat_map {A B} (p : B → bool) (f : A → list B) (l : list A) :
  List.filter p (flat_map f l) = flat_map (λ x, List.filter p (f x)) l.
Proof.
  induction l as [| x l IH]; [done |]. simpl. by rewrite List.filter_app, IH.
Qed.


Lemma check_group_out_of_order (tc_id : value) (group : list (Z * row)) :
  List.filter is_out_of_order (step_numbering.check_group tc_id group)
  = step_numbering.order_errors (valid_steps group).
Proof.
  rewrite check_group_unfold. cbv zeta. rewrite List.filter_app, cell_errors_in_order.
  destruct (valid_steps group) as [| p sio']; [done |].
  rewrite !List.filter_app, duplicate_errors_in_order, missing_errors_in_order.
  apply order_errors_out_of_order.
Qed.

(** C5. The out-of-order errors of the step-numbering rule.  On a table
    that has rows and the two columns of the rule, the validator returns,
    and its out-of-order errors are those of its groups, one group after the
    other.  A group is the rows with one Test Case ID among the rows the
    rule keeps, in row order; every row the rule keeps is in a group, and no
    two groups have the same Test Case ID.
    In a group the valid step numbers are scanned in row order: there is no
    out-of-order error when no valid step is below its predecessor, and
    otherwise a single one, which the validator returns, attached to the row
    of the first valid step that is below its predecessor, later decreases
    adding nothing.  Its message is a fixed text that holds the placeholder
    "{tc_id}" where the other messages hold the test-case identifier. *)
Theorem first_decrease_reported (df : DataFrame) :
  "Test Case ID" ∈ columns df → "Step #" ∈ columns df → rows df ≠ [] →
  let w := step_numbering.working_rows df in
  let groups := step_numbering.groupby w in
  ∃ errors : list dict,
    step_numbering.check_step_numbering df = Ok errors
    ∧ List.filter is_out_of_order errors
      = flat_map (λ '(_, group), step_numbering.order_errors (valid_steps group))
          groups
    ∧ (∀ ir, ir ∈ w → ∃ tc_id group, (tc_id, group) ∈ groups ∧ ir ∈ group)
    ∧ (∀ i j a b ga gb,
         groups !! i = Some (a, ga) → groups !! j = Some (b, gb) →
         step_numbering.key_eqb a b = true → i = j)
    ∧ (∀ tc_id group, (tc_id, group) ∈ groups →
         let sio := valid_steps group in
         group = List.filter (λ ir, step_numbering.key_eqb
                                      (step_numbering.tc_id_of ir.2) tc_id) w
         ∧ step_numbering.steps_in_order
             (foldl (step_numbering.scan_row tc_id) step_numbering.group_init group)
           = sio
         ∧ List.filter is_out_of_order (step_numbering.check_group tc_id group)
           = step_numbering.order_errors sio
         ∧ (length (step_numbering.order_errors sio) ≤ 1)%nat
         ∧ ((∀ i, ¬ decrease_at sio i) → step_numbering.order_errors sio = [])
         ∧ (∀ i, decrease_at sio i → (∀ j, (j < i)%nat → ¬ decrease_at sio j) →
              ∃ bad s,
                sio !! S i = Some (bad, s)
                ∧ step_numbering.order_errors sio
                  = [ [ ("row", VInt bad);
                        ("error", VStr step_numbering.out_of_order_message) ] ]
                ∧ [ ("row", VInt bad);
                    ("error", VStr step_numbering.out_of_order_message) ] ∈ errors))
    ∧ step_numbering.out_of_order_message
      = "Step # is out of order in Test Case ID " +:+ "{tc_id}"
        +:+ " (expected ascending order)".
Proof.
  intros Htc Hstep Hrows w groups.
  exists (flat_map (λ '(tc_id, group), step_numbering.check_group tc_id group) groups).
  split; [| split; [| split; [| split; [| split]]]].
  - rewrite check_step_numbering_groups by done. by rewrite bool_decide_eq_false_2.
  - rewrite filter_flat_map. apply List.flat_map_ext. intros [tc_id group].
    apply check_group_out_of_order.
  - intros ir Hir. destruct (groupby_keys_spec df) as (_ & _ & _ & Hall & _).
    destruct (Hall ir Hir) as (k & Hk & Hin). eexists k, _.
    split; [| exact Hin]. by apply elem_of_groupby.
  - intros i j a b ga gb Hi Hj Hab.
    destruct (groupby_keys_spec df) as (_ & Hnd & Hinj & _).
    assert (map fst groups !! i = Some a) as Hi'
      by by rewrite list_lookup_fmap, Hi.
    assert (map fst groups !! j = Some b) as Hj'
      by by rewrite list_lookup_fmap, Hj.
    assert (a = b) as <-
      by (apply Hinj; [by eapply list_elem_of_lookup_2.. | done]).
    by apply (NoDup_lookup _ i j a Hnd).
  - intros tc_id group Hg sio. pose proof Hg as [Hk Hgroup]%elem_of_groupby.
    split; [done |]. split.
    { by destruct (scan_rows_state tc_id group step_numbering.group_init)
        as (_ & -> & _). }
    split; [apply check_group_out_of_order |].
    split; [apply order_errors_length |].
    split; [apply order_errors_none |].
    intros i Hd Hfirst.
    destruct (order_errors_first sio i Hd Hfirst) as (bad & s & Hlook & Herr).
    exists bad, s. split; [done |]. split; [done |].
    apply list_elem_of_In, in_flat_map. exists (tc_id, group).
    split; [by apply list_elem_of_In |].
    assert (step_numbering.error_item bad step_numbering.out_of_order_message
              ∈ List.filter is_out_of_order (step_numbering.check_group tc_id group))
      as Hin.
    { rewrite check_group_out_of_order. fold sio. rewrite Herr.
      apply elem_of_cons. by left. }
    by apply list_elem_of_In, filter_In in Hin as [Hin _].
  - reflexivity.
Qed.

End step_numbering_facts.

Section step_numbering_example.
Context `{FloatText}.

Lemma not_blank_of_tc_id (r : row) :
  common.is_empty_like (row_get r "Test Case ID" (VStr "")) = false →
  common.is_blank_row r = false.
Proof. intros He. unfold common.is_blank_row. cbn [forallb]. by rewrite He. Qed.

(** The state after the loop over the rows, as a record. *)
Lemma scan_rows_result (tc_id : value) (group : list (Z * row)) :
  foldl (step_numbering.scan_row tc_id) step_numbering.group_init group
  = {| step_numbering.errors := cell_errors tc_id group;
       step_numbering.steps_in_order := valid_steps group;
       step_numbering.step_to_rows :=
         foldl (λ d p, step_numbering.setdefault_append d p.2 p.1) []
           (valid_steps group);
       step_numbering.group_rows := map row_num group |}.
Proof.
  destruct (scan_rows_state tc_id group step_numbering.group_init) as (He & Hs & Hg & Hd).
  cbv zeta in *. destruct (foldl _ _ _). simpl in *. by subst.
Qed.

(** C4. A table of four rows, all of Test Case ID "TC1", whose Step # cells
    read 1, 2, 2, 4 in row order (Excel rows 2 to 5): the step-numbering
    validator returns exactly three errors, a duplicate-step error for step 2
    on each of the rows 3 and 4 and one missing-step error citing "3" on the
    first row of the group, row 2; none of them is an out-of-order error. *)
Theorem step_numbering_1224 (df : DataFrame) (r0 r1 r2 r3 : row) :
  "Test Case ID" ∈ columns df →
  "Step #" ∈ columns df →
  rows df = [r0; r1; r2; r3] →
  Forall (λ r, r !! "Test Case ID" = Some (VStr "TC1")) (rows df) →
  (λ r, common.to_int_step (row_get r "Step #" (VStr ""))) <$> rows df
    = [Some 1; Some 2; Some 2; Some 4]%Z →
  ∃ errors : list dict,
    step_numbering.check_step_numbering df = Ok errors
    ∧ errors
      = [ [ ("row", VInt 3); ("error", VStr "Duplicate Step # 2 in Test Case ID TC1") ];
          [ ("row", VInt 4); ("error", VStr "Duplicate Step # 2 in Test Case ID TC1") ];
          [ ("row", VInt 2); ("error", VStr "Missing Step # in Test Case ID TC1: 3") ] ]
    ∧ List.filter is_out_of_order errors = [].
Proof.
  intros Hc1 Hc2 Hrows Htc Hsteps. rewrite Hrows in Htc, Hsteps.
  injection Hsteps as Hs0 Hs1 Hs2 Hs3.
  apply Forall_cons in Htc as [Ht0 Htc]. apply Forall_cons in Htc as [Ht1 Htc].
  apply Forall_cons in Htc as [Ht2 Htc]. apply Forall_cons in Htc as [Ht3 _].
  assert (∀ r, r !! "Test Case ID" = Some (VStr "TC1") →
            common.is_blank_row r = false
            ∧ step_numbering.tc_id_of r = VStr "TC1") as Hrow.
  { intros r Hr. split.
    - apply not_blank_of_tc_id. unfold row_get. rewrite Hr. by vm_compute.
    - unfold step_numbering.tc_id_of, row_get. by rewrite Hr. }
  destruct (Hrow r0 Ht0) as [Hb0 Hk0], (Hrow r1 Ht1) as [Hb1 Hk1],
    (Hrow r2 Ht2) as [Hb2 Hk2], (Hrow r3 Ht3) as [Hb3 Hk3].
  assert (step_numbering.check_step_numbering df
          = Ok (step_numbering.check_group (VStr "TC1")
                  [(0, r0); (1, r1); (2, r2); (3, r3)]%Z)) as Hcheck.
  { unfold step_numbering.check_step_numbering, has_column.
    rewrite !bool_decide_eq_true_2 by done. cbn [andb negb].
    unfold step_numbering.working_rows, iterrows. rewrite Hrows. f_equal.
    cbn [number_rows List.filter snd]. rewrite Hb0, Hb1, Hb2, Hb3.
    cbn [negb List.filter snd]. rewrite Hk0, Hk1, Hk2, Hk3.
    assert (common.is_empty_like (VStr "TC1") = false) as -> by by vm_compute.
    cbn [negb]. unfold step_numbering.check_working_rows, step_numbering.groupby.
    cbn [map snd]. rewrite Hk0, Hk1, Hk2, Hk3.
    assert (merge_sort step_numbering.key_le
              (step_numbering.distinct_keys
                 [VStr "TC1"; VStr "TC1"; VStr "TC1"; VStr "TC1"])
            = [VStr "TC1"]) as -> by by vm_compute.
    cbn [map List.filter snd flat_map]. rewrite Hk0, Hk1, Hk2, Hk3.
    assert (step_numbering.key_eqb (VStr "TC1") (VStr "TC1") = true) as -> by done.
    by rewrite app_nil_r. }
  eexists. split; [exact Hcheck |].
  unfold step_numbering.check_group. rewrite scan_rows_result.
  assert (valid_steps [(0, r0); (1, r1); (2, r2); (3, r3)]%Z
          = [(2, 1); (3, 2); (4, 2); (5, 4)]%Z) as ->.
  { unfold valid_steps. rewrite !omap_cons_eq. unfold raw_step. cbn [snd].
    by rewrite Hs0, Hs1, Hs2, Hs3. }
  assert (cell_errors (VStr "TC1") [(0, r0); (1, r1); (2, r2); (3, r3)]%Z = []) as ->.
  { unfold cell_errors, raw_step. cbn [flat_map snd].
    by rewrite Hs0, Hs1, Hs2, Hs3. }
  split; by vm_compute.
Qed.

End step_numbering_example.

(** ** Core steps *)

Section core_steps_facts.
Context `{FloatText}.

Lemma map_number_rows {B} (g : row → B) (start : Z) (l : list row) :
  map (λ ir : Z * row, g ir.2) (number_rows start l) = map g l.
Proof.
  revert start. induction l as [| r l IH]; intros start; simpl; [done |].
  by rewrite IH.
Qed.

Lemma steps_of_lookup (df : DataFrame) (i : nat) :
  scanner.steps_of df !! i
  = (λ r, {| scanner.action := scanner.cell_text r "Action";
             scanner.expected := scanner.cell_text r "Expected Results" |})
    <$> rows df !! i.
Proof.
  unfold scanner.steps_of, iterrows.
  rewrite (map_number_rows
    (λ r, {| scanner.action := scanner.cell_text r "Action";
             scanner.expected := scanner.cell_text r "Expected Results" |})).
  apply list_lookup_fmap.
Qed.

Lemma steps_of_length (df : DataFrame) :
  length (scanner.steps_of df) = length (rows df).
Proof.
  unfold scanner.steps_of, iterrows.
  rewrite (map_number_rows
    (λ r, {| scanner.action := scanner.cell_text r "Action";
             scanner.expected := scanner.cell_text r "Expected Results" |})).
  apply length_map.
Qed.

Lemma anchor_hit_matches (df : DataFrame) (a : nat * string) :
  scanner.anchor_hit (scanner.steps_of df) a
  = if anchor_matches df a then 1%Z else 0%Z.
Proof.
  unfold scanner.anchor_hit, anchor_matches, core_steps.steps_match.
  rewrite steps_of_lookup.
  destruct (String.eqb a.2 ""); [done |].
  by destruct (rows df !! (a.1 - 1)%nat).
Qed.

(** The counter of the source is the number of matching anchors. *)
Lemma match_count_spec (cfg : config.Config) (df : DataFrame) :
  scanner.match_count cfg (scanner.steps_of df) = Z.of_nat (anchors_matching cfg df).
Proof.
  unfold scanner.match_count, anchors_matching, scanner.anchor_step_map.
  cbn [foldl List.filter]. rewrite !anchor_hit_matches.
  repeat (destruct (anchor_matches df _)); by vm_compute.
Qed.

(** Past its guards the validator compares the number of matching anchors
    with the threshold. *)
Lemma core_steps_threshold (cfg : config.Config) (df : DataFrame) :
  config.ENABLE_CORE_STEPS cfg = true →
  "Action" ∈ columns df →
  "Expected Results" ∈ columns df →
  (8 ≤ length (rows df))%nat →
  scanner.check_core_steps_enforcement cfg df
  = if (Z.of_nat (anchors_matching cfg df) <? config.CORE_ANCHOR_MIN_MATCHES cfg)%Z
    then [] else scanner.enforce cfg (scanner.steps_of df).
Proof.
  intros Hon Ha He Hlen. unfold scanner.check_core_steps_enforcement, has_column.
  rewrite Hon, !bool_decide_eq_true_2 by done. cbn [negb orb].
  rewrite steps_of_length, match_count_spec.
  assert ((length (rows df)
           <? foldr Nat.max 0 (map fst (scanner.anchor_step_map cfg)))%nat = false)
    as ->; [| done].
  apply Nat.ltb_ge. by cbn.
Qed.

(** C6 (as amended). With a threshold of 2: when core steps are enabled,
    both columns are present, the table has the eight rows the highest
    anchor position needs and exactly two of the four configured anchors
    match, the validator returns the result of the template comparison over
    the leading steps; when exactly one anchor matches, it returns no issue,
    on every table; and on a table of fewer than eight rows it returns no
    issue, however many anchors match. *)
Theorem anchor_threshold (cfg : config.Config) (df : DataFrame) :
  config.CORE_ANCHOR_MIN_MATCHES cfg = 2%Z →
  (config.ENABLE_CORE_STEPS cfg = true →
   "Action" ∈ columns df →
   "Expected Results" ∈ columns df →
   (8 ≤ length (rows df))%nat →
   anchors_matching cfg df = 2%nat →
   scanner.check_core_steps_enforcement cfg df
   = scanner.enforce cfg (scanner.steps_of df))
  ∧ (anchors_matching cfg df = 1%nat →
     scanner.check_core_steps_enforcement cfg df = [])
  ∧ ((length (rows df) < 8)%nat →
     scanner.check_core_steps_enforcement cfg df = []).
Proof.
  intros Hmin. split; [| split].
  - intros Hon Ha He Hlen Hn.
    by rewrite (core_steps_threshold cfg df Hon Ha He Hlen), Hmin, Hn.
  - intros Hn. unfold scanner.check_core_steps_enforcement.
    rewrite match_count_spec, Hmin, Hn. by repeat case_match.
  - intros Hlen. unfold scanner.check_core_steps_enforcement.
    rewrite steps_of_length.
    assert ((length (rows df)
             <? foldr Nat.max 0 (map fst (scanner.anchor_step_map cfg)))%nat = true)
      as -> by (apply Nat.ltb_lt; by cbn).
    by repeat case_match.
Qed.

End core_steps_facts.

(** ** The shape of the issues of a scan *)

Section issue_shape.
Context `{FloatText}.









Lemma Forall_iterrows (P : dict → Prop) (f : Z → row → list dict) (df : DataFrame) :
  (∀ idx r, Forall P (f idx r)) →
  Forall P (flat_map (λ '(idx, r), f idx r) (iterrows df)).
Proof.
  intros Hf. apply Forall_flat_map, Forall_forall. by intros [idx r] _.
Qed.















(** The record a scan returns. *)
Lemma scan_unfold (cfg : config.Config) (df : DataFrame) :
  scanner.scan cfg df
  = let result_of errors :=
      {| scanner.scan_rows := length (rows df); scanner.scan_columns := columns df;
         scanner.scan_errors := errors |} in
    match missing_columns.check_missing_columns df with
    | _ :: _ => Ok (result_of (missing_columns.check_missing_columns df))
    | [] =>
        let found :=
          flat_map (λ rule, rule df) scanner.RULES
          ++ scanner.check_core_steps_enforcement cfg df in
        if has_column df "Test Case ID" && has_column df "Step #"
        then match step_numbering.check_step_numbering df with
             | Ok errors => Ok (result_of (found ++ errors))
             | Raise e => Raise e
             end
        else Ok (result_of found)
    end.
Proof.
  unfold scanner.scan. cbn [app].
  destruct (missing_columns.check_missing_columns df) as [| e l] eqn:Hm; [| done].
  cbn [foldl scanner.RULES scanner.CONDITIONAL_RULES scanner.conditional_step
       flat_map forallb app]. rewrite Hm, !andb_true_r, !app_nil_r. cbn [app].
  destruct (has_column df "Test Case ID" && has_column df "Step #");
    [destruct (step_numbering.check_step_numbering df); [| done] |];
    by rewrite <- ?app_assoc, ?app_nil_r.
Qed.

(** A scan raises on one kind of table only: both required columns, the two
    columns of the step-numbering rule, and no row. *)
Lemma scan_raises (cfg : config.Config) (df : DataFrame) (e : exn) :
  scanner.scan cfg df = Raise e →
  e = KeyError "Test Case ID" ∧ rows df = []
  ∧ missing_columns.check_missing_columns df = []
  ∧ "Test Case ID" ∈ columns df ∧ "Step #" ∈ columns df.
Proof.
  rewrite scan_unfold. cbv zeta.
  destruct (missing_columns.check_missing_columns df) eqn:Hm; [| done].
  destruct (has_column df "Test Case ID" && has_column df "Step #"); [| done].
  destruct (step_numbering.check_step_numbering df) eqn:Hs; [done |].
  intros [= <-]. apply check_step_numbering_raises in Hs. naive_solver.
Qed.

(** The errors of a scan that returns, validator by validator. *)
Lemma scan_errors_unfold (cfg : config.Config) (df : DataFrame)
    (res : scanner.ScanResult) :
  scanner.scan cfg df = Ok res →
  scanner.scan_errors res
  = match missing_columns.check_missing_columns df with
    | _ :: _ => missing_columns.check_missing_columns df
    | [] =>
        flat_map (λ rule, rule df) scanner.RULES
        ++ scanner.check_core_steps_enforcement cfg df
        ++ (if has_column df "Test Case ID" && has_column df "Step #"
            then returned (step_numbering.check_step_numbering df) else [])
    end.
Proof.
  rewrite scan_unfold. cbv zeta.
  destruct (missing_columns.check_missing_columns df) eqn:Hm; [| by intros [= <-]].
  destruct (has_column df "Test Case ID" && has_column df "Step #").
  - destruct (step_numbering.check_step_numbering df); [| done].
    intros [= <-]. cbn [scanner.scan_errors returned]. by rewrite <- app_assoc.
  - intros [= <-]. simpl. by rewrite !app_nil_r.
Qed.


End issue_shape.

(** ** Core steps on a blank row *)

Section blank_row_core_steps.
Context `{FloatText}.

(** C10. There is a table on which core-steps enforcement activates (two of
    the shipped anchors match) and whose first row, fully blank and within
    the enforced positions, receives the core-steps warnings for its action
    and its expected result on Excel row 2, while the validators that skip
    blank rows attach nothing to that row. *)
Theorem blank_row_gets_core_warnings :
  ∃ (df : DataFrame) (i : nat) (r : row),
    rows df !! i = Some r
    ∧ common.is_blank_row r = true
    ∧ anchors_matching config.shipped df = 2%nat
    ∧ scanner.check_core_steps_enforcement config.shipped df
      = scanner.enforce config.shipped (scanner.steps_of df)
    ∧ (Z.of_nat i < config.CORE_STEPS_COUNT config.shipped)%Z
    ∧ List.filter
        (λ e, bool_decide (dict_get e "excel_row" = Some (VInt (Z.of_nat i + 2))))
        (scanner.check_core_steps_enforcement config.shipped df)
      = [ scanner.core_issue 2
            (scanner.mismatch_message 0 "Action"
               "Launch CAPRI application from desktop" "");
          scanner.core_issue 2
            (scanner.mismatch_message 0 "Expected Results"
               "Windows Security Certificate Selection window pop-up displays." "") ]
    ∧ Forall (λ e, dict_get e "severity" = Some (VStr "WARNING"))
        (scanner.check_core_steps_enforcement config.shipped df)
    ∧ issues_at i
        (required_fields.check_required_fields df
         ++ data_required.check_data_required_for_actions df
         ++ expected_results_punctuation.check_expected_results_punctuation df
         ++ generic_expected_results.check_generic_expected_results df) = [].
Proof.
  exists blank_first_table, 0%nat, (mk_row nan nan nan nan).
  assert (common.is_blank_row (mk_row nan nan nan nan) = true) as Hblank by by vm_compute.
  assert (anchors_matching config.shipped blank_first_table = 2%nat) as Hanchors
    by by vm_compute.
  split; [done | split; [done | split; [done |]]].
  split.
  { rewrite (core_steps_threshold config.shipped blank_first_table);
      [by rewrite Hanchors | done | by repeat constructor | by repeat constructor
      | vm_compute; lia]. }
  split; [done |].
  split; [by vm_compute |].
  split; [vm_compute; by repeat constructor |].
  rewrite !issues_at_app.
  by rewrite (required_fields_at blank_first_table 0 _ eq_refl Hblank),
    (data_required_at blank_first_table 0 _ eq_refl Hblank),
    (punctuation_at blank_first_table 0 _ eq_refl Hblank),
    (generic_at blank_first_table 0 _ eq_refl Hblank).
Qed.

End blank_row_core_steps.

(** ** Further properties of the rules *)

Section further.
Context `{FloatText}.

Lemma elem_of_iterrows_body (f : Z → row → list dict) (df : DataFrame) (e : dict) :
  e ∈ flat_map (λ '(idx, r), f idx r) (iterrows df) →
  ∃ (i : nat) (r : row), rows df !! i = Some r ∧ e ∈ f (Z.of_nat i) r.
Proof.
  intros He%list_elem_of_In. apply in_flat_map in He as ([idx r] & Hin & He).
  apply list_elem_of_In, elem_of_number_rows in Hin as (i & -> & Hr).
  exists i, r. rewrite Z.add_0_l in He. split; [done | by apply list_elem_of_In].
Qed.

(** X1. Punctuation on an empty value: a row whose Expected Results cell is
    empty-like gets no EXPECTED_RESULTS_PUNCTUATION issue, and when the row is
    not blank the required-fields rule reports the cell as empty. *)
Theorem punctuation_skips_empty (idx : Z) (r : row) :
  common.is_empty_like (row_get r "Expected Results" (VStr "")) = true →
  expected_results_punctuation.check_row idx r = []
  ∧ (common.is_blank_row r = false →
     common.make_issue (VInt (idx + 2)) "Expected Results is empty" "REQUIRED_FIELDS"
       (Some "FAIL") (Some "Expected Results")
     ∈ required_fields.check_row idx r).
Proof.
  intros He. split.
  - unfold expected_results_punctuation.check_row. rewrite He. by case_match.
  - intros Hnb. unfold required_fields.check_row. rewrite Hnb, He.
    apply elem_of_app. right. by left.
Qed.

(** X2. Excel row numbers: every issue of the five row validators is attached to
    a row of the table and carries that row's 0-based position plus 2. *)
Theorem excel_row_mapping (df : DataFrame) (e : dict) :
  e ∈ required_fields.check_required_fields df
      ++ blank_rows.check_blank_rows df
      ++ data_required.check_data_required_for_actions df
      ++ expected_results_punctuation.check_expected_results_punctuation df
      ++ generic_expected_results.check_generic_expected_results df →
  ∃ (i : nat) (r : row),
    rows df !! i = Some r ∧ dict_get e "row" = Some (VInt (Z.of_nat i + 2)).
Proof.
  rewrite !elem_of_app.
  unfold required_fields.check_required_fields, blank_rows.check_blank_rows,
    data_required.check_data_required_for_actions,
    expected_results_punctuation.check_expected_results_punctuation,
    generic_expected_results.check_generic_expected_results.
  intros [He | [He | [He | [He | He]]]];
    repeat match type of He with
    | _ ∈ (if ?b then _ else _) => destruct b; [by apply elem_of_nil in He |]
    end;
    apply elem_of_iterrows_body in He as (i & r & Hr & He); exists i, r;
    (split; [done |]).
  - by eapply required_fields_row.
  - by eapply blank_rows_row.
  - by eapply data_required_row.
  - by eapply punctuation_row.
  - by eapply generic_row.
Qed.

(** X3. The outcome of a scan of a table with both required columns.  The
    row rules and the core-steps check return their issues; the
    step-numbering rule is run when the table has its two columns.  When
    that rule raises, the scan raises the same exception and returns
    nothing: this is the case of a table with the four columns and no row,
    and of no other table.  Otherwise the scan returns the number of rows,
    the columns, and the issues of the rules in their listed order, then
    those of the core-steps check, then those of the step-numbering rule. *)
Theorem scan_order (cfg : config.Config) (df : DataFrame) :
  "Action" ∈ columns df → "Expected Results" ∈ columns df →
  let found :=
    required_fields.check_required_fields df
    ++ blank_rows.check_blank_rows df
    ++ data_required.check_data_required_for_actions df
    ++ expected_results_punctuation.check_expected_results_punctuation df
    ++ generic_expected_results.check_generic_expected_results df
    ++ scanner.check_core_steps_enforcement cfg df in
  scanner.scan cfg df
  = match (if bool_decide ("Test Case ID" ∈ columns df ∧ "Step #" ∈ columns df)
           then step_numbering.check_step_numbering df else Ok []) with
    | Ok errors =>
        Ok {| scanner.scan_rows := length (rows df);
              scanner.scan_columns := columns df;
              scanner.scan_errors := found ++ errors |}
    | Raise e => Raise e
    end
  ∧ (∀ e, scanner.scan cfg df = Raise e
          ↔ e = KeyError "Test Case ID" ∧ rows df = []
            ∧ "Test Case ID" ∈ columns df ∧ "Step #" ∈ columns df).
Proof.
  intros Ha He found.
  assert (scanner.scan cfg df
          = match (if bool_decide ("Test Case ID" ∈ columns df ∧ "Step #" ∈ columns df)
                   then step_numbering.check_step_numbering df else Ok []) with
            | Ok errors =>
                Ok {| scanner.scan_rows := length (rows df);
                      scanner.scan_columns := columns df;
                      scanner.scan_errors := found ++ errors |}
            | Raise e => Raise e
            end) as Hscan.
  { rewrite scan_unfold. cbv zeta.
    rewrite missing_columns_complete by by apply bool_decide_eq_true_2.
    cbn [flat_map scanner.RULES].
    rewrite missing_columns_complete by by apply bool_decide_eq_true_2.
    cbn [app]. rewrite app_nil_r. unfold has_column, found.
    repeat case_bool_decide; cbn [andb]; try naive_solver.
    all: try (destruct (step_numbering.check_step_numbering df); [| done]).
    all: by rewrite <- ?app_assoc, ?app_nil_r. }
  split; [done |]. intros e. split.
  - intros (? & ? & _ & ? & ?)%scan_raises. done.
  - intros (-> & Hrows & Ht & Hs). rewrite Hscan.
    rewrite bool_decide_eq_true_2 by done.
    rewrite check_step_numbering_cases. unfold has_column.
    by rewrite !bool_decide_eq_true_2.
Qed.

End further.

(** ** Whitespace normalisation *)

Section whitespace.

Lemma lstrip_cons_nonspace c s :
  pystr.is_space c = false → pystr.lstrip (String c s) = String c s.
Proof. intros Hc. simpl. by rewrite Hc. Qed.

Lemma lstrip_cases s :
  pystr.lstrip s = ""
  ∨ ∃ c t, pystr.lstrip s = String c t ∧ pystr.is_space c = false.
Proof.
  induction s as [| c s IH]; [by left |]. simpl.
  destruct (pystr.is_space c) eqn:Hc; [done |]. right. by exists c, s.
Qed.

Lemma rstrip_idemp s : pystr.rstrip (pystr.rstrip s) = pystr.rstrip s.
Proof.
  induction s as [| c s IH]; [done |]. cbn [pystr.rstrip].
  destruct (pystr.rstrip s) as [| c' t'] eqn:Hr.
  - destruct (pystr.is_space c) eqn:Hc; [done |]. simpl. by rewrite Hc.
  - cbn [pystr.rstrip] in *. by rewrite IH.
Qed.

(** [strip] is idempotent. *)
Lemma strip_idemp s : pystr.strip (pystr.strip s) = pystr.strip s.
Proof.
  unfold pystr.strip.
  destruct (lstrip_cases s) as [-> | (c & t & -> & Hc)]; [done |].
  destruct (rstrip_cons_nonspace c t Hc) as [t' Ht'].
  rewrite Ht', (lstrip_cons_nonspace c t' Hc), <- Ht'. apply rstrip_idemp.
Qed.

Lemma append_assoc (a b c : string) : (a +:+ b) +:+ c = a +:+ (b +:+ c).
Proof. induction a as [| x a IH]; [done |]. rewrite !append_cons. by rewrite IH. Qed.

Lemma append_nil_r (a : string) : a +:+ "" = a.
Proof. induction a as [| x a IH]; [done |]. rewrite append_cons. by rewrite IH. Qed.

Lemma rstrip_word w : is_word w → pystr.rstrip w = w.
Proof.
  intros [_ Hw]. induction w as [| c w IH]; [done |].
  simpl in Hw. apply andb_prop in Hw as [Hc Hw]. apply negb_true_iff in Hc.
  cbn [pystr.rstrip]. rewrite (IH Hw). destruct w; [by rewrite Hc | done].
Qed.

Lemma rstrip_app (a b : string) :
  pystr.rstrip b ≠ "" → pystr.rstrip (a +:+ b) = a +:+ pystr.rstrip b.
Proof.
  intros Hb. induction a as [| c a IH]; [done |].
  rewrite !append_cons. cbn [pystr.rstrip]. rewrite IH.
  destruct (a +:+ pystr.rstrip b) eqn:E; [| done].
  destruct a; [done | by rewrite append_cons in E].
Qed.

Lemma join_cons2 (sep w1 w2 : string) (ws : list string) :
  pystr.join sep (w1 :: w2 :: ws) = w1 +:+ sep +:+ pystr.join sep (w2 :: ws).
Proof. done. Qed.

Lemma join_words_nonempty (ws : list string) :
  Forall is_word ws → ws ≠ [] → pystr.join " " ws ≠ "".
Proof.
  intros Hws Hne. destruct ws as [| w ws]; [done |].
  apply Forall_cons in Hws as [[Hw _] _].
  destruct ws; [done |]. rewrite join_cons2.
  destruct w; [done | by rewrite append_cons].
Qed.

Lemma rstrip_join (ws : list string) :
  Forall is_word ws → pystr.rstrip (pystr.join " " ws) = pystr.join " " ws.
Proof.
  induction 1 as [| w ws Hw Hws IH]; [done |].
  destruct ws as [| w2 ws]; [by apply rstrip_word |].
  rewrite join_cons2, <- append_assoc.
  rewrite rstrip_app; rewrite IH; [done |].
  by apply join_words_nonempty.
Qed.

Lemma lstrip_join (ws : list string) :
  Forall is_word ws → pystr.lstrip (pystr.join " " ws) = pystr.join " " ws.
Proof.
  intros Hws. destruct ws as [| w ws]; [done |].
  apply Forall_cons in Hws as [[Hne Hw] _].
  destruct w as [| c w]; [done |]. simpl in Hw.
  apply andb_prop in Hw as [Hc _]. apply negb_true_iff in Hc.
  destruct ws; [by apply lstrip_cons_nonspace |].
  rewrite join_cons2, append_cons. by apply lstrip_cons_nonspace.
Qed.

Lemma strip_join (ws : list string) :
  Forall is_word ws → pystr.strip (pystr.join " " ws) = pystr.join " " ws.
Proof. intros Hws. unfold pystr.strip. by rewrite lstrip_join, rstrip_join. Qed.

Lemma rev_app_rev_app (u w acc : string) :
  String.rev_app (String.rev_app u w) acc = String.rev_app w (u +:+ acc).
Proof.
  revert w. induction u as [| c u IH]; intros w; [done |].
  cbn [String.rev_app]. by rewrite IH.
Qed.

Lemma split_go_word (u w rest : string) :
  all_chars (λ c, negb (pystr.is_space c)) u = true →
  pystr.split_go (Some w) (u +:+ rest)
  = pystr.split_go (Some (String.rev_app u w)) rest.
Proof.
  revert w. induction u as [| c u IH]; intros w Hu; [done |].
  simpl in Hu. apply andb_prop in Hu as [Hc Hu]. apply negb_true_iff in Hc.
  rewrite append_cons. cbn [pystr.split_go]. rewrite Hc. cbn [default].
  by rewrite IH.
Qed.

Lemma split_go_start (c : ascii) (u rest : string) :
  is_word (String c u) →
  pystr.split_go None (String c u +:+ rest)
  = pystr.split_go (Some (String.rev_app u (String c ""))) rest.
Proof.
  intros [_ Hw]. simpl in Hw. apply andb_prop in Hw as [Hc Hu].
  apply negb_true_iff in Hc.
  rewrite append_cons. cbn [pystr.split_go]. rewrite Hc. cbn [default].
  by apply split_go_word.
Qed.

Lemma rev_word (c : ascii) (u : string) :
  String.rev (String.rev_app u (String c "")) = String c u.
Proof. unfold String.rev. by rewrite rev_app_rev_app, append_nil_r. Qed.

Lemma split_word (w : string) : is_word w → pystr.split w = [w].
Proof.
  intros Hw. destruct w as [| c u]; [by destruct Hw |].
  unfold pystr.split. rewrite <- (append_nil_r (String c u)) at 1.
  rewrite split_go_start by done. cbn [pystr.split_go]. by rewrite rev_word.
Qed.

Lemma split_word_space (w t : string) :
  is_word w → pystr.split (w +:+ " " +:+ t) = w :: pystr.split t.
Proof.
  intros Hw. destruct w as [| c u]; [by destruct Hw |].
  unfold pystr.split. rewrite split_go_start by done.
  change (" " +:+ t) with (String " " t). cbn [pystr.split_go].
  change (pystr.is_space " ") with true. cbn match. by rewrite rev_word.
Qed.

(** [split] undoes [join] on words. *)
Lemma split_join (ws : list string) :
  Forall is_word ws → pystr.split (pystr.join " " ws) = ws.
Proof.
  induction 1 as [| w ws Hw Hws IH]; [done |].
  destruct ws as [| w2 ws]; [by apply split_word |].
  by rewrite join_cons2, split_word_space, IH.
Qed.

Lemma all_chars_rev_app (p : ascii → bool) (u w : string) :
  all_chars p u = true → all_chars p w = true →
  all_chars p (String.rev_app u w) = true.
Proof.
  revert w. induction u as [| c u IH]; intros w Hu Hw; [done |].
  simpl in Hu. apply andb_prop in Hu as [Hc Hu]. cbn [String.rev_app].
  apply IH; [done |]. simpl. by rewrite Hc.
Qed.

Lemma rev_app_nonempty (u w : string) : w ≠ "" → String.rev_app u w ≠ "".
Proof. revert w. induction u as [| c u IH]; intros w Hw; [done |]. by apply IH. Qed.

Lemma rev_app_nonempty_rev (w : string) : w ≠ "" → String.rev w ≠ "".
Proof.
  destruct w as [| c w]; [done |]. intros _. unfold String.rev.
  cbn [String.rev_app]. by apply rev_app_nonempty.
Qed.

Lemma split_go_words (cur : option string) (s : string) :
  (∀ w, cur = Some w → is_word w) → Forall is_word (pystr.split_go cur s).
Proof.
  revert cur. induction s as [| c s IH]; intros cur Hcur.
  - destruct cur as [w |]; [| constructor]. simpl. constructor; [| constructor].
    destruct (Hcur w eq_refl) as [Hne Hw]. split.
    + by apply rev_app_nonempty_rev.
    + by apply all_chars_rev_app.
  - cbn [pystr.split_go]. destruct (pystr.is_space c) eqn:Hc.
    + destruct cur as [w |]; [| by apply IH].
      constructor; [| by apply IH].
      destruct (Hcur w eq_refl) as [Hne Hw]. split.
      * by apply rev_app_nonempty_rev.
      * by apply all_chars_rev_app.
    + apply IH. intros w [= <-]. split; [done |].
      simpl. rewrite Hc. simpl. destruct cur as [w |]; [| done].
      by destruct (Hcur w eq_refl).
Qed.

(** The words of [split] are non-empty and hold no whitespace. *)
Lemma split_words (s : string) : Forall is_word (pystr.split s).
Proof. by apply split_go_words. Qed.

Lemma split_go_lstrip (s : string) :
  pystr.split_go None (pystr.lstrip s) = pystr.split_go None s.
Proof.
  induction s as [| c s IH]; [done |]. cbn [pystr.lstrip].
  destruct (pystr.is_space c) eqn:Hc; cbn [pystr.split_go]; by rewrite Hc.
Qed.

Lemma split_go_rstrip (cur : option string) (s : string) :
  pystr.split_go cur (pystr.rstrip s) = pystr.split_go cur s.
Proof.
  revert cur. induction s as [| c s IH]; intros cur; [done |].
  cbn [pystr.rstrip]. destruct (pystr.rstrip s) as [| c' t'] eqn:Hr.
  - destruct (pystr.is_space c) eqn:Hc; cbn [pystr.split_go]; rewrite Hc.
    + rewrite <- (IH None). by destruct cur.
    + by rewrite <- IH.
  - cbn [pystr.split_go]. rewrite <- !IH. by destruct (pystr.is_space c), cur.
Qed.

(** [split] does not see the whitespace [strip] removes. *)
Lemma split_strip (s : string) : pystr.split (pystr.strip s) = pystr.split s.
Proof. unfold pystr.split, pystr.strip. by rewrite split_go_rstrip, split_go_lstrip. Qed.

Lemma normalize_spaces_join (s : string) :
  core_steps.normalize_spaces s = pystr.join " " (pystr.split s).
Proof. unfold core_steps.normalize_spaces. by rewrite split_strip. Qed.

Lemma normalize_spaces_idemp (s : string) :
  core_steps.normalize_spaces (core_steps.normalize_spaces s)
  = core_steps.normalize_spaces s.
Proof.
  rewrite (normalize_spaces_join s). unfold core_steps.normalize_spaces at 1.
  by rewrite strip_join, split_join by apply split_words.
Qed.

(** Matching does not change when a text is normalised first. *)
Lemma steps_match_normalize (a b : string) :
  core_steps.steps_match (core_steps.normalize_spaces a) b = core_steps.steps_match a b.
Proof. unfold core_steps.steps_match. by rewrite normalize_spaces_idemp. Qed.

(** X6. The normalised text is the words of the text, any run of whitespace
    (spaces, tabs, line ends) between them replaced by one space.  It has no
    whitespace at its ends, its words are those of the text, normalising it
    again changes nothing, and a text always matches its own normalisation. *)
Theorem normalize_spaces_canonical (s : string) :
  let n := core_steps.normalize_spaces s in
  n = pystr.join " " (pystr.split s)
  ∧ Forall is_word (pystr.split s)
  ∧ pystr.split n = pystr.split s
  ∧ pystr.strip n = n
  ∧ core_steps.normalize_spaces n = n
  ∧ core_steps.steps_match s n = true.
Proof.
  pose proof (split_words s) as Hw.
  pose proof (normalize_spaces_join s) as Hn.
  cbn zeta. split; [done |]. split; [done |].
  split; [rewrite Hn; by apply split_join |].
  split; [rewrite Hn; by apply strip_join |].
  split; [by apply normalize_spaces_idemp |].
  unfold core_steps.steps_match. rewrite normalize_spaces_idemp.
  apply String.eqb_refl.
Qed.

End whitespace.

(** ** Core steps: detection and enforcement *)

Section core_steps_more.
Context `{FloatText}.

Lemma anchors_matching_le (cfg : config.Config) (df : DataFrame) :
  (anchors_matching cfg df ≤ 4)%nat.
Proof.
  unfold anchors_matching.
  etrans; [apply List.filter_length_le |]. done.
Qed.

(** X8. Where detection cannot tip: at most four anchors match, so a
    threshold above 4 switches enforcement off; a table with fewer than 8
    rows is never enforced, whatever its first rows hold; and with a
    threshold of 0 or less every enabled table of at least 8 rows with both
    columns is enforced, matching or not. *)
Theorem core_steps_detection_edges (cfg : config.Config) (df : DataFrame) :
  (anchors_matching cfg df ≤ 4)%nat
  ∧ ((length (rows df) < 8)%nat → scanner.check_core_steps_enforcement cfg df = [])
  ∧ ((4 < config.CORE_ANCHOR_MIN_MATCHES cfg)%Z →
     scanner.check_core_steps_enforcement cfg df = [])
  ∧ ((config.CORE_ANCHOR_MIN_MATCHES cfg ≤ 0)%Z →
     config.ENABLE_CORE_STEPS cfg = true →
     "Action" ∈ columns df → "Expected Results" ∈ columns df →
     (8 ≤ length (rows df))%nat →
     scanner.check_core_steps_enforcement cfg df
     = scanner.enforce cfg (scanner.steps_of df)).
Proof.
  pose proof (anchors_matching_le cfg df) as Hle.
  split; [done |]. split; [| split].
  - intros Hlen. unfold scanner.check_core_steps_enforcement.
    rewrite steps_of_length.
    assert ((length (rows df)
             <? foldr Nat.max 0 (map fst (scanner.anchor_step_map cfg)))%nat = true)
      as -> by (apply Nat.ltb_lt; by cbn).
    by repeat case_match.
  - intros Hmin. unfold scanner.check_core_steps_enforcement.
    rewrite match_count_spec.
    assert ((Z.of_nat (anchors_matching cfg df)
             <? config.CORE_ANCHOR_MIN_MATCHES cfg)%Z = true)
      as -> by (apply Z.ltb_lt; lia).
    by repeat case_match.
  - intros Hmin Hon Ha He Hlen.
    rewrite (core_steps_threshold cfg df Hon Ha He Hlen).
    assert ((Z.of_nat (anchors_matching cfg df)
             <? config.CORE_ANCHOR_MIN_MATCHES cfg)%Z = false)
      as -> by (apply Z.ltb_ge; lia).
    done.
Qed.

(** The positions the enforcement loop visits. *)
Lemma elem_of_enforce_range (cfg : config.Config) (steps : list scanner.step) (i : nat) :
  i ∈ seq 0 (Z.to_nat
        (Z.min (Z.min (config.CORE_STEPS_COUNT cfg)
                      (Z.of_nat (length core_steps.CORE_STEPS)))
               (Z.of_nat (length steps))))
  ↔ (Z.of_nat i < config.CORE_STEPS_COUNT cfg)%Z ∧ (i < 8)%nat ∧ (i < length steps)%nat.
Proof.
  rewrite elem_of_seq. change (length core_steps.CORE_STEPS) with 8%nat. lia.
Qed.

Lemma enforce_step_nil (steps : list scanner.step) (i : nat) :
  scanner.enforce_step steps i = []
  ↔ ∀ c s, core_steps.CORE_STEPS !! i = Some c → steps !! i = Some s →
           follows s c = true.
Proof.
  unfold scanner.enforce_step, follows.
  destruct (core_steps.CORE_STEPS !! i) as [c |], (steps !! i) as [s |];
    try (split; [intros _ ? ? ?; congruence | done]).
  split.
  - intros Hnil c0 s0 [= <-] [= <-].
    by destruct (core_steps.steps_match (scanner.action s) (core_steps.action c)),
      (core_steps.steps_match (scanner.expected s) (core_steps.expected c)).
  - intros Hall. specialize (Hall c s eq_refl eq_refl).
    by apply andb_prop in Hall as [-> ->].
Qed.

Lemma flat_map_nil {A B} (f : A → list B) (l : list A) :
  flat_map f l = [] ↔ ∀ x, x ∈ l → f x = [].
Proof.
  induction l as [| x l IH]; simpl.
  - split; [intros _ x Hx; by apply elem_of_nil in Hx | done].
  - split.
    + intros [Hx Hl]%app_eq_nil y [-> | Hy]%elem_of_cons; [done |]. by apply IH.
    + intros Hall. rewrite (Hall x) by (apply elem_of_cons; by left).
      apply IH. intros y Hy. apply Hall. apply elem_of_cons. by right.
Qed.

(** Enforcement is silent exactly when every visited step follows the
    template. *)
Lemma enforce_nil (cfg : config.Config) (steps : list scanner.step) :
  scanner.enforce cfg steps = []
  ↔ ∀ i c s, (Z.of_nat i < config.CORE_STEPS_COUNT cfg)%Z →
             core_steps.CORE_STEPS !! i = Some c → steps !! i = Some s →
             follows s c = true.
Proof.
  unfold scanner.enforce. cbn zeta. rewrite flat_map_nil. split.
  - intros Hall i c s Hi Hc Hs. apply (enforce_step_nil steps i); [| done..].
    apply Hall, elem_of_enforce_range.
    apply lookup_lt_Some in Hc, Hs. change (length core_steps.CORE_STEPS) with 8%nat in Hc.
    lia.
  - intros Hall i [Hi _]%elem_of_enforce_range. apply enforce_step_nil.
    intros c s Hc Hs. by apply (Hall i).
Qed.

(** X10. The enforcement loop reports nothing exactly when each of the
    steps it visits (the first [CORE_STEPS_COUNT], at most eight, that the
    table has) matches the template in its action and in its expected
    result, after whitespace normalisation. *)
Theorem enforce_silent_iff (cfg : config.Config) (steps : list scanner.step) :
  scanner.enforce cfg steps = []
  ↔ ∀ i c s, (Z.of_nat i < config.CORE_STEPS_COUNT cfg)%Z →
             core_steps.CORE_STEPS !! i = Some c → steps !! i = Some s →
             core_steps.steps_match (scanner.action s) (core_steps.action c) = true
             ∧ core_steps.steps_match (scanner.expected s) (core_steps.expected c)
               = true.
Proof.
  rewrite enforce_nil. unfold follows.
  split; intros Hall i c s Hi Hc Hs; specialize (Hall i c s Hi Hc Hs).
  - by apply andb_prop in Hall.
  - by apply andb_true_intro.
Qed.

Lemma elem_of_enforce (cfg : config.Config) (steps : list scanner.step) (e : dict) :
  e ∈ scanner.enforce cfg steps →
  ∃ i c s what want found,
    (Z.of_nat i < config.CORE_STEPS_COUNT cfg)%Z
    ∧ core_steps.CORE_STEPS !! i = Some c ∧ steps !! i = Some s
    ∧ e = scanner.core_issue (Z.of_nat i + 2) (scanner.mismatch_message i what want found).
Proof.
  unfold scanner.enforce. cbn zeta.
  intros He. apply list_elem_of_In, in_flat_map in He as (i & Hi & He).
  apply list_elem_of_In in Hi, He. apply elem_of_enforce_range in Hi as [Hi _].
  unfold scanner.enforce_step in He.
  destruct (core_steps.CORE_STEPS !! i) as [c |] eqn:Hc;
    [| by apply elem_of_nil in He].
  destruct (steps !! i) as [s |] eqn:Hs; [| by apply elem_of_nil in He].
  exists i, c, s.
  apply elem_of_app in He as [He | He];
    (destruct (negb _); [| by apply elem_of_nil in He]);
    apply list_elem_of_singleton in He; eauto 10.
Qed.

Lemma length_enforce_step (steps : list scanner.step) (i : nat) :
  (length (scanner.enforce_step steps i) ≤ 2)%nat.
Proof.
  unfold scanner.enforce_step. repeat case_match; simpl; lia.
Qed.

Lemma length_flat_map_le {A B} (f : A → list B) (l : list A) (n : nat) :
  (∀ x, length (f x) ≤ n)%nat → (length (flat_map f l) ≤ n * length l)%nat.
Proof.
  intros Hf. induction l as [| x l IH]; simpl; [lia |].
  rewrite length_app. specialize (Hf x). lia.
Qed.

Lemma check_core_steps_cases (cfg : config.Config) (df : DataFrame) :
  scanner.check_core_steps_enforcement cfg df = []
  ∨ scanner.check_core_steps_enforcement cfg df
    = scanner.enforce cfg (scanner.steps_of df).
Proof.
  unfold scanner.check_core_steps_enforcement. repeat case_match; auto.
Qed.

Lemma enforce_step_row (steps : list scanner.step) (i : nat) (e : dict) :
  e ∈ scanner.enforce_step steps i →
  dict_get e "excel_row" = Some (VInt (Z.of_nat i + 2)).
Proof.
  unfold scanner.enforce_step. intros He.
  repeat case_match;
    repeat match goal with
    | H : _ ∈ _ ++ _ |- _ => apply elem_of_app in H as [H | H]
    | H : _ ∈ [] |- _ => by apply elem_of_nil in H
    | H : _ ∈ [_] |- _ => apply list_elem_of_singleton in H; subst
    end; done.
Qed.

Lemma filter_enforce_steps (steps : list scanner.step) (i a n : nat) :
  List.filter (λ e, bool_decide (dict_get e "excel_row" = Some (VInt (Z.of_nat i + 2))))
    (flat_map (scanner.enforce_step steps) (seq a n))
  = if bool_decide (a ≤ i < a + n)%nat then scanner.enforce_step steps i else [].
Proof.
  revert a. induction n as [| n IH]; intros a.
  - simpl. rewrite bool_decide_eq_false_2 by lia. done.
  - cbn [seq flat_map]. rewrite List.filter_app, IH.
    destruct (decide (a = i)) as [-> | Hne].
    + rewrite filter_all
        by (intros e He; apply bool_decide_eq_true_2; by eapply enforce_step_row).
      rewrite (bool_decide_eq_false_2 (S i ≤ i < S i + n)%nat) by lia.
      rewrite (bool_decide_eq_true_2 (i ≤ i < i + S n)%nat) by lia.
      by rewrite app_nil_r.
    + rewrite filter_none.
      * cbn [app]. by repeat case_bool_decide; first [done | lia].
      * intros e He. apply bool_decide_eq_false_2.
        rewrite (enforce_step_row steps a e He). intros [= Heq]. lia.
Qed.

(** X9. Every core-steps issue is a WARNING on the Excel row of one of the
    first eight rows of the table, each row gets at most two of them (its
    action, its expected result), and there are at most sixteen. *)
Theorem core_issues_shape (cfg : config.Config) (df : DataFrame) :
  Forall (λ e, ∃ (i : nat) (r : row),
            rows df !! i = Some r ∧ (i < 8)%nat
            ∧ (Z.of_nat i < config.CORE_STEPS_COUNT cfg)%Z
            ∧ dict_get e "excel_row" = Some (VInt (Z.of_nat i + 2))
            ∧ dict_get e "severity" = Some (VStr "WARNING")
            ∧ main.extract_severity (ErrDict e) = "WARNING")
         (scanner.check_core_steps_enforcement cfg df)
  ∧ (∀ i : nat,
       length (List.filter
                 (λ e, bool_decide (dict_get e "excel_row" = Some (VInt (Z.of_nat i + 2))))
                 (scanner.check_core_steps_enforcement cfg df)) ≤ 2)%nat
  ∧ (length (scanner.check_core_steps_enforcement cfg df) ≤ 16)%nat.
Proof.
  destruct (check_core_steps_cases cfg df) as [-> | ->].
  { split; [constructor |]. split; [intros i |]; simpl; lia. }
  split; [| split].
  - apply Forall_forall. intros e He.
    apply elem_of_enforce in He as (i & c & s & what & want & found & Hi & Hc & Hs & ->).
    rewrite steps_of_lookup in Hs.
    destruct (rows df !! i) as [r |] eqn:Hr; [| done].
    exists i, r. apply lookup_lt_Some in Hc.
    change (length core_steps.CORE_STEPS) with 8%nat in Hc.
    repeat split; first [done | by vm_compute].
  - intros i. unfold scanner.enforce. cbn zeta. rewrite filter_enforce_steps.
    case_bool_decide; [apply length_enforce_step | simpl; lia].
  - unfold scanner.enforce. cbn zeta.
    etrans; [apply (length_flat_map_le _ _ 2), length_enforce_step |].
    rewrite length_seq. change (length core_steps.CORE_STEPS) with 8%nat. lia.
Qed.

(** An anchor on a row that follows the template matches exactly when its
    text matches the template's action at that position. *)
Lemma anchor_matches_follows (df : DataFrame) (i : nat) (c : core_steps.CoreStep)
    (s : scanner.step) (text : string) :
  scanner.steps_of df !! i = Some s →
  core_steps.steps_match (scanner.action s) (core_steps.action c) = true →
  anchor_matches df (S i, text)
  = negb (String.eqb text "")
    && String.eqb (core_steps.normalize_spaces (core_steps.action c))
                  (core_steps.normalize_spaces text).
Proof.
  intros Hs Hm. unfold anchor_matches. cbn [fst snd].
  replace (S i - 1)%nat with i by lia.
  rewrite steps_of_lookup in Hs.
  destruct (rows df !! i) as [r |]; [| done]. injection Hs as <-.
  cbn [scanner.action] in Hm. unfold core_steps.steps_match in Hm.
  apply String.eqb_eq in Hm. by rewrite Hm.
Qed.

(** X4. A table of at least eight rows whose first eight steps follow the
    template is detected, with the shipped settings, through the anchors of
    steps 3 and 4 only: the anchor texts configured for steps 5 and 8 differ
    from the template's actions at those steps.  Enforcement runs and
    reports nothing. *)
Theorem template_matches_two_anchors (df : DataFrame) :
  "Action" ∈ columns df → "Expected Results" ∈ columns df →
  (8 ≤ length (rows df))%nat →
  (∀ i c s, core_steps.CORE_STEPS !! i = Some c → scanner.steps_of df !! i = Some s →
            core_steps.steps_match (scanner.action s) (core_steps.action c) = true
            ∧ core_steps.steps_match (scanner.expected s) (core_steps.expected c)
              = true) →
  List.filter (anchor_matches df) (scanner.anchor_step_map config.shipped)
  = [ (3%nat, "Enter PIN and hit Enter"); (4%nat, "Click OK button") ]
  ∧ anchors_matching config.shipped df = 2%nat
  ∧ scanner.check_core_steps_enforcement config.shipped df = [].
Proof.
  intros Ha He Hlen Hall.
  assert (∀ i c text, core_steps.CORE_STEPS !! i = Some c →
            anchor_matches df (S i, text)
            = negb (String.eqb text "")
              && String.eqb (core_steps.normalize_spaces (core_steps.action c))
                            (core_steps.normalize_spaces text)) as Hanchor.
  { intros i c text Hc.
    destruct (lookup_lt_is_Some_2 (scanner.steps_of df) i) as [s Hs].
    { rewrite steps_of_length. apply lookup_lt_Some in Hc.
      change (length core_steps.CORE_STEPS) with 8%nat in Hc. lia. }
    apply (anchor_matches_follows df i c s text Hs).
    by destruct (Hall i c s Hc Hs). }
  assert (List.filter (anchor_matches df) (scanner.anchor_step_map config.shipped)
          = [ (3%nat, "Enter PIN and hit Enter"); (4%nat, "Click OK button") ]) as Hf.
  { unfold scanner.anchor_step_map. cbn [List.filter config.shipped
      config.CORE_ANCHOR_STEP_3_ACTION config.CORE_ANCHOR_STEP_4_ACTION
      config.CORE_ANCHOR_STEP_5_ACTION config.CORE_ANCHOR_STEP_8_ACTION].
    rewrite (Hanchor 2%nat _ _ eq_refl), (Hanchor 3%nat _ _ eq_refl),
      (Hanchor 4%nat _ _ eq_refl), (Hanchor 7%nat _ _ eq_refl).
    by vm_compute. }
  assert (anchors_matching config.shipped df = 2%nat) as Hn
    by (unfold anchors_matching; by rewrite Hf).
  split; [done |]. split; [done |].
  rewrite (core_steps_threshold config.shipped df eq_refl Ha He Hlen), Hn.
  change ((Z.of_nat 2 <? config.CORE_ANCHOR_MIN_MATCHES config.shipped)%Z) with false.
  cbn match. apply enforce_nil. intros i c s _ Hc Hs. unfold follows.
  destruct (Hall i c s Hc Hs) as [-> ->]. done.
Qed.

Lemma step_dict_action (s : scanner.step) :
  core_steps.step_get (step_dict s) "action" = scanner.action s.
Proof. done. Qed.

(** X7. The two-anchor test of [is_standard_case] is subsumed by the
    scanner's detection: when it holds of the scanner's steps with the
    configured anchors of steps 3 and 4, neither of them empty, the table has
    four rows, both anchors match in the scanner's count, and so at least two
    anchors match; with a threshold of at most 2 the enabled scanner then
    enforces every such table of eight rows. *)
Theorem standard_case_detected (cfg : config.Config) (df : DataFrame) :
  core_steps.is_standard_case (map step_dict (scanner.steps_of df))
    (config.CORE_ANCHOR_STEP_3_ACTION cfg) (config.CORE_ANCHOR_STEP_4_ACTION cfg) = true →
  config.CORE_ANCHOR_STEP_3_ACTION cfg ≠ "" →
  config.CORE_ANCHOR_STEP_4_ACTION cfg ≠ "" →
  (4 ≤ length (rows df))%nat
  ∧ anchor_matches df (3%nat, config.CORE_ANCHOR_STEP_3_ACTION cfg) = true
  ∧ anchor_matches df (4%nat, config.CORE_ANCHOR_STEP_4_ACTION cfg) = true
  ∧ (2 ≤ anchors_matching cfg df)%nat
  ∧ (config.ENABLE_CORE_STEPS cfg = true →
     "Action" ∈ columns df → "Expected Results" ∈ columns df →
     (8 ≤ length (rows df))%nat →
     (config.CORE_ANCHOR_MIN_MATCHES cfg ≤ 2)%Z →
     scanner.check_core_steps_enforcement cfg df
     = scanner.enforce cfg (scanner.steps_of df)).
Proof.
  intros Hstd Ha3 Ha4. unfold core_steps.is_standard_case in Hstd.
  rewrite length_map, steps_of_length in Hstd.
  destruct (length (rows df) <? 4)%nat eqn:Hlen; [done |].
  apply Nat.ltb_ge in Hlen.
  rewrite !list_lookup_fmap, !steps_of_lookup in Hstd.
  destruct (rows df !! 2%nat) as [r3 |] eqn:Hr3; [| done].
  destruct (rows df !! 3%nat) as [r4 |] eqn:Hr4; [| done].
  cbn [fmap option_fmap option_map] in Hstd.
  rewrite !step_dict_action in Hstd. cbn [scanner.action] in Hstd.
  apply andb_prop in Hstd as [H3 H4].
  assert (anchor_matches df (3%nat, config.CORE_ANCHOR_STEP_3_ACTION cfg) = true) as Hm3.
  { unfold anchor_matches. cbn [fst snd Nat.sub]. rewrite Hr3, H3.
    by rewrite eqb_empty_false. }
  assert (anchor_matches df (4%nat, config.CORE_ANCHOR_STEP_4_ACTION cfg) = true) as Hm4.
  { unfold anchor_matches. cbn [fst snd Nat.sub]. rewrite Hr4, H4.
    by rewrite eqb_empty_false. }
  assert (2 ≤ anchors_matching cfg df)%nat as Hn.
  { unfold anchors_matching, scanner.anchor_step_map. cbn [List.filter].
    rewrite Hm3, Hm4. repeat case_match; simpl; lia. }
  repeat split; try done.
  intros Hon Hca Hce Hlen8 Hmin.
  rewrite (core_steps_threshold cfg df Hon Hca Hce Hlen8).
  assert ((Z.of_nat (anchors_matching cfg df)
           <? config.CORE_ANCHOR_MIN_MATCHES cfg)%Z = false)
    as -> by (apply Z.ltb_ge; lia).
  done.
Qed.

End core_steps_more.

(** ** Grouping *)

Section grouping_facts.
Context {K V : Type} (eqb : K → K → bool).
Hypothesis eqb_eq : ∀ a b, eqb a b = true ↔ a = b.

Lemma eqb_refl_true (a : K) : eqb a a = true.
Proof. by apply eqb_eq. Qed.

Lemma eqb_false_ne (a b : K) : eqb a b = false ↔ a ≠ b.
Proof.
  rewrite <- eqb_eq. by destruct (eqb a b).
Qed.

Lemma group_lookup_add (d : list (K * list V)) (k k' : K) (v : V) :
  group_lookup eqb (group_add eqb d k v) k'
  = if eqb k k' then group_lookup eqb d k ++ [v] else group_lookup eqb d k'.
Proof.
  induction d as [| [k0 vs] d IH]; simpl.
  { by destruct (eqb k k'). }
  destruct (eqb k0 k) eqn:E0; simpl.
  - apply eqb_eq in E0 as ->. by destruct (eqb k k').
  - rewrite IH. destruct (eqb k0 k') eqn:E1; [| done].
    apply eqb_eq in E1 as ->. apply eqb_false_ne in E0.
    destruct (eqb k k') eqn:E2; [| done]. apply eqb_eq in E2. congruence.
Qed.

Lemma group_keys_add (d : list (K * list V)) (k : K) (v : V) :
  map fst (group_add eqb d k v)
  = if existsb (λ k', eqb k' k) (map fst d) then map fst d else map fst d ++ [k].
Proof.
  induction d as [| [k0 vs] d IH]; simpl; [done |].
  destruct (eqb k0 k); simpl; [done |]. rewrite IH. by destruct (existsb _ _).
Qed.

Lemma existsb_eqb (k : K) (l : list K) :
  existsb (λ k', eqb k' k) l = true ↔ k ∈ l.
Proof.
  rewrite existsb_exists. split.
  - intros (k' & Hin & ->%eqb_eq). by apply list_elem_of_In.
  - intros Hin. exists k. split; [by apply list_elem_of_In | apply eqb_refl_true].
Qed.

Lemma group_keys_add_NoDup (d : list (K * list V)) (k : K) (v : V) :
  NoDup (map fst d) → NoDup (map fst (group_add eqb d k v)).
Proof.
  intros Hd. rewrite group_keys_add.
  destruct (existsb _ _) eqn:E; [done |].
  apply NoDup_app. split; [done |]. split; [| apply NoDup_singleton].
  intros x Hx ->%list_elem_of_singleton.
  apply existsb_eqb in Hx. congruence.
Qed.

Lemma elem_of_group_keys_add (d : list (K * list V)) (k k' : K) (v : V) :
  k' ∈ map fst (group_add eqb d k v) ↔ k' ∈ map fst d ∨ k' = k.
Proof.
  rewrite group_keys_add. destruct (existsb _ _) eqn:E.
  - apply existsb_eqb in E. split; [by left | by intros [? | ->]].
  - rewrite elem_of_app, list_elem_of_singleton. done.
Qed.

(** The fold of the source over the items [l], each item [x] going under
    [kf x] with the value [vf x]. *)
Section fold.
Context {A : Type} (kf : A → K) (vf : A → V).

Lemma group_fold_lookup (l : list A) (d : list (K * list V)) (k : K) :
  group_lookup eqb (foldl (λ d x, group_add eqb d (kf x) (vf x)) d l) k
  = group_lookup eqb d k ++ map vf (List.filter (λ x, eqb (kf x) k) l).
Proof.
  revert d. induction l as [| x l IH]; intros d; simpl.
  { by rewrite app_nil_r. }
  rewrite IH, group_lookup_add. destruct (eqb (kf x) k) eqn:E; simpl.
  - apply eqb_eq in E as <-. by rewrite <- app_assoc.
  - done.
Qed.

Lemma group_fold_NoDup (l : list A) (d : list (K * list V)) :
  NoDup (map fst d) →
  NoDup (map fst (foldl (λ d x, group_add eqb d (kf x) (vf x)) d l)).
Proof.
  revert d. induction l as [| x l IH]; intros d Hd; simpl; [done |].
  by apply IH, group_keys_add_NoDup.
Qed.

Lemma elem_of_group_fold_keys (l : list A) (d : list (K * list V)) (k : K) :
  k ∈ map fst (foldl (λ d x, group_add eqb d (kf x) (vf x)) d l)
  ↔ k ∈ map fst d ∨ k ∈ map kf l.
Proof.
  revert d. induction l as [| x l IH]; intros d; simpl.
  - split; [by left | intros [? | Hk]; [done | by apply elem_of_nil in Hk]].
  - rewrite IH, elem_of_group_keys_add, elem_of_cons. naive_solver.
Qed.

End fold.

(** With distinct keys an entry is its key and what the lookup gives. *)
Lemma elem_of_group (d : list (K * list V)) (k : K) (vs : list V) :
  NoDup (map fst d) →
  (k, vs) ∈ d ↔ k ∈ map fst d ∧ group_lookup eqb d k = vs.
Proof.
  induction d as [| [k0 vs0] d IH]; intros Hd.
  { split; [by intros ?%elem_of_nil | by intros [?%elem_of_nil _]]. }
  simpl in Hd. apply NoDup_cons in Hd as [Hk0 Hd]. simpl.
  rewrite !elem_of_cons, (IH Hd). destruct (eqb k0 k) eqn:E.
  - apply eqb_eq in E as ->. split.
    + intros [Heq | [Hk _]]; [| done]. simplify_eq. split; [by left | done].
    + intros [_ ->]. by left.
  - apply eqb_false_ne in E. split.
    + intros [Heq | [Hk Hl]]; [by simplify_eq | by split; [right |]].
    + intros [[-> | Hk] Hl]; [done | by right].
Qed.

End grouping_facts.

(** ** Step numbering: what a group is reported for *)

Section step_numbering_more.
Context `{FloatText}.

Lemma step_setdefault_append (d : list (Z * list Z)) (k r : Z) :
  step_numbering.setdefault_append d k r = group_add Z.eqb d k r.
Proof. induction d as [| [k' rs] d IH]; simpl; [done |]. by rewrite IH. Qed.

Lemma fold_setdefault_append (l : list (Z * Z)) (d : list (Z * list Z)) :
  foldl (λ d p, step_numbering.setdefault_append d p.2 p.1) d l
  = foldl (λ d p, group_add Z.eqb d (snd p) (fst p)) d l.
Proof.
  revert d. induction l as [| p l IH]; intros d; simpl; [done |].
  by rewrite step_setdefault_append, IH.
Qed.

(** The dictionary [step_to_rows] after the loop over the rows: its keys are
    the valid step numbers, each once, and a step has the rows that carry
    it, in row order. *)
Lemma step_to_rows_spec (tc_id : value) (group : list (Z * row)) :
  let d := step_numbering.step_to_rows
             (foldl (step_numbering.scan_row tc_id) step_numbering.group_init group) in
  NoDup (map fst d)
  ∧ (∀ k, k ∈ map fst d ↔ k ∈ step_numbers group)
  ∧ (∀ k, group_lookup Z.eqb d k
          = map fst (List.filter (λ p, (p.2 =? k)%Z) (valid_steps group))).
Proof.
  rewrite scan_rows_result. cbn [step_numbering.step_to_rows].
  rewrite fold_setdefault_append. cbn zeta. split; [| split].
  - apply (group_fold_NoDup Z.eqb Z.eqb_eq). constructor.
  - intros k. rewrite (elem_of_group_fold_keys Z.eqb Z.eqb_eq).
    split; [intros [?%elem_of_nil | ?] | right]; done.
  - intros k. by rewrite (group_fold_lookup Z.eqb Z.eqb_eq).
Qed.

Lemma cell_errors_nil (tc_id : value) (group : list (Z * row)) :
  cell_errors tc_id group = []
  ↔ Forall (λ ir, is_Some (common.to_int_step (raw_step ir))) group.
Proof.
  unfold cell_errors. rewrite flat_map_nil, Forall_forall.
  split; intros Hall ir Hir; specialize (Hall ir Hir).
  - by destruct (common.to_int_step (raw_step ir)).
  - by destruct Hall as [s ->].
Qed.

Lemma valid_steps_all (group : list (Z * row)) :
  Forall (λ ir, is_Some (common.to_int_step (raw_step ir))) group →
  valid_steps group = [] → group = [].
Proof.
  intros Hall. destruct group as [| ir group]; [done |].
  apply Forall_cons in Hall as [[s Hs] _].
  unfold valid_steps. rewrite omap_cons_eq, Hs. done.
Qed.

(** A list has distinct images exactly when no image is taken twice. *)
Lemma NoDup_fmap_count {A} (f : A → Z) (l : list A) :
  NoDup (map f l)
  ↔ ∀ k, (length (List.filter (λ x, (f x =? k)%Z) l) ≤ 1)%nat.
Proof.
  induction l as [| x l IH]; simpl.
  { split; [intros _ k; lia | constructor]. }
  rewrite NoDup_cons, IH. split.
  - intros [Hx Hl] k. destruct (f x =? k)%Z eqn:E; [| done].
    apply Z.eqb_eq in E as <-. simpl.
    rewrite filter_none; [simpl; lia |].
    intros y Hy. apply Z.eqb_neq. intros Heq. apply Hx.
    rewrite <- Heq. apply (list_elem_of_fmap_2 f). done.
  - intros Hall. split.
    + intros (y & Hfy & Hy)%list_elem_of_fmap. specialize (Hall (f x)).
      rewrite Z.eqb_refl in Hall. simpl in Hall.
      assert (y ∈ List.filter (λ x0, (f x0 =? f x)%Z) l) as Hin.
      { apply list_elem_of_In, filter_In. split; [by apply list_elem_of_In |].
        apply Z.eqb_eq. done. }
      destruct (List.filter _ l); [by apply elem_of_nil in Hin | simpl in Hall; lia].
    + intros k. specialize (Hall k). destruct (f x =? k)%Z; simpl in Hall; lia.
Qed.

Lemma duplicate_errors_nil (tc_id : value) (group : list (Z * row)) :
  step_numbering.duplicate_errors tc_id
    (step_numbering.step_to_rows
       (foldl (step_numbering.scan_row tc_id) step_numbering.group_init group)) = []
  ↔ NoDup (step_numbers group).
Proof.
  destruct (step_to_rows_spec tc_id group) as (Hnd & Hkeys & Hlook).
  cbn zeta in *.
  set (d := step_numbering.step_to_rows _) in *.
  unfold step_numbering.duplicate_errors, step_numbers.
  rewrite flat_map_nil, NoDup_fmap_count. split.
  - intros Hall k.
    destruct (decide (k ∈ map fst d)) as [Hk | Hk].
    + specialize (Hall (k, group_lookup Z.eqb d k)). cbn beta iota in Hall.
      rewrite <- (length_map fst), <- Hlook.
      destruct (1 <? length (group_lookup Z.eqb d k))%nat eqn:E.
      * apply Nat.ltb_lt in E.
        assert (group_lookup Z.eqb d k = []) as Hnil.
        { apply (f_equal length) in Hall; [| by apply (elem_of_group Z.eqb Z.eqb_eq)].
          rewrite length_map in Hall. by destruct (group_lookup Z.eqb d k). }
        rewrite Hnil in E. simpl in E. lia.
      * apply Nat.ltb_ge in E. done.
    + rewrite filter_none; [simpl; lia |].
      intros p Hp. apply Z.eqb_neq. intros <-. apply Hk, Hkeys.
      apply (list_elem_of_fmap_2 snd). done.
  - intros Hall [k rs] Hin.
    apply (elem_of_group Z.eqb Z.eqb_eq) in Hin as [_ <-]; [| done].
    rewrite Hlook, length_map.
    specialize (Hall k). destruct (1 <? _)%nat eqn:E; [| done].
    apply Nat.ltb_lt in E. lia.
Qed.

Lemma list_max_spec (v : Z) (vs : list Z) :
  (∀ x, x ∈ v :: vs → (x ≤ step_numbering.list_max v vs)%Z)
  ∧ step_numbering.list_max v vs ∈ v :: vs.
Proof.
  unfold step_numbering.list_max. revert v.
  induction vs as [| y vs IH]; intros v; simpl.
  { split; [intros x ->%list_elem_of_singleton; lia | by apply list_elem_of_singleton]. }
  destruct (IH (Z.max v y)) as [Hle Hin]. split.
  - intros x [-> | [-> | Hx]%elem_of_cons]%elem_of_cons.
    + etrans; [| apply Hle, elem_of_cons; by left]. lia.
    + etrans; [| apply Hle, elem_of_cons; by left]. lia.
    + apply Hle, elem_of_cons. by right.
  - apply elem_of_cons in Hin as [Hin | Hin].
    + rewrite Hin. destruct (Z.max_spec v y) as [[_ ->] | [_ ->]];
        rewrite !elem_of_cons; auto.
    + rewrite !elem_of_cons. auto.
Qed.

Lemma list_min_spec (v : Z) (vs : list Z) :
  (∀ x, x ∈ v :: vs → (step_numbering.list_min v vs ≤ x)%Z)
  ∧ step_numbering.list_min v vs ∈ v :: vs.
Proof.
  unfold step_numbering.list_min. revert v.
  induction vs as [| y vs IH]; intros v; simpl.
  { split; [intros x ->%list_elem_of_singleton; lia | by apply list_elem_of_singleton]. }
  destruct (IH (Z.min v y)) as [Hle Hin]. split.
  - intros x [-> | [-> | Hx]%elem_of_cons]%elem_of_cons.
    + etrans; [apply Hle, elem_of_cons; by left |]. lia.
    + etrans; [apply Hle, elem_of_cons; by left |]. lia.
    + apply Hle, elem_of_cons. by right.
  - apply elem_of_cons in Hin as [Hin | Hin].
    + rewrite Hin. destruct (Z.min_spec v y) as [[_ ->] | [_ ->]];
        rewrite !elem_of_cons; auto.
    + rewrite !elem_of_cons. auto.
Qed.

(** [sorted(set(range(1, max_step + 1)) - set(valid_steps))]: the numbers
    from 1 to [max_step] that are no valid step, ascending, each once. *)
Lemma missing_steps_spec (max_step : Z) (valid : list Z) :
  (∀ k, k ∈ step_numbering.missing_steps max_step valid
        ↔ (1 ≤ k ≤ max_step)%Z ∧ k ∉ valid)
  ∧ Sorted Z.le (step_numbering.missing_steps max_step valid)
  ∧ NoDup (step_numbering.missing_steps max_step valid).
Proof.
  unfold step_numbering.missing_steps. split; [| split].
  - intros k. rewrite merge_sort_Permutation, elem_of_elements, elem_of_difference,
      !elem_of_list_to_set, list_elem_of_fmap.
    split.
    + intros [(n & -> & Hn%elem_of_seq) Hk]. split; [lia | done].
    + intros [Hk Hv]. split; [| done]. exists (Z.to_nat k).
      split; [lia | apply elem_of_seq; lia].
  - apply (Sorted_merge_sort Z.le).
  - rewrite merge_sort_Permutation. apply NoDup_elements.
Qed.

Lemma merge_sort_nil {A} (R : relation A) `{∀ x y, Decision (R x y)} (l : list A) :
  merge_sort R l = [] ↔ l = [].
Proof.
  split; [| by intros ->].
  intros Hnil. apply Permutation_nil_r. rewrite <- Hnil.
  by rewrite merge_sort_Permutation.
Qed.

(** The valid steps as the rule sorts them. *)
Lemma elem_of_sorted_keys (tc_id : value) (group : list (Z * row)) (k : Z) :
  k ∈ merge_sort Z.le
        (map fst (step_numbering.step_to_rows
           (foldl (step_numbering.scan_row tc_id) step_numbering.group_init group)))
  ↔ k ∈ step_numbers group.
Proof.
  destruct (step_to_rows_spec tc_id group) as (_ & Hkeys & _).
  by rewrite merge_sort_Permutation, <- Hkeys.
Qed.

(** The missing-step error of a group with a valid step: none when every
    number from 1 to the largest valid step is a valid step; otherwise one
    error, on the smallest Excel row of the group, that lists the absent
    numbers. *)
Lemma missing_errors_spec (tc_id : value) (group : list (Z * row)) :
  valid_steps group ≠ [] →
  ∃ (top first_row : Z) (missing : list Z),
    top ∈ step_numbers group
    ∧ (∀ s, s ∈ step_numbers group → (s ≤ top)%Z)
    ∧ first_row ∈ map row_num group
    ∧ (∀ r, r ∈ map row_num group → (first_row ≤ r)%Z)
    ∧ (∀ k, k ∈ missing ↔ (1 ≤ k ≤ top)%Z ∧ k ∉ step_numbers group)
    ∧ Sorted Z.le missing ∧ NoDup missing
    ∧ step_numbering.missing_errors tc_id
        (foldl (step_numbering.scan_row tc_id) step_numbering.group_init group)
      = match missing with
        | [] => []
        | _ :: _ =>
            [ step_numbering.error_item first_row
                (step_numbering.missing_message tc_id missing) ]
        end.
Proof.
  intros Hne. unfold step_numbering.missing_errors.
  pose proof (elem_of_sorted_keys tc_id group) as Hkeys.
  destruct (merge_sort Z.le _) as [| v vs] eqn:Hsorted.
  { destruct (valid_steps group) as [| p sio] eqn:Hsio; [done |].
    exfalso. apply (elem_of_nil p.2), Hkeys. unfold step_numbers. rewrite Hsio.
    apply elem_of_cons. by left. }
  rewrite scan_rows_result. cbn [step_numbering.group_rows].
  destruct group as [| ir group]; [done |]. cbn [map].
  destruct (list_max_spec v vs) as [Hmax_le Hmax_in].
  destruct (list_min_spec (row_num ir) (map row_num group)) as [Hmin_le Hmin_in].
  destruct (missing_steps_spec (step_numbering.list_max v vs) (v :: vs))
    as (Hmiss & Hsort & Hnd).
  exists (step_numbering.list_max v vs),
    (step_numbering.list_min (row_num ir) (map row_num group)),
    (step_numbering.missing_steps (step_numbering.list_max v vs) (v :: vs)).
  split; [by apply Hkeys |].
  split; [intros s Hs; by apply Hmax_le, Hkeys |].
  split; [done |]. split; [done |].
  split; [intros k; by rewrite Hmiss, Hkeys |].
  split; [done |]. split; [done |]. done.
Qed.

Lemma missing_errors_nil (tc_id : value) (group : list (Z * row)) :
  valid_steps group ≠ [] →
  step_numbering.missing_errors tc_id
    (foldl (step_numbering.scan_row tc_id) step_numbering.group_init group) = []
  ↔ ∀ k m, m ∈ step_numbers group → (1 ≤ k ≤ m)%Z → k ∈ step_numbers group.
Proof.
  intros Hne.
  destruct (missing_errors_spec tc_id group Hne)
    as (top & first_row & missing & Htop & Hle & _ & _ & Hmiss & _ & _ & ->).
  split.
  - intros Hnil k m Hm Hk. destruct missing as [| x missing]; [| done].
    destruct (decide (k ∈ step_numbers group)) as [| Hnot]; [done |].
    exfalso. apply (elem_of_nil k), Hmiss. split; [| done].
    specialize (Hle m Hm). lia.
  - intros Hall. destruct missing as [| x missing]; [done |]. exfalso.
    destruct (proj1 (Hmiss x)) as [Hx Hnot]; [apply elem_of_cons; by left |].
    apply Hnot, (Hall x top); done.
Qed.

Lemma order_errors_nil (sio : list (Z * Z)) :
  step_numbering.order_errors sio = [] ↔ ∀ i, ¬ decrease_at sio i.
Proof.
  split; [| apply order_errors_none].
  unfold step_numbering.order_errors. destruct sio as [| [r0 s0] sio].
  { intros _ i (p & q & Hp & _). done. }
  destruct (step_numbering.first_decrease s0 sio) eqn:E; [done |].
  intros _. by apply first_decrease_None.
Qed.

Lemma decrease_at_cons (p : Z * Z) (sio : list (Z * Z)) (i : nat) :
  decrease_at (p :: sio) (S i) ↔ decrease_at sio i.
Proof. done. Qed.

Lemma decrease_at_head (p q : Z * Z) (sio : list (Z * Z)) :
  decrease_at (p :: q :: sio) 0 ↔ (q.2 < p.2)%Z.
Proof.
  unfold decrease_at. simpl. split.
  - by intros (p' & q' & [= <-] & [= <-] & Hlt).
  - intros Hlt. by exists p, q.
Qed.

(** No valid step twice and none below its predecessor: the valid steps
    ascend strictly. *)
Lemma strictly_ascending (sio : list (Z * Z)) :
  NoDup (map snd sio) ∧ (∀ i, ¬ decrease_at sio i) ↔ Sorted Z.lt (map snd sio).
Proof.
  split.
  - induction sio as [| p sio IH]; intros [Hnd Hdec]; simpl; [constructor |].
    simpl in Hnd. apply NoDup_cons in Hnd as [Hp Hnd].
    constructor.
    + apply IH. split; [done |]. intros i Hi. by apply (Hdec (S i)), decrease_at_cons.
    + destruct sio as [| q sio]; simpl; constructor.
      assert (¬ (q.2 < p.2)%Z) as Hge
        by (intros Hlt; by apply (Hdec 0%nat), decrease_at_head).
      assert (p.2 ≠ q.2) as Hneq
        by (intros Heq; apply Hp; simpl; rewrite Heq; apply elem_of_cons; by left).
      lia.
  - intros Hs. apply (Sorted_StronglySorted Z.lt) in Hs.
    induction sio as [| p sio IH]; simpl in *.
    { split; [constructor | intros i (p & q & Hp & _); done]. }
    apply StronglySorted_inv in Hs as [Hs Hall].
    destruct (IH Hs) as [Hnd Hdec]. split.
    + apply NoDup_cons. split; [| done].
      intros Hin. rewrite Forall_forall in Hall. specialize (Hall _ Hin). lia.
    + intros [| i]; [| by rewrite decrease_at_cons].
      destruct sio as [| q sio]; [intros (p' & q' & _ & Hq & _); done |].
      rewrite decrease_at_head. simpl in Hall.
      apply Forall_cons in Hall as [Hlt _]. lia.
Qed.

(** X11. A group of rows passes the step-numbering rule without any issue
    exactly when every Step # cell is a valid number, the numbers ascend
    strictly in row order, and every number from 1 up to a step of the group
    is itself a step of the group.  Numbers below 1 are accepted: the rule
    only looks for gaps between 1 and the largest step. *)
Theorem step_numbering_accepts (tc_id : value) (group : list (Z * row)) :
  step_numbering.check_group tc_id group = []
  ↔ Forall (λ ir, is_Some (common.to_int_step (raw_step ir))) group
    ∧ Sorted Z.lt (step_numbers group)
    ∧ ∀ k m, m ∈ step_numbers group → (1 ≤ k ≤ m)%Z → k ∈ step_numbers group.
Proof.
  rewrite check_group_unfold. cbn zeta.
  assert (Sorted Z.lt (step_numbers group)
          ↔ NoDup (step_numbers group) ∧ ∀ i, ¬ decrease_at (valid_steps group) i)
    as Hasc by (symmetry; apply strictly_ascending).
  rewrite Hasc. clear Hasc.
  destruct (valid_steps group) as [| p sio] eqn:Hsio.
  { rewrite app_nil_r, cell_errors_nil. unfold step_numbers. rewrite Hsio.
    split; [| by intros [? _]]. intros Hall. split; [done |].
    split; [split; [constructor | intros i (p & q & Hp & _); done] |].
    intros k m Hm. by apply elem_of_nil in Hm. }
  assert (valid_steps group ≠ []) as Hne by by rewrite Hsio.
  rewrite <- Hsio.
  rewrite <- (duplicate_errors_nil tc_id), <- (order_errors_nil (valid_steps group)),
    <- (missing_errors_nil tc_id group Hne), <- cell_errors_nil.
  split.
  - intros [Hc Hd]%app_eq_nil.
    apply app_eq_nil in Hd as [Hd Hm]. apply app_eq_nil in Hm as [Hm Ho].
    done.
  - intros (-> & [-> ->] & ->). done.
Qed.

(** X12. When a group has a valid step, its check for missing steps gives
    no error when every number from 1 to the largest valid step is a valid
    step of the group; otherwise it gives exactly one error, on the smallest
    Excel row of the group, whose list holds the absent numbers from 1 to
    the largest valid step, ascending and each once. *)
Theorem missing_steps_listed (tc_id : value) (group : list (Z * row)) :
  valid_steps group ≠ [] →
  ∃ (top first_row : Z) (missing : list Z),
    top ∈ step_numbers group
    ∧ (∀ s, s ∈ step_numbers group → (s ≤ top)%Z)
    ∧ first_row ∈ map row_num group
    ∧ (∀ r, r ∈ map row_num group → (first_row ≤ r)%Z)
    ∧ (∀ k, k ∈ missing ↔ (1 ≤ k ≤ top)%Z ∧ k ∉ step_numbers group)
    ∧ Sorted Z.le missing ∧ NoDup missing
    ∧ step_numbering.missing_errors tc_id
        (foldl (step_numbering.scan_row tc_id) step_numbering.group_init group)
      = match missing with
        | [] => []
        | _ :: _ =>
            [ step_numbering.error_item first_row
                (step_numbering.missing_message tc_id missing) ]
        end.
Proof. apply missing_errors_spec. Qed.

Lemma length_append (a b : string) :
  String.length (a +:+ b) = (String.length a + String.length b)%nat.
Proof. induction a as [| c a IH]; [done |]. rewrite append_cons. simpl. by rewrite IH. Qed.

Lemma append_inv_tail (a b t : string) : a +:+ t = b +:+ t → a = b.
Proof.
  revert b. induction a as [| c a IH]; intros [| c' b] Heq; [done | | |].
  - apply (f_equal String.length) in Heq. rewrite !length_append in Heq.
    simpl in Heq. lia.
  - apply (f_equal String.length) in Heq. rewrite !length_append in Heq.
    simpl in Heq. lia.
  - rewrite !append_cons in Heq. injection Heq as -> Heq. by rewrite (IH b Heq).
Qed.

Lemma duplicate_message_inj (s s' : Z) (tc_id : value) :
  step_numbering.duplicate_message s tc_id = step_numbering.duplicate_message s' tc_id →
  s = s'.
Proof.
  unfold step_numbering.duplicate_message.
  intros Heq. apply String.app_inj, append_inv_tail in Heq.
  by apply pretty_Z_inj.
Qed.

Lemma error_item_inj (r r' : Z) (m m' : string) :
  step_numbering.error_item r m = step_numbering.error_item r' m' → r = r' ∧ m = m'.
Proof. by intros [= -> ->]. Qed.

(** The duplicate message differs from the other messages of the rule by
    its first letter. *)
Lemma duplicate_message_head (s : Z) (tc_id : value) :
  ∃ t, step_numbering.duplicate_message s tc_id = String "D" t.
Proof. unfold step_numbering.duplicate_message. rewrite append_cons. eauto. Qed.

Lemma elem_of_cell_errors (tc_id : value) (group : list (Z * row)) (e : dict) :
  e ∈ cell_errors tc_id group →
  ∃ ir t, ir ∈ group ∧ e = step_numbering.error_item (row_num ir) (String "S" t).
Proof.
  unfold cell_errors. intros He.
  apply list_elem_of_In, in_flat_map in He as (ir & Hir & He).
  apply list_elem_of_In in Hir, He. exists ir.
  destruct (common.to_int_step (raw_step ir)); [by apply elem_of_nil in He |].
  apply list_elem_of_singleton in He as ->.
  destruct (common.is_empty_like (raw_step ir)).
  - unfold step_numbering.empty_message. rewrite append_cons. eauto.
  - unfold step_numbering.not_a_number_message. rewrite append_cons. eauto.
Qed.

Lemma elem_of_valid_steps (group : list (Z * row)) (r s : Z) :
  (r, s) ∈ valid_steps group
  ↔ ∃ ir, ir ∈ group ∧ row_num ir = r ∧ common.to_int_step (raw_step ir) = Some s.
Proof.
  unfold valid_steps. rewrite list_elem_of_omap. split.
  - intros (ir & Hir & Hs). exists ir. split; [done |].
    destruct (common.to_int_step (raw_step ir)); simplify_eq/=. done.
  - intros (ir & Hir & <- & Hs). exists ir. split; [done |]. by rewrite Hs.
Qed.

Lemma elem_of_duplicate_errors (tc_id : value) (group : list (Z * row)) (e : dict) :
  e ∈ step_numbering.duplicate_errors tc_id
        (step_numbering.step_to_rows
           (foldl (step_numbering.scan_row tc_id) step_numbering.group_init group))
  ↔ ∃ r s, e = step_numbering.error_item r (step_numbering.duplicate_message s tc_id)
           ∧ (r, s) ∈ valid_steps group
           ∧ (1 < length (List.filter (λ p, (p.2 =? s)%Z) (valid_steps group)))%nat.
Proof.
  destruct (step_to_rows_spec tc_id group) as (Hnd & Hkeys & Hlook).
  cbn zeta in *. set (d := step_numbering.step_to_rows _) in *.
  unfold step_numbering.duplicate_errors.
  assert (∀ r s, r ∈ group_lookup Z.eqb d s ↔ (r, s) ∈ valid_steps group) as Hrows.
  { intros r s. rewrite Hlook, list_elem_of_fmap. split.
    - intros ([r' s'] & -> & [Hin Hs%Z.eqb_eq]%list_elem_of_In%filter_In).
      simpl in *. subst. by apply list_elem_of_In.
    - intros Hin. exists (r, s). split; [done |].
      apply list_elem_of_In, filter_In. split; [by apply list_elem_of_In |].
      apply Z.eqb_refl. }
  split.
  - intros He. apply list_elem_of_In, in_flat_map in He as ([s rs] & Hin & He).
    apply list_elem_of_In in Hin, He.
    apply (elem_of_group Z.eqb Z.eqb_eq) in Hin as [Hs <-]; [| done].
    destruct (1 <? length (group_lookup Z.eqb d s))%nat eqn:E;
      [| by apply elem_of_nil in He].
    apply list_elem_of_fmap in He as (r & -> & Hr). exists r, s.
    split; [done |]. split; [by apply Hrows |].
    apply Nat.ltb_lt in E. by rewrite Hlook, length_map in E.
  - intros (r & s & -> & Hin & Hcount).
    apply list_elem_of_In, in_flat_map. exists (s, group_lookup Z.eqb d s). split.
    + apply list_elem_of_In, (elem_of_group Z.eqb Z.eqb_eq); [done |].
      split; [| done]. apply Hkeys. apply (list_elem_of_fmap_2 snd) in Hin. done.
    + apply list_elem_of_In.
      assert ((1 <? length (group_lookup Z.eqb d s))%nat = true) as ->
        by (apply Nat.ltb_lt; by rewrite Hlook, length_map).
      apply (list_elem_of_fmap_2
               (λ r, step_numbering.error_item r
                       (step_numbering.duplicate_message s tc_id))).
      by apply Hrows.
Qed.

(** X13. A row of a group is reported with "Duplicate Step # s" exactly
    when its Step # cell is the valid number s and another row of the group
    has the same number: every row sharing the number is reported, the first
    one included. *)
Theorem duplicate_steps_reported (tc_id : value) (group : list (Z * row)) (r s : Z) :
  step_numbering.error_item r (step_numbering.duplicate_message s tc_id)
    ∈ step_numbering.check_group tc_id group
  ↔ (r, s) ∈ valid_steps group
    ∧ (1 < length (List.filter (λ p, (p.2 =? s)%Z) (valid_steps group)))%nat.
Proof.
  rewrite check_group_unfold. cbn zeta.
  destruct (duplicate_message_head s tc_id) as [t Ht].
  split.
  - intros [He | He]%elem_of_app.
    { apply elem_of_cell_errors in He as (ir & t' & _ & He).
      rewrite Ht in He. by apply error_item_inj in He as [_ [=]]. }
    destruct (valid_steps group) as [| p sio] eqn:Hsio;
      [by apply elem_of_nil in He |]. rewrite <- Hsio in *.
    apply elem_of_app in He as [He | [He | He]%elem_of_app].
    + apply elem_of_duplicate_errors in He as (r' & s' & Heq & Hin & Hcount).
      apply error_item_inj in Heq as [-> Hmsg].
      by apply duplicate_message_inj in Hmsg as ->.
    + exfalso.
      assert (valid_steps group ≠ []) as Hne by by rewrite Hsio.
      destruct (missing_errors_spec tc_id group Hne)
        as (top & first_row & missing & _ & _ & _ & _ & _ & _ & _ & Hm).
      rewrite Hm in He. destruct missing; [by apply elem_of_nil in He |].
      apply list_elem_of_singleton in He. rewrite Ht in He.
      unfold step_numbering.missing_message in He. rewrite append_cons in He.
      by apply error_item_inj in He as [_ [=]].
    + exfalso. unfold step_numbering.order_errors in He.
      repeat case_match; try by apply elem_of_nil in He.
      apply list_elem_of_singleton in He. rewrite Ht in He.
      by apply error_item_inj in He as [_ [=]].
  - intros [Hin Hcount]. apply elem_of_app. right.
    destruct (valid_steps group) as [| p sio] eqn:Hsio;
      [by apply elem_of_nil in Hin |]. rewrite <- Hsio in *.
    apply elem_of_app. left. apply elem_of_duplicate_errors. eauto.
Qed.

(** Every issue of a group is an error record on a row of the group. *)
Lemma check_group_rows (tc_id : value) (group : list (Z * row)) (e : dict) :
  e ∈ step_numbering.check_group tc_id group →
  ∃ ir m, ir ∈ group ∧ e = step_numbering.error_item (row_num ir) m.
Proof.
  rewrite check_group_unfold. cbn zeta. intros [He | He]%elem_of_app.
  { apply elem_of_cell_errors in He as (ir & t & Hir & ->). by exists ir, (String "S" t). }
  destruct (valid_steps group) as [| p sio] eqn:Hsio;
    [by apply elem_of_nil in He |]. rewrite <- Hsio in *.
  assert (valid_steps group ≠ []) as Hne by by rewrite Hsio.
  assert (∀ r s m, (r, s) ∈ valid_steps group →
            ∃ ir m', ir ∈ group
              ∧ step_numbering.error_item r m
                = step_numbering.error_item (row_num ir) m') as Hrow.
  { intros r s m (ir & Hir & <- & _)%elem_of_valid_steps. by exists ir, m. }
  apply elem_of_app in He as [He | [He | He]%elem_of_app].
  - apply elem_of_duplicate_errors in He as (r & s & -> & Hin & _).
    by apply (Hrow r s).
  - destruct (missing_errors_spec tc_id group Hne)
      as (top & first_row & missing & _ & _ & Hfirst & _ & _ & _ & _ & Hm).
    rewrite Hm in He. destruct missing; [by apply elem_of_nil in He |].
    apply list_elem_of_singleton in He as ->.
    apply list_elem_of_fmap in Hfirst as (ir & -> & Hir). by eexists ir, _.
  - unfold step_numbering.order_errors in He.
    destruct (valid_steps group) as [| [r0 s0] sio'] eqn:Hsio'; [done |].
    destruct (step_numbering.first_decrease s0 sio') as [bad |] eqn:Hdec;
      [| by apply elem_of_nil in He].
    apply list_elem_of_singleton in He as ->.
    destruct (first_decrease_Some r0 s0 bad sio' Hdec) as (i & s & Hlook & _).
    apply list_elem_of_lookup_2 in Hlook. by apply (Hrow bad s).
Qed.

(** The issues of the rule are error records on rows that are not blank and
    have a Test Case ID. *)
Lemma check_step_numbering_rows (df : DataFrame) (e : dict) :
  e ∈ returned (step_numbering.check_step_numbering df) →
  ∃ (i : nat) (r : row) (m : string),
    rows df !! i = Some r
    ∧ common.is_blank_row r = false
    ∧ common.is_empty_like (step_numbering.tc_id_of r) = false
    ∧ e = step_numbering.error_item (Z.of_nat i + 2) m.
Proof.
  intros He. rewrite returned_check_step_numbering in He.
  destruct (negb _); [by apply elem_of_nil in He |].
  unfold step_numbering.check_working_rows in He.
  destruct (step_numbering.working_rows df) as [| w0 w] eqn:Hw;
    [by apply elem_of_nil in He |]. rewrite <- Hw in He.
  apply list_elem_of_In, in_flat_map in He as ([tc_id group] & Hg & He).
  apply list_elem_of_In in He. unfold step_numbering.groupby in Hg.
  apply in_map_iff in Hg as (k & [= <- <-] & _).
  apply check_group_rows in He as ([idx r] & m & Hir & ->).
  apply list_elem_of_In, filter_In in Hir as [Hir _].
  unfold step_numbering.working_rows in Hir.
  apply filter_In in Hir as [Hir Htc]. apply filter_In in Hir as [Hir Hblank].
  apply list_elem_of_In, elem_of_number_rows in Hir as (i & -> & Hr).
  exists i, r, m. cbn [snd] in *. apply negb_true_iff in Htc, Hblank.
  split; [done |]. split; [done |]. split; [done |].
  unfold row_num, common.excel_row_number. cbn [fst]. by rewrite Z.add_0_l.
Qed.

(** X14. Every step-numbering issue is attached to the Excel row of a row
    of the table that is not blank and has a Test Case ID: rows without a
    test case are not checked at all.  The rule returns its issues on every
    table that has a row. *)
Theorem step_numbering_rows (df : DataFrame) :
  match step_numbering.check_step_numbering df with
  | Ok errors =>
      Forall (λ e, ∃ (i : nat) (r : row),
                rows df !! i = Some r
                ∧ common.is_blank_row r = false
                ∧ common.is_empty_like (step_numbering.tc_id_of r) = false
                ∧ dict_get e "row" = Some (VInt (Z.of_nat i + 2)))
             errors
  | Raise _ => rows df = []
  end.
Proof.
  destruct (step_numbering.check_step_numbering df) as [errors | x] eqn:Hcheck;
    [| by apply check_step_numbering_raises in Hcheck as (_ & ? & _)].
  apply Forall_forall. intros e He.
  assert (e ∈ returned (step_numbering.check_step_numbering df)) as He'
    by by rewrite Hcheck.
  apply check_step_numbering_rows in He' as (i & r & m & Hr & Hb & Htc & ->).
  by exists i, r.
Qed.

End step_numbering_more.

(** ** Reading issue records *)

Section issue_readers.

Lemma tally_counts (l : list err) (f w i : Z) :
  foldl (λ '(fail, warning, info) e,
           let sev := main.extract_severity e in
           if String.eqb sev "FAIL" then (fail + 1, warning, info)%Z
           else if String.eqb sev "WARNING" then (fail, warning + 1, info)%Z
           else (fail, warning, info + 1)%Z) (f, w, i) l
  = ((f + Z.of_nat (count_severity "FAIL" l))%Z,
     (w + Z.of_nat (count_severity "WARNING" l))%Z,
     (i + Z.of_nat (count_severity "INFO" l))%Z).
Proof.
  revert f w i. induction l as [| e l IH]; intros f w i.
  - simpl. by rewrite !Z.add_0_r.
  - cbn [foldl]. unfold count_severity in *. cbn [List.filter].
    destruct (extract_severity_cases e) as [-> | [-> | ->]];
      cbn [String.eqb Ascii.eqb Bool.eqb]; rewrite IH; cbn [length];
      (apply (f_equal2 pair); [apply (f_equal2 pair) |]; lia).
Qed.

Lemma count_severity_total (l : list err) :
  (count_severity "FAIL" l + count_severity "WARNING" l + count_severity "INFO" l
   = length l)%nat.
Proof.
  unfold count_severity. induction l as [| e l IH]; [done |]. cbn [List.filter].
  destruct (extract_severity_cases e) as [-> | [-> | ->]];
    cbn [String.eqb Ascii.eqb Bool.eqb length]; lia.
Qed.

(** X15. The three numbers of [summarize_issues] are the numbers of issues
    whose severity reads FAIL, WARNING and INFO; every issue is counted once,
    so they add up to the length of the list. *)
Theorem summarize_issues_counts (errors : list err) :
  main.summarize_issues errors
  = (Z.of_nat (count_severity "FAIL" errors),
     Z.of_nat (count_severity "WARNING" errors),
     Z.of_nat (count_severity "INFO" errors))
  ∧ (count_severity "FAIL" errors + count_severity "WARNING" errors
     + count_severity "INFO" errors = length errors)%nat.
Proof.
  split; [| apply count_severity_total].
  unfold main.summarize_issues. by rewrite tally_counts.
Qed.

(** Strict mode leaves a list without WARNING as it is, and the store too. *)
Lemma strict_mode_fixed (h : heap) (l acc : list ref) :
  Forall (λ o, ∃ v, main.deref h o = Some v ∧ main.extract_severity v ≠ "WARNING") l →
  foldl main.strict_step (h, acc) l = (h, acc ++ l).
Proof.
  revert acc. induction l as [| o l IH]; intros acc Hall; cbn [foldl].
  { by rewrite app_nil_r. }
  apply Forall_cons in Hall as [(v & Hv & Hsev) Hall].
  assert (main.strict_step (h, acc) o = (h, acc ++ [o])) as ->.
  { destruct o as [s | a]; [done |]. unfold main.strict_step.
    simpl in Hv. destruct (h !! a) as [d |]; [| done]. injection Hv as <-.
    destruct (String.eqb _ "WARNING") eqn:E; [| done].
    by apply String.eqb_eq in E. }
  by rewrite (IH _ Hall), <- app_assoc.
Qed.

(** X17. Strict mode is idempotent: applied to its own result it returns
    the same list, element by element, and leaves the store as it is; no new
    object is made. *)
Theorem strict_mode_idempotent (h : heap) (errors : list ref) :
  Forall (λ e, is_Some (main.deref h e)) errors →
  let '(h', strict_errors) := main.apply_strict_mode h errors in
  main.apply_strict_mode h' strict_errors = (h', strict_errors).
Proof.
  intros Hvalid.
  destruct (apply_strict_mode_spec h errors Hvalid) as (h' & out & -> & Hsub & Hall).
  unfold main.apply_strict_mode. apply (strict_mode_fixed h' out []).
  apply Forall_forall. intros o Ho.
  apply list_elem_of_lookup_1 in Ho as [i Ho].
  destruct (Forall2_lookup_r _ _ _ _ _ Hall Ho) as (e & _ & v & _ & Hv & _).
  exists (promote v). split; [done |]. rewrite extract_severity_promote.
  destruct (extract_severity_cases v) as [-> | [-> | ->]]; by vm_compute.
Qed.

Lemma nonblank_text_Some (v : value) (s : string) :
  main.nonblank_text v = Some s → s ≠ "" ∧ pystr.strip s = s.
Proof.
  destruct v as [| | | t]; try done. simpl.
  destruct (String.eqb_spec (pystr.strip t) ""); [done |].
  intros [= <-]. split; [done | apply strip_idemp].
Qed.

Lemma first_text_Some (l : list value) (s : string) :
  main.first_text l = Some s → s ≠ "" ∧ pystr.strip s = s.
Proof.
  induction l as [| v l IH]; [done |]. simpl.
  destruct (main.nonblank_text v) eqn:E; [| done].
  intros [= <-]. by apply (nonblank_text_Some v).
Qed.

Lemma first_text_None (l : list value) :
  main.first_text l = None ↔ ∀ v, v ∈ l → main.nonblank_text v = None.
Proof.
  induction l as [| v l IH]; simpl.
  { split; [intros _ v Hv; by apply elem_of_nil in Hv | done]. }
  destruct (main.nonblank_text v) eqn:E.
  - split; [done |]. intros Hall. specialize (Hall v). rewrite E in Hall.
    apply Hall, elem_of_cons. by left.
  - rewrite IH. split.
    + intros Hall u [-> | Hu]%elem_of_cons; [done | by apply Hall].
    + intros Hall u Hu. apply Hall, elem_of_cons. by right.
Qed.

Lemma dict_get_elem (d : dict) (k : string) (v : value) :
  dict_get d k = Some v → v ∈ map snd d.
Proof.
  induction d as [| [k' v'] d IH]; [done |]. simpl.
  destruct (String.eqb k' k).
  - intros [= ->]. apply elem_of_cons. by left.
  - intros Hv. apply elem_of_cons. right. by apply IH.
Qed.

(** X18. The message read from an issue has no whitespace at its ends, and
    it is empty exactly when the issue holds no text at all: a blank string,
    or a record none of whose values is a non-blank string.  Such an issue
    is counted by the report but no line is printed for it. *)
Theorem extract_message_spec (e : err) :
  pystr.strip (main.extract_message e) = main.extract_message e
  ∧ (main.extract_message e = ""
     ↔ match e with
       | ErrStr s => pystr.strip s = ""
       | ErrDict d => ∀ v, v ∈ map snd d → main.nonblank_text v = None
       end)
  ∧ report.issue_lines e
    = if String.eqb (main.extract_message e) "" then []
      else [ "  " +:+ main.extract_severity e +:+ ": " +:+ main.extract_message e ].
Proof.
  split; [| split].
  - destruct e as [s | d]; cbn [main.extract_message]; [apply strip_idemp |].
    destruct (main.first_text (map (main.get d) main.message_keys)) eqn:E1.
    { by apply first_text_Some in E1 as [_ ?]. }
    destruct (main.first_text (map snd d)) eqn:E2; [| done].
    by apply first_text_Some in E2 as [_ ?].
  - destruct e as [s | d]; cbn [main.extract_message]; [done |].
    destruct (main.first_text (map (main.get d) main.message_keys)) eqn:E1.
    { apply first_text_Some in E1 as H1. destruct H1 as [Hne _].
      split; [done |]. intros Hall. exfalso.
      assert (main.first_text (map (main.get d) main.message_keys) = None) as E;
        [| congruence].
      apply first_text_None. intros v (k & -> & _)%list_elem_of_fmap.
      unfold main.get. destruct (dict_get d k) as [v |] eqn:Hk; [| done].
      by apply Hall, (dict_get_elem d k). }
    destruct (main.first_text (map snd d)) eqn:E2.
    { apply first_text_Some in E2 as H2. destruct H2 as [Hne _].
      split; [done |]. intros Hall%first_text_None. congruence. }
    split; [intros _ | done]. by apply first_text_None.
  - unfold report.issue_lines. destruct (String.eqb _ ""); [done |].
    by destruct (extract_severity_cases e) as [-> | [-> | ->]].
Qed.

End issue_readers.

(** ** The issues of a scan, as the report reads them *)

Section scan_in_report.
Context `{FloatText}.


Lemma make_issue_no_row (m rule : string) (sev fld : option string) :
  report.extract_excel_row (ErrDict (common.make_issue VNone m rule sev fld)) = None.
Proof.
  unfold common.make_issue. destruct fld as [f |]; [destruct (String.eqb f "") |]; done.
Qed.

Lemma make_issue_extract_severity (r : value) (m rule sev : string) (fld : option string) :
  sev = "FAIL" ∨ sev = "WARNING" →
  main.extract_severity (ErrDict (common.make_issue r m rule (Some sev) fld)) = sev.
Proof.
  unfold common.make_issue.
  intros [-> | ->]; (destruct fld as [f |]; [destruct (String.eqb f "") |]); done.
Qed.


Lemma issue_on_row_severity (e : dict) (n : Z) :
  issue_on_row e n →
  main.extract_severity (ErrDict e) = "FAIL"
  ∨ main.extract_severity (ErrDict e) = "WARNING".
Proof.
  intros [(m & rule & sev & fld & -> & Hsev) | [[m ->] | [m ->]]].
  - rewrite make_issue_extract_severity by done. done.
  - by left.
  - by right.
Qed.

Ltac each_issue :=
  repeat case_match;
  repeat match goal with
  | |- Forall _ (_ ++ _) => apply Forall_app_2
  | |- Forall _ [] => constructor
  | |- Forall _ (_ :: _) => constructor
  end.

Ltac on_row :=
  intros; repeat match goal with
  | H : _ ∈ (if ?b then _ else _) |- _ => destruct b
  | H : _ ∈ _ ++ _ |- _ => apply elem_of_app in H as [H | H]
  | H : _ ∈ [] |- _ => by apply elem_of_nil in H
  | H : _ ∈ [_] |- _ => apply list_elem_of_singleton in H; subst
  end; left; eauto 10.

Lemma required_fields_on_row idx r e :
  e ∈ required_fields.check_row idx r → issue_on_row e (idx + 2).
Proof. unfold required_fields.check_row, common.excel_row_number. on_row. Qed.

Lemma blank_rows_on_row idx r e :
  e ∈ blank_rows.check_row idx r → issue_on_row e (idx + 2).
Proof. unfold blank_rows.check_row, common.excel_row_number. on_row. Qed.

Lemma data_required_on_row idx r e :
  e ∈ data_required.check_row idx r → issue_on_row e (idx + 2).
Proof. unfold data_required.check_row, common.excel_row_number. on_row. Qed.

Lemma punctuation_on_row idx r e :
  e ∈ expected_results_punctuation.check_row idx r → issue_on_row e (idx + 2).
Proof. unfold expected_results_punctuation.check_row, common.excel_row_number. on_row. Qed.

Lemma generic_on_row idx r e :
  e ∈ generic_expected_results.check_row idx r → issue_on_row e (idx + 2).
Proof. unfold generic_expected_results.check_row, common.excel_row_number. on_row. Qed.

Lemma rules_on_rows (df : DataFrame) (e : dict) :
  missing_columns.check_missing_columns df = [] →
  e ∈ flat_map (λ rule, rule df) scanner.RULES →
  ∃ (i : nat) (r : row), rows df !! i = Some r ∧ issue_on_row e (Z.of_nat i + 2).
Proof.
  intros Hschema. cbn [flat_map scanner.RULES]. rewrite Hschema, app_nil_r.
  rewrite !elem_of_app.
  unfold required_fields.check_required_fields, blank_rows.check_blank_rows,
    data_required.check_data_required_for_actions,
    expected_results_punctuation.check_expected_results_punctuation,
    generic_expected_results.check_generic_expected_results.
  intros [He | [He | [He | [He | [He | He]]]]];
    try (by apply elem_of_nil in He);
    repeat match type of He with
    | _ ∈ (if ?b then _ else _) => destruct b; [by apply elem_of_nil in He |]
    end;
    apply elem_of_iterrows_body in He as (i & r & Hr & He); exists i, r;
    (split; [done |]).
  - by eapply required_fields_on_row.
  - by eapply blank_rows_on_row.
  - by eapply data_required_on_row.
  - by eapply punctuation_on_row.
  - by eapply generic_on_row.
Qed.

Lemma core_steps_on_rows (cfg : config.Config) (df : DataFrame) (e : dict) :
  e ∈ scanner.check_core_steps_enforcement cfg df →
  ∃ (i : nat) (r : row), rows df !! i = Some r ∧ issue_on_row e (Z.of_nat i + 2).
Proof.
  destruct (check_core_steps_cases cfg df) as [-> | ->];
    [by intros ?%elem_of_nil |].
  intros (i & c & s & what & want & found & _ & _ & Hs & ->)%elem_of_enforce.
  rewrite steps_of_lookup in Hs. destruct (rows df !! i) as [r |] eqn:Hr; [| done].
  exists i, r. split; [done |]. right. right. eauto.
Qed.

Lemma step_numbering_on_rows (df : DataFrame) (e : dict) :
  e ∈ returned (step_numbering.check_step_numbering df) →
  ∃ (i : nat) (r : row), rows df !! i = Some r ∧ issue_on_row e (Z.of_nat i + 2).
Proof.
  intros (i & r & m & Hr & _ & _ & ->)%check_step_numbering_rows.
  exists i, r. split; [done |]. right. left. eauto.
Qed.

(** Past the schema check, every issue of a scan is a record of one of the
    three kinds on the Excel row of a row of the table. *)
Lemma scan_on_rows (cfg : config.Config) (df : DataFrame)
    (res : scanner.ScanResult) (e : dict) :
  scanner.scan cfg df = Ok res →
  missing_columns.check_missing_columns df = [] →
  e ∈ scanner.scan_errors res →
  ∃ (i : nat) (r : row), rows df !! i = Some r ∧ issue_on_row e (Z.of_nat i + 2).
Proof.
  intros Hscan Hschema. rewrite (scan_errors_unfold _ _ _ Hscan), Hschema.
  intros [He | [He | He]%elem_of_app]%elem_of_app.
  - by apply rules_on_rows.
  - by apply (core_steps_on_rows cfg).
  - destruct (_ && _); [| by apply elem_of_nil in He].
    by apply step_numbering_on_rows.
Qed.

Lemma missing_columns_cases (df : DataFrame) :
  missing_columns.check_missing_columns df = []
  ∨ ∃ m, missing_columns.check_missing_columns df
         = [ common.make_issue VNone m "MISSING_COLUMNS" (Some "FAIL") None ].
Proof.
  unfold missing_columns.check_missing_columns.
  destruct (missing_columns.missing df); [by left | right; eauto].
Qed.

(** No issue of a scan reads as an INFO. *)
Lemma scan_severity_cases (cfg : config.Config) (df : DataFrame)
    (res : scanner.ScanResult) (e : dict) :
  scanner.scan cfg df = Ok res →
  e ∈ scanner.scan_errors res →
  main.extract_severity (ErrDict e) = "FAIL"
  ∨ main.extract_severity (ErrDict e) = "WARNING".
Proof.
  intros Hscan He. destruct (missing_columns_cases df) as [Hschema | [m Hschema]].
  - destruct (scan_on_rows cfg df res e Hscan Hschema He) as (i & r & _ & Hon).
    by apply (issue_on_row_severity e (Z.of_nat i + 2)).
  - rewrite (scan_errors_unfold _ _ _ Hscan), Hschema in He.
    apply list_elem_of_singleton in He as ->. by left.
Qed.


(** X16. The severities of a scan, as the report reads them: an issue of
    the schema check, of the required-fields rule, of the data-required rule
    or of the step-numbering rule (whose records carry no severity) is a
    FAIL; an issue of the blank-row, punctuation and generic-text rules or of
    the core-steps check is a WARNING; no issue of a scan is an INFO.  The
    step-numbering rule and the scan return their issues on every table that
    has a row. *)
Theorem scan_severities (cfg : config.Config) (df : DataFrame) :
  let sev (s : string) (l : list dict) :=
    Forall (λ e, main.extract_severity (ErrDict e) = s) l in
  sev "FAIL" (missing_columns.check_missing_columns df)
  ∧ sev "FAIL" (required_fields.check_required_fields df)
  ∧ sev "WARNING" (blank_rows.check_blank_rows df)
  ∧ sev "FAIL" (data_required.check_data_required_for_actions df)
  ∧ sev "WARNING" (expected_results_punctuation.check_expected_results_punctuation df)
  ∧ sev "WARNING" (generic_expected_results.check_generic_expected_results df)
  ∧ sev "WARNING" (scanner.check_core_steps_enforcement cfg df)
  ∧ match step_numbering.check_step_numbering df with
    | Ok errors => sev "FAIL" errors
    | Raise _ => rows df = []
    end
  ∧ match scanner.scan cfg df with
    | Ok res =>
        Forall (λ e, main.extract_severity (ErrDict e) = "FAIL"
                     ∨ main.extract_severity (ErrDict e) = "WARNING")
          (scanner.scan_errors res)
    | Raise _ => rows df = []
    end.
Proof.
  cbn zeta. split; [| split; [| split; [| split; [| split; [| split; [| split; [| split]]]]]]].
  - destruct (missing_columns_cases df) as [-> | [m ->]]; by repeat constructor.
  - unfold required_fields.check_required_fields. case_match; [constructor |].
    apply Forall_iterrows. intros idx r. unfold required_fields.check_row.
    each_issue; by apply make_issue_extract_severity; left.
  - apply Forall_iterrows. intros idx r. unfold blank_rows.check_row.
    each_issue; by apply make_issue_extract_severity; right.
  - unfold data_required.check_data_required_for_actions. case_match; [constructor |].
    apply Forall_iterrows. intros idx r. unfold data_required.check_row.
    each_issue; by apply make_issue_extract_severity; left.
  - unfold expected_results_punctuation.check_expected_results_punctuation.
    case_match; [constructor |].
    apply Forall_iterrows. intros idx r. unfold expected_results_punctuation.check_row.
    each_issue; by apply make_issue_extract_severity; right.
  - unfold generic_expected_results.check_generic_expected_results.
    case_match; [constructor |].
    apply Forall_iterrows. intros idx r. unfold generic_expected_results.check_row.
    each_issue; by apply make_issue_extract_severity; right.
  - apply Forall_forall. intros e He.
    destruct (check_core_steps_cases cfg df) as [Hc | Hc]; rewrite Hc in He;
      [by apply elem_of_nil in He |].
    by apply elem_of_enforce in He as (i & c & s & what & want & found & _ & _ & _ & ->).
  - destruct (step_numbering.check_step_numbering df) as [errors | x] eqn:Hcheck;
      [| by apply check_step_numbering_raises in Hcheck as (_ & ? & _)].
    apply Forall_forall. intros e He.
    assert (e ∈ returned (step_numbering.check_step_numbering df)) as He'
      by by rewrite Hcheck.
    by apply check_step_numbering_rows in He' as (i & r & m & _ & _ & _ & ->).
  - destruct (scanner.scan cfg df) as [res | x] eqn:Hscan;
      [| by apply scan_raises in Hscan as (_ & ? & _)].
    apply Forall_forall. intros e He. by apply (scan_severity_cases cfg df res).
Qed.

End scan_in_report.

(** ** The report *)

Section report_facts.
Context (basename : string → string).

Lemma count_severity_pos (s : string) (errors : list err) :
  (0 < count_severity s errors)%nat
  ↔ ∃ e, e ∈ errors ∧ main.extract_severity e = s.
Proof.
  unfold count_severity. split.
  - intros Hpos. destruct (List.filter _ errors) as [| e l] eqn:Hf; [simpl in Hpos; lia |].
    assert (In e (List.filter (λ e, String.eqb (main.extract_severity e) s) errors))
      as [Hin Hs%String.eqb_eq]%filter_In by (rewrite Hf; by left).
    exists e. split; [by apply list_elem_of_In | done].
  - intros (e & Hin & Hs).
    assert (In e (List.filter (λ e, String.eqb (main.extract_severity e) s) errors)) as Hf.
    { apply filter_In. split; [by apply list_elem_of_In | by apply String.eqb_eq]. }
    destruct (List.filter _ errors); [done | simpl; lia].
Qed.

(** The report printed for [errors], with the counts written out. *)
Lemma print_human_report_unfold (file_path : string) (columns : list string)
    (steps_loaded steps_scanned : Z) (errors : list err) (header_suffix : string) :
  report.print_human_report basename file_path columns steps_loaded steps_scanned
    errors header_suffix
  = [ "Loading test case file: " +:+ report.filename_only basename file_path
        +:+ report.newline;
      "Columns: " +:+ report.format_columns columns;
      "Steps loaded: " +:+ pretty steps_loaded +:+ report.newline;
      "==============================";
      "TEST CASE SCAN REPORT"
        +:+ (if String.eqb header_suffix "" then "" else " " +:+ header_suffix);
      "==============================";
      "Steps scanned: " +:+ pretty steps_scanned +:+ report.newline;
      "Status: " +:+ report.status (length errors)
                       (Z.of_nat (count_severity "FAIL" errors));
      "Issues found: " +:+ pretty (length errors) ]
    ++ (if (0 <? length errors)%nat
        then [ "Breakdown: "
               +:+ pystr.join ", "
                     (report.breakdown_parts
                        (Z.of_nat (count_severity "FAIL" errors))
                        (Z.of_nat (count_severity "WARNING" errors))
                        (Z.of_nat (count_severity "INFO" errors))) ]
        else [])
    ++ [ "" ]
    ++ (if (length errors =? 0)%nat then []
        else flat_map (report.group_lines (report.grouped errors))
               (report.sorted_by_key report.sort_key
                  (map fst (report.grouped errors)))).
Proof.
  unfold report.print_human_report, main.summarize_issues.
  by rewrite tally_counts.
Qed.

Lemma status_cases (errors : list err) :
  report.status (length errors) (Z.of_nat (count_severity "FAIL" errors))
  = match errors with
    | [] => "PASS ✅"
    | _ :: _ =>
        if bool_decide (0 < count_severity "FAIL" errors)%nat then "FAIL ❌"
        else "PASS (Warnings) ⚠️"
    end.
Proof.
  unfold report.status. destruct errors as [| e errors]; [done |].
  cbn [length Nat.eqb]. case_bool_decide as Hc.
  - by rewrite (proj2 (Z.ltb_lt _ _)) by lia.
  - by rewrite (proj2 (Z.ltb_ge _ _)) by lia.
Qed.

(** X20. The status line of the report: PASS exactly when there is no
    issue, FAIL exactly when some issue reads as a FAIL, and
    PASS (Warnings) exactly when there are issues and none reads as a
    FAIL.  The next line gives the number of issues, whatever they are. *)
Theorem report_status (file_path : string) (columns : list string)
    (steps_loaded steps_scanned : Z) (errors : list err) (header_suffix : string) :
  ∃ st : string,
    report.print_human_report basename file_path columns steps_loaded steps_scanned
      errors header_suffix !! 7%nat = Some ("Status: " +:+ st)
    ∧ report.print_human_report basename file_path columns steps_loaded steps_scanned
        errors header_suffix !! 8%nat = Some ("Issues found: " +:+ pretty (length errors))
    ∧ (st = "PASS ✅" ↔ errors = [])
    ∧ (st = "FAIL ❌" ↔ ∃ e, e ∈ errors ∧ main.extract_severity e = "FAIL")
    ∧ (st = "PASS (Warnings) ⚠️"
       ↔ errors ≠ [] ∧ ∀ e, e ∈ errors → main.extract_severity e ≠ "FAIL").
Proof.
  exists (report.status (length errors) (Z.of_nat (count_severity "FAIL" errors))).
  rewrite print_human_report_unfold. split; [done |]. split; [done |].
  rewrite status_cases. pose proof (count_severity_pos "FAIL" errors) as Hpos.
  destruct errors as [| e0 errors].
  { split; [done |]. split; [| split; [done | by intros [? _]]].
    split; [done |]. intros (e & He & _). by apply elem_of_nil in He. }
  case_bool_decide as Hc.
  - split; [done |]. split; [split; [intros _; by apply Hpos | done] |].
    split; [done |]. intros [_ Hall]. apply Hpos in Hc as (e & He & Hs).
    by destruct (Hall e He).
  - split; [done |]. split; [split; [done | by intros ?%Hpos] |].
    split; [intros _ | done]. split; [done |].
    intros e He Hs. apply Hc, Hpos. eauto.
Qed.

End report_facts.

Section report_of_scan.
Context (basename : string → string) `{FloatText}.

(** X21. The FINAL CHECK report of a scan that returns (a scan that raises
    ends the program before any report).  The issues the scan returned,
    passed through strict mode and printed, give the status PASS when the
    scan found nothing and FAIL otherwise: a scan has no INFO issue and
    strict mode leaves no WARNING, so the final check never prints
    PASS (Warnings). *)
Theorem final_check_status (cfg : config.Config) (df : DataFrame)
    (res : scanner.ScanResult) (h : heap)
    (errors : list ref) (file_path : string) (columns : list string)
    (steps_loaded steps_scanned : Z) :
  scanner.scan cfg df = Ok res →
  issue_values h errors = map ErrDict (scanner.scan_errors res) →
  Forall (λ e, is_Some (main.deref h e)) errors →
  let '(h', strict_errors) := main.apply_strict_mode h errors in
  report.print_human_report basename file_path columns steps_loaded steps_scanned
    (issue_values h' strict_errors) "(FINAL CHECK)" !! 7%nat
  = Some ("Status: "
          +:+ (if bool_decide (scanner.scan_errors res = [])
               then "PASS ✅" else "FAIL ❌"))
  ∧ report.print_human_report basename file_path columns steps_loaded steps_scanned
      (issue_values h' strict_errors) "(FINAL CHECK)" !! 4%nat
    = Some "TEST CASE SCAN REPORT (FINAL CHECK)".
Proof.
  intros Hres Hvals Hvalid.
  destruct (apply_strict_mode_spec h errors Hvalid) as (h' & out & -> & _ & Hall).
  rewrite (issue_values_promoted h h' errors out Hall), Hvals.
  rewrite print_human_report_unfold.
  split; [| cbn [lookup list_lookup app]; f_equal; by vm_compute].
  cbn [lookup list_lookup app]. f_equal. f_equal.
  destruct (scanner.scan_errors res) as [| e errs] eqn:Hscan.
  { by rewrite bool_decide_eq_true_2. }
  rewrite bool_decide_eq_false_2 by done. cbn [map]. rewrite status_cases.
  rewrite bool_decide_eq_true_2; [done |].
  apply count_severity_pos. exists (promote (ErrDict e)).
  split; [apply elem_of_cons; by left |].
  rewrite extract_severity_promote.
  destruct (scan_severity_cases cfg df res e Hres) as [-> | ->]; [| done..].
  rewrite Hscan. apply elem_of_cons. by left.
Qed.

End report_of_scan.

(** ** [int] of a printed integer *)

Section int_round_trip.

Lemma all_chars_impl (p q : ascii → bool) (s : string) :
  (∀ c, p c = true → q c = true) → all_chars p s = true → all_chars q s = true.
Proof.
  intros Hpq. induction s as [| c s IH]; [done |]. simpl.
  intros [Hc Hs]%andb_prop. by rewrite (Hpq c Hc), (IH Hs).
Qed.

Lemma all_chars_app (p : ascii → bool) (a b : string) :
  all_chars p (a +:+ b) = all_chars p a && all_chars p b.
Proof.
  induction a as [| c a IH]; [done |]. rewrite append_cons. simpl.
  by rewrite IH, andb_assoc.
Qed.

Lemma digit_value_char (y : N) :
  (y < 10)%N → float64.digit_value (pretty_N_char y) = Z.of_N y.
Proof.
  intros Hy.
  assert (y = 0 ∨ y = 1 ∨ y = 2 ∨ y = 3 ∨ y = 4 ∨ y = 5 ∨ y = 6 ∨ y = 7
          ∨ y = 8 ∨ y = 9)%N as Hc by lia.
  repeat (destruct Hc as [-> | Hc]; [done |]). by subst.
Qed.

(** Reading the digits [pretty_N_go] puts before [s]. *)
Lemma take_digits_pretty_N_go (x : N) (s : string) (acc n : Z) :
  ∃ k : Z,
    (0 ≤ k)%Z ∧ ((0 < x)%N → (0 < k)%Z)
    ∧ float64.take_digits (pretty_N_go x s) acc n
      = float64.take_digits s (acc * 10 ^ k + Z.of_N x)%Z (n + k)%Z.
Proof.
  revert s acc n. induction (N.lt_wf_0 x) as [x _ IH]; intros s acc n.
  assert (x = 0 ∨ 0 < x)%N as [-> | Hx] by lia.
  { exists 0%Z. rewrite pretty_N_go_0. split; [done |]. split; [lia |].
    f_equal; lia. }
  rewrite pretty_N_go_step by done.
  destruct (IH (x `div` 10)%N (N.div_lt x 10 Hx eq_refl)
              (String (pretty_N_char (x `mod` 10)) s) acc n) as (k & Hk & _ & ->).
  exists (k + 1)%Z. split; [lia |]. split; [lia |].
  cbn [float64.take_digits]. rewrite pretty_N_char_digit.
  rewrite digit_value_char by (apply N.mod_lt; lia).
  f_equal; [| lia]. rewrite Z.pow_add_r, Z.pow_1_r by lia.
  pose proof (N.div_mod x 10 ltac:(lia)) as Hdm. lia.
Qed.

Lemma take_digits_pretty_pos (p : positive) :
  ∃ k : Z, (0 < k)%Z ∧ float64.take_digits (pretty p) 0 0 = (Z.pos p, k, "").
Proof.
  unfold pretty, pretty_positive, pretty, pretty_N.
  destruct (decide (N.pos p = 0%N)) as [? | _]; [done |].
  destruct (take_digits_pretty_N_go (N.pos p) "" 0 0) as (k & _ & Hk & ->).
  exists k. split; [apply Hk; lia |]. cbn [float64.take_digits].
  by rewrite Z.mul_0_l, !Z.add_0_l.
Qed.

Lemma drop_underscores_plain (prev : option ascii) (s : string) :
  prev ≠ Some "_"%char →
  all_chars (λ c, negb (Ascii.eqb c "_")) s = true →
  float64.drop_underscores prev s = Some s.
Proof.
  revert prev. induction s as [| c s IH]; intros prev Hprev Hs.
  { simpl. destruct prev as [p |]; [| done].
    destruct (decide (p = "_"%char)) as [-> | Hne]; [done |].
    destruct p as [[] [] [] [] [] [] [] []]; done. }
  simpl in Hs. apply andb_prop in Hs as [Hc Hs]. apply negb_true_iff in Hc.
  cbn [float64.drop_underscores]. rewrite Hc.
  assert (float64.drop_underscores (Some c) s = Some s) as Hrec.
  { apply IH; [| done]. intros [= ->]. done. }
  destruct prev as [p |]; [| by rewrite Hrec].
  destruct (decide (p = "_"%char)) as [-> | Hne]; [done |].
  destruct p as [[] [] [] [] [] [] [] []]; try done; by rewrite Hrec.
Qed.

Lemma lstrip_by_head (p : ascii → bool) (c : ascii) (s : string) :
  p c = false → float64.lstrip_by p (String c s) = String c s.
Proof. intros Hc. simpl. by rewrite Hc. Qed.

Lemma rev_rev (s : string) : String.rev (String.rev s) = s.
Proof. unfold String.rev. by rewrite rev_app_rev_app, append_nil_r. Qed.

Lemma strip_by_plain (p : ascii → bool) (s : string) :
  all_chars (λ c, negb (p c)) s = true → float64.strip_by p s = s.
Proof.
  intros Hs. unfold float64.strip_by.
  assert (∀ t, all_chars (λ c, negb (p c)) t = true → float64.lstrip_by p t = t) as Hl.
  { intros [| c t]; [done |]. simpl. intros [Hc _]%andb_prop.
    apply negb_true_iff in Hc. by rewrite Hc. }
  rewrite (Hl s Hs), Hl, rev_rev; [done |].
  by apply all_chars_rev_app.
Qed.

(** The characters of a printed integer: digits and the minus sign. *)
Lemma pretty_Z_chars (z : Z) :
  all_chars (λ c, float64.is_digit c || Ascii.eqb c "-") (pretty z) = true.
Proof.
  destruct z as [| p | p]; [done | |].
  - change (pretty (Z.pos p)) with (pretty p).
    destruct (pretty_pos_digits p) as [Hd _].
    apply (all_chars_impl float64.is_digit); [| done]. by intros c ->.
  - change (pretty (Z.neg p)) with ("-" +:+ pretty p).
    rewrite all_chars_app. destruct (pretty_pos_digits p) as [Hd _].
    rewrite (all_chars_impl float64.is_digit _ (pretty p)); [done | | done].
    by intros c ->.
Qed.

Lemma pretty_Z_nonempty (z : Z) : pretty z ≠ "".
Proof.
  destruct z as [| p | p]; [done | |].
  - by destruct (pretty_pos_digits p).
  - change (pretty (Z.neg p)) with ("-" +:+ pretty p). by rewrite append_cons.
Qed.

Lemma take_sign_digits (s : string) :
  all_chars float64.is_digit s = true → float64.take_sign s = (false, s).
Proof.
  destruct s as [| c s]; [done |]. simpl. intros [Hc _]%andb_prop.
  destruct c as [[] [] [] [] [] [] [] []]; done.
Qed.

(** [int(str(n)) = n] *)
Lemma int_of_pretty (z : Z) : pyint.of_str (pretty z) = Some z.
Proof.
  unfold pyint.of_str.
  rewrite strip_by_plain.
  2:{ apply (all_chars_impl (λ c, float64.is_digit c || Ascii.eqb c "-"));
        [| apply pretty_Z_chars].
      intros c. destruct c as [[] [] [] [] [] [] [] []]; by vm_compute. }
  rewrite drop_underscores_plain; [| done |].
  2:{ apply (all_chars_impl (λ c, float64.is_digit c || Ascii.eqb c "-"));
        [| apply pretty_Z_chars].
      intros c. destruct c as [[] [] [] [] [] [] [] []]; by vm_compute. }
  destruct z as [| p | p]; [done | |].
  - change (pretty (Z.pos p)) with (pretty p).
    destruct (pretty_pos_digits p) as [Hd _]. rewrite take_sign_digits by done.
    destruct (take_digits_pretty_pos p) as (k & Hk & ->).
    by rewrite (proj2 (Z.ltb_lt 0 k)).
  - change (pretty (Z.neg p)) with (String "-" (pretty p)).
    cbn [float64.take_sign].
    destruct (take_digits_pretty_pos p) as (k & Hk & ->).
    by rewrite (proj2 (Z.ltb_lt 0 k)).
Qed.

End int_round_trip.

(** ** The groups of the report and their order *)

Section grouping_more.
Context {K V : Type} (eqb : K → K → bool).
Hypothesis eqb_eq : ∀ a b, eqb a b = true ↔ a = b.

Lemma group_values_add (d : list (K * list V)) (k : K) (v : V) :
  concat (map snd (group_add eqb d k v)) ≡ₚ concat (map snd d) ++ [v].
Proof.
  induction d as [| [k0 vs] d IH]; simpl; [done |].
  destruct (eqb k0 k); simpl.
  - rewrite <- !app_assoc. apply Permutation_app_head, Permutation_app_comm.
  - by rewrite IH, app_assoc.
Qed.

Lemma group_fold_values {A} (kf : A → K) (vf : A → V) (l : list A)
    (d : list (K * list V)) :
  concat (map snd (foldl (λ d x, group_add eqb d (kf x) (vf x)) d l))
  ≡ₚ concat (map snd d) ++ map vf l.
Proof.
  revert d. induction l as [| x l IH]; intros d; simpl.
  { by rewrite app_nil_r. }
  rewrite IH, group_values_add, <- app_assoc. done.
Qed.

Lemma group_lookup_keys (d : list (K * list V)) :
  NoDup (map fst d) → map (group_lookup eqb d) (map fst d) = map snd d.
Proof.
  induction d as [| [k vs] d IH]; [done |]. simpl.
  intros [Hk Hd]%NoDup_cons. rewrite (eqb_refl_true eqb eqb_eq). f_equal.
  rewrite <- (IH Hd). apply map_ext_in. intros k' Hk'%list_elem_of_In.
  destruct (eqb k k') eqn:E; [| done]. apply eqb_eq in E as ->. done.
Qed.

End grouping_more.

Section report_groups.
Context (basename : string → string).

Lemma report_setdefault_append (g : list (string * list err)) (k : string) (e : err) :
  report.setdefault_append g k e = group_add String.eqb g k e.
Proof. induction g as [| [k' es] g IH]; simpl; [done |]. by rewrite IH. Qed.

Lemma report_group_get (g : list (string * list err)) (k : string) :
  report.group_get g k = group_lookup String.eqb g k.
Proof. induction g as [| [k' es] g IH]; simpl; [done |]. by rewrite IH. Qed.

Lemma report_grouped_fold (errors : list err) (g : list (string * list err)) :
  foldl (λ g e, report.setdefault_append g (report.group_key e) e) g errors
  = foldl (λ g e, group_add String.eqb g (report.group_key e) e) g errors.
Proof.
  revert g. induction errors as [| e errors IH]; intros g; simpl; [done |].
  by rewrite report_setdefault_append, IH.
Qed.

(** The dictionary [grouped]: one entry per heading, in order of first
    appearance, holding the issues of that heading in the order of the list. *)
Lemma grouped_spec (errors : list err) :
  NoDup (map fst (report.grouped errors))
  ∧ (∀ k, k ∈ map fst (report.grouped errors)
          ↔ ∃ e, e ∈ errors ∧ report.group_key e = k)
  ∧ (∀ k, report.group_get (report.grouped errors) k
          = List.filter (λ e, String.eqb (report.group_key e) k) errors)
  ∧ concat (map snd (report.grouped errors)) ≡ₚ errors.
Proof.
  unfold report.grouped. rewrite report_grouped_fold. split; [| split; [| split]].
  - apply (group_fold_NoDup String.eqb String.eqb_eq). constructor.
  - intros k. rewrite (elem_of_group_fold_keys String.eqb String.eqb_eq).
    split.
    + intros [?%elem_of_nil | (e & -> & He)%list_elem_of_fmap]; [done | eauto].
    + intros (e & He & <-). right. by apply (list_elem_of_fmap_2 report.group_key).
  - intros k. rewrite report_group_get.
    rewrite (group_fold_lookup String.eqb String.eqb_eq). by rewrite map_id.
  - rewrite (group_fold_values String.eqb). by rewrite map_id.
Qed.

(** [sorted(..., key=...)] *)
Lemma insert_by_key_perm {A} (key : A → Z) (x : A) (l : list A) :
  report.insert_by_key key x l ≡ₚ x :: l.
Proof.
  induction l as [| y l IH]; simpl; [done |].
  destruct (key x <=? key y)%Z; [done |]. rewrite IH. apply Permutation_swap.
Qed.

Lemma sorted_by_key_perm {A} (key : A → Z) (l : list A) :
  report.sorted_by_key key l ≡ₚ l.
Proof.
  unfold report.sorted_by_key. induction l as [| x l IH]; simpl; [done |].
  by rewrite insert_by_key_perm, IH.
Qed.

Lemma insert_by_key_sorted {A} (key : A → Z) (x : A) (l : list A) :
  Sorted Z.le (map key l) → Sorted Z.le (map key (report.insert_by_key key x l)).
Proof.
  induction l as [| y l IH]; simpl; intros Hs.
  { by repeat constructor. }
  destruct (key x <=? key y)%Z eqn:E.
  - apply Z.leb_le in E. simpl. constructor; [done | by constructor].
  - apply Z.leb_gt in E. simpl. apply Sorted_inv in Hs as [Hs Hhd].
    constructor; [by apply IH |].
    destruct l as [| z l]; simpl.
    + constructor. lia.
    + destruct (key x <=? key z)%Z; simpl; constructor; [lia |].
      by apply HdRel_inv in Hhd.
Qed.

Lemma sorted_by_key_sorted {A} (key : A → Z) (l : list A) :
  Sorted Z.le (map key (report.sorted_by_key key l)).
Proof.
  unfold report.sorted_by_key. induction l as [| x l IH]; simpl; [constructor |].
  by apply insert_by_key_sorted.
Qed.

Lemma insert_by_key_stable {A} (key : A → Z) (x : A) (l : list A) (n : Z) :
  List.filter (λ y, (key y =? n)%Z) (report.insert_by_key key x l)
  = List.filter (λ y, (key y =? n)%Z) (x :: l).
Proof.
  induction l as [| y l IH]; [done |]. cbn [report.insert_by_key].
  destruct (key x <=? key y)%Z eqn:E; [done |]. apply Z.leb_gt in E.
  cbn [List.filter] in *. rewrite IH.
  destruct (key y =? n)%Z eqn:Ey, (key x =? n)%Z eqn:Ex; try done.
  apply Z.eqb_eq in Ey, Ex. lia.
Qed.

Lemma sorted_by_key_stable {A} (key : A → Z) (l : list A) (n : Z) :
  List.filter (λ y, (key y =? n)%Z) (report.sorted_by_key key l)
  = List.filter (λ y, (key y =? n)%Z) l.
Proof.
  unfold report.sorted_by_key. induction l as [| x l IH]; [done |].
  cbn [foldr]. rewrite insert_by_key_stable. cbn [List.filter]. by rewrite IH.
Qed.

(** [replace] on the heading of a row. *)
Lemma prefix_app (a b : string) : String.prefix a (a +:+ b) = true.
Proof.
  induction a as [| c a IH]; [by destruct b |]. rewrite append_cons. simpl.
  by destruct (ascii_dec c c).
Qed.

Lemma replace_go_skip (old new t rest : string) :
  pystr.replace_go old new (String.length t) (t +:+ rest)
  = pystr.replace_go old new 0 rest.
Proof.
  induction t as [| c t IH]; [by destruct rest |]. rewrite append_cons. by simpl.
Qed.

Lemma replace_go_head (c : ascii) (old new rest : string) :
  pystr.replace_go (String c old) new 0 (String c old +:+ rest)
  = new +:+ pystr.replace_go (String c old) new 0 rest.
Proof.
  rewrite append_cons at 1. cbn [pystr.replace_go].
  rewrite <- append_cons, prefix_app. f_equal.
  replace (String.length (String c old) - 1)%nat with (String.length old)
    by (simpl; lia).
  apply replace_go_skip.
Qed.

Lemma replace_go_absent (c : ascii) (old new s : string) :
  all_chars (λ x, negb (Ascii.eqb x c)) s = true →
  pystr.replace_go (String c old) new 0 s = s.
Proof.
  induction s as [| x s IH]; [done |]. simpl.
  intros [Hx Hs]%andb_prop. apply negb_true_iff, Ascii.eqb_neq in Hx.
  destruct (ascii_dec c x) as [-> | _]; [done |]. by rewrite (IH Hs).
Qed.

Lemma pretty_Z_word (z : Z) : is_word (pretty z).
Proof.
  split; [apply pretty_Z_nonempty |].
  apply (all_chars_impl (λ c, float64.is_digit c || Ascii.eqb c "-"));
    [| apply pretty_Z_chars].
  intros c. destruct c as [[] [] [] [] [] [] [] []]; by vm_compute.
Qed.

Lemma strip_word (w : string) : is_word w → pystr.strip w = w.
Proof.
  intros Hw. unfold pystr.strip.
  destruct w as [| c w]; [done |]. destruct Hw as [Hne Hall].
  pose proof Hall as Hc. simpl in Hc. apply andb_prop in Hc as [Hc _].
  apply negb_true_iff in Hc.
  rewrite (lstrip_cons_nonspace c w Hc). by apply rstrip_word.
Qed.

(** The sort key of the heading of row [n] is [n]. *)
Lemma sort_key_row (n : Z) : report.sort_key ("Excel Row " +:+ pretty n) = n.
Proof.
  unfold report.sort_key, pystr.replace. cbn [String.eqb].
  change ("Excel Row " +:+ pretty n) with ("Excel Row" +:+ String " " (pretty n)).
  rewrite replace_go_head.
  rewrite replace_go_absent.
  2:{ cbn [all_chars]. apply andb_true_intro. split; [done |].
      apply (all_chars_impl (λ c, float64.is_digit c || Ascii.eqb c "-"));
        [| apply pretty_Z_chars].
      intros c. destruct c as [[] [] [] [] [] [] [] []]; by vm_compute. }
  change ("" +:+ String " " (pretty n)) with (String " " (pretty n)).
  assert (pystr.strip (String " " (pretty n)) = pretty n) as ->.
  { unfold pystr.strip. cbn [pystr.lstrip]. change (pystr.is_space " ") with true.
    cbn match. apply (strip_word (pretty n)), pretty_Z_word. }
  by rewrite int_of_pretty.
Qed.

Lemma group_key_cases (e : err) :
  (∃ n, report.extract_excel_row e = Some n
        ∧ report.group_key e = "Excel Row " +:+ pretty n)
  ∨ (report.extract_excel_row e = None ∧ report.group_key e = "Excel Row ?").
Proof.
  unfold report.group_key. destruct (report.extract_excel_row e) as [n |]; eauto.
Qed.

(** X22. The grouping of the report.  Each heading is printed once.  Under
    a heading come exactly the issues whose row reads as that heading, in
    the order of the list, so every issue is under one heading and no issue
    is lost or repeated.  For an issue list that is not empty, what follows
    the eleven lines of the summary is, heading by heading, the heading, one
    line per issue with a message, and an empty line. *)
Theorem report_grouping (file_path : string) (columns : list string)
    (steps_loaded steps_scanned : Z) (errors : list err) (header_suffix : string) :
  let g := report.grouped errors in
  let headings := report.sorted_by_key report.sort_key (map fst g) in
  NoDup headings
  ∧ (∀ k, k ∈ headings ↔ ∃ e, e ∈ errors ∧ report.group_key e = k)
  ∧ (∀ k, report.group_get g k
          = List.filter (λ e, String.eqb (report.group_key e) k) errors)
  ∧ concat (map (report.group_get g) headings) ≡ₚ errors
  ∧ (errors ≠ [] →
     drop 11 (report.print_human_report basename file_path columns steps_loaded
                steps_scanned errors header_suffix)
     = flat_map (λ k, [ k +:+ ":" ]
                      ++ flat_map report.issue_lines
                           (List.filter (λ e, String.eqb (report.group_key e) k) errors)
                      ++ [ "" ])
         headings).
Proof.
  destruct (grouped_spec errors) as (Hnd & Hkeys & Hget & Hperm).
  cbn zeta.
  pose proof (sorted_by_key_perm report.sort_key (map fst (report.grouped errors)))
    as Hsorted.
  split; [by rewrite Hsorted |].
  split; [intros k; by rewrite Hsorted |]. split; [done |]. split.
  - rewrite (map_ext _ _ (report_group_get (report.grouped errors))).
    rewrite Hsorted, (group_lookup_keys String.eqb String.eqb_eq) by done. done.
  - intros Hne. rewrite print_human_report_unfold.
    destruct errors as [| e errors]; [done |]. cbn [length Nat.ltb Nat.leb Nat.eqb app drop].
    apply flat_map_ext. intros k. unfold report.group_lines. by rewrite Hget.
Qed.

(** X23. The order of the headings.  They are sorted by their key, which
    for the heading of row n is n and for "Excel Row ?" is 10^9: the rows
    come in ascending order, and the issues without a row after every row
    below 10^9.  Headings with equal keys keep the order in which they first
    appear in the list. *)
Theorem report_order (errors : list err) :
  let firsts := map fst (report.grouped errors) in
  let headings := report.sorted_by_key report.sort_key firsts in
  headings ≡ₚ firsts
  ∧ Sorted Z.le (map report.sort_key headings)
  ∧ (∀ n, List.filter (λ k, (report.sort_key k =? n)%Z) headings
          = List.filter (λ k, (report.sort_key k =? n)%Z) firsts)
  ∧ (∀ k, k ∈ headings →
       (∃ n, k = "Excel Row " +:+ pretty n ∧ report.sort_key k = n)
       ∨ (k = "Excel Row ?" ∧ report.sort_key k = (10 ^ 9)%Z)).
Proof.
  cbn zeta. split; [apply sorted_by_key_perm |].
  split; [apply sorted_by_key_sorted |]. split; [intros n; apply sorted_by_key_stable |].
  intros k. rewrite sorted_by_key_perm.
  destruct (grouped_spec errors) as (_ & Hkeys & _). rewrite Hkeys.
  intros (e & _ & <-).
  destruct (group_key_cases e) as [(n & _ & ->) | [_ ->]].
  - left. exists n. split; [done | apply sort_key_row].
  - right. done.
Qed.

End report_groups.

(** ** The command line *)

Section command_line.

Lemma eqb_empty_true (s : string) : String.eqb s "" = true ↔ s = "".
Proof. apply String.eqb_eq. Qed.

(** X24. The path [resolve_csv_path] returns is never empty and has no
    whitespace at its ends.  A command-line argument that is not blank is
    returned trimmed, whatever the configuration holds; failing that, the
    first configured file when it is a non-blank text; failing that, the
    built-in default. *)
Theorem resolve_csv_path_spec (argv : list string) (files : list value) :
  let p := report.resolve_csv_path argv files in
  p ≠ ""
  ∧ pystr.strip p = p
  ∧ (∀ a, argv !! 1%nat = Some a → pystr.strip a ≠ "" → p = pystr.strip a)
  ∧ ((∀ a, argv !! 1%nat = Some a → pystr.strip a = "") →
     (∀ f rest, files = VStr f :: rest → pystr.strip f ≠ "" → p = pystr.strip f)
     ∧ ((∀ f rest, files = VStr f :: rest → pystr.strip f = "") →
        p = report.default_path)).
Proof.
  cbn zeta. unfold report.resolve_csv_path.
  set (configured :=
         match files with
         | VStr p :: _ =>
             if negb (String.eqb (pystr.strip p) "") then pystr.strip p
             else report.default_path
         | _ => report.default_path
         end).
  assert (configured ≠ "" ∧ pystr.strip configured = configured) as [Hc1 Hc2].
  { unfold configured. destruct files as [| [| | | f] rest]; try done.
    destruct (String.eqb_spec (pystr.strip f) ""); [done |].
    split; [done | apply strip_idemp]. }
  assert ((∀ f rest, files = VStr f :: rest → pystr.strip f ≠ "" →
             configured = pystr.strip f)
          ∧ ((∀ f rest, files = VStr f :: rest → pystr.strip f = "") →
             configured = report.default_path)) as Hconf.
  { unfold configured. split.
    - intros f rest -> Hf. by rewrite eqb_empty_false.
    - intros Hall. destruct files as [| [| | | f] rest]; try done.
      by rewrite (Hall f rest eq_refl). }
  destruct (argv !! 1%nat) as [a |] eqn:Ha.
  - destruct (String.eqb_spec (pystr.strip a) "") as [Hblank | Hne]; cbn [negb].
    + split; [done |]. split; [done |]. split; [by intros ? [= <-] ? |]. done.
    + split; [done |]. split; [apply strip_idemp |].
      split; [by intros ? [= <-] _ |].
      intros Hall. by destruct (Hne (Hall a eq_refl)).
  - split; [done |]. split; [done |]. split; [done |]. done.
Qed.

(** X25. The question is answered yes by the single letter y, in either
    case, with any whitespace around it; every other answer, the empty one
    included, is a no. *)
Theorem ask_yes_no_spec (answer : string) :
  report.ask_yes_no answer = true
  ↔ pystr.strip answer = "y" ∨ pystr.strip answer = "Y".
Proof.
  unfold report.ask_yes_no. rewrite String.eqb_eq. split.
  - intros Hl. apply lower_cons_inv in Hl as (c & t & -> & Hc & ->%lower_nil_inv).
    apply lower_char_inv in Hc as [-> | ->]; [by left | by right].
  - by intros [-> | ->].
Qed.

End command_line.

(** ** Generic text and punctuation *)

Section generic_and_punctuation.
Context `{FloatText}.

Lemma last_char_lower (t : string) :
  pystr.last_char (pystr.lower t) = pystr.lower_char <$> pystr.last_char t.
Proof.
  induction t as [| c t IH]; [done |]. cbn [pystr.lower pystr.last_char].
  destruct t as [| c' t]; [done |]. cbn [pystr.lower] in *. by rewrite IH.
Qed.

Lemma generic_phrase_no_period (t : string) :
  pystr.lower t ∈ generic_expected_results.GENERIC_PHRASES →
  pystr.endswith_char t "." = false.
Proof.
  intros Hin. unfold pystr.endswith_char.
  assert (∃ x, pystr.last_char (pystr.lower t) = Some x ∧ x ≠ "."%char) as (x & Hx & Hne).
  { unfold generic_expected_results.GENERIC_PHRASES in Hin. set_unfold.
    repeat (destruct Hin as [Hin | Hin]); rewrite Hin; by eexists. }
  rewrite last_char_lower in Hx. destruct (pystr.last_char t) as [c |]; [| done].
  injection Hx as <-. apply Ascii.eqb_neq. intros ->. done.
Qed.

(** X26. The generic-text rule and the punctuation rule do not exclude
    each other: a generic phrase never ends with a period, so a row whose
    Expected Results is too generic gets both warnings. *)
Theorem generic_phrase_unpunctuated (idx : Z) (r : row) :
  let expected := row_get r "Expected Results" (VStr "") in
  common.is_blank_row r = false →
  common.is_empty_like expected = false →
  generic_expected_results._normalize expected
    ∈ generic_expected_results.GENERIC_PHRASES →
  generic_expected_results.check_row idx r
  = [ common.make_issue (VInt (idx + 2))
        (generic_expected_results.generic_message expected)
        "GENERIC_EXPECTED_RESULTS" (Some "WARNING") (Some "Expected Results") ]
  ∧ expected_results_punctuation.check_row idx r
    = [ common.make_issue (VInt (idx + 2))
          "Expected Results should end with a period (.)"
          "EXPECTED_RESULTS_PUNCTUATION" (Some "WARNING") (Some "Expected Results") ].
Proof.
  cbn zeta. intros Hnb Hne Hin.
  unfold generic_expected_results.check_row, expected_results_punctuation.check_row.
  rewrite Hnb, Hne. rewrite bool_decide_eq_true_2 by done. split; [done |].
  assert (pystr.endswith_char
            (pystr.strip (common.str (row_get r "Expected Results" (VStr ""))))
            "." = false) as ->; [| done].
  apply generic_phrase_no_period.
  unfold generic_expected_results._normalize in Hin.
  destruct (row_get r "Expected Results" (VStr "")); done.
Qed.

End generic_and_punctuation.

(** ** The order of the groups *)

Section group_order.
Context `{FloatText}.

Lemma flat_map_fmap {A B C} (f : B → list C) (g : A → B) (l : list A) :
  flat_map f (map g l) = flat_map (λ x, f (g x)) l.
Proof. induction l as [| x l IH]; [done |]. simpl. by rewrite IH. Qed.

(** X5. The step-numbering rule works test case by test case, in ascending
    order of the Test Case ID (numbers by value, then texts by code point),
    not in the order in which the test cases appear in the table.  The list
    of the test cases is sorted, holds each test case of the rows the rule
    keeps (those that are not blank and have an identifier) once and no
    other, each under the identifier of its first row.  On a table with rows
    the issues are those of the first test case in that order, over the rows
    that carry its identifier, then those of the second, and so on; on a
    table without rows the rule raises [KeyError]. *)
Theorem groups_in_key_order (df : DataFrame) :
  "Test Case ID" ∈ columns df → "Step #" ∈ columns df →
  let w := step_numbering.working_rows df in
  let keys := map fst (step_numbering.groupby w) in
  let rows_of k :=
    List.filter (λ ir, step_numbering.key_eqb (step_numbering.tc_id_of ir.2) k) w in
  Sorted step_numbering.key_le keys
  ∧ NoDup keys
  ∧ (∀ a b, a ∈ keys → b ∈ keys → step_numbering.key_eqb a b = true → a = b)
  ∧ (∀ ir, ir ∈ w → ∃ k, k ∈ keys ∧ ir ∈ rows_of k)
  ∧ (∀ k, k ∈ keys →
       ∃ ir rest, rows_of k = ir :: rest ∧ step_numbering.tc_id_of ir.2 = k)
  ∧ step_numbering.check_step_numbering df
    = if bool_decide (rows df = []) then Raise (KeyError "Test Case ID")
      else Ok (flat_map (λ k, step_numbering.check_group k (rows_of k)) keys).
Proof.
  intros Htc Hstep w keys rows_of.
  destruct (groupby_keys_spec df) as (Hsorted & Hnodup & Hinj & Hall & Hfirst).
  split; [done |]. split; [done |]. split; [done |]. split; [done |].
  split; [done |].
  rewrite check_step_numbering_groups by done. case_bool_decide; [done |].
  f_equal. unfold keys. rewrite groupby_keys. unfold step_numbering.groupby.
  by rewrite flat_map_fmap.
Qed.

End group_order.

(** ** The properties at concrete inputs, with Python's float builtins *)

#[local] Existing Instance python_float_text.

(** [str] of a float other than NaN is never a placeholder token. *)
Lemma float_not_empty_like (f : spec_float) :
  pyfloat.is_nan f = false → common.is_empty_like (VFloat f) = false.
Proof.
  destruct f as [s | s | | s m e]; try done; try (by destruct s).
  intros _.
  change (common.is_empty_like (VStr (float64.to_str (S754_finite s m e))) = false).
  apply text_with_digit_not_empty_like.
  unfold float64.to_str. case_match. rewrite has_char_app, layout_has_char.
  by rewrite orb_true_r.
Qed.

Ltac lower_cases H :=
  repeat (let c := fresh "c" in let Hc := fresh "Hc" in
          apply lower_cons_inv in H as (c & ? & -> & Hc & H);
          apply lower_char_inv in Hc as [-> | ->]);
  apply lower_nil_inv in H as ->.

(** [float] parses none of the placeholder tokens, in any letter case. *)
Lemma placeholder_not_parsed (t : string) :
  pystr.lower t ∈ common.EMPTY_LIKE_VALUES → float64.of_str t = None.
Proof.
  unfold common.EMPTY_LIKE_VALUES. set_unfold. intros Hin.
  repeat (destruct Hin as [Hin | Hin]); lower_cases Hin; by vm_compute.
Qed.

(** Text that [float] parses is never empty-like. *)
Lemma parsed_not_empty_like (s : string) (f : spec_float) :
  float_of_str (pystr.strip s) = Some f → common.is_empty_like (VStr s) = false.
Proof.
  intros Hf. unfold common.is_empty_like. cbn [common.isna common.str].
  destruct (String.eqb_spec (pystr.strip s) "") as [Ht | _];
    [by rewrite Ht in Hf |].
  apply bool_decide_eq_false. intros Hin.
  apply placeholder_not_parsed in Hin. unfold float_of_str in Hf.
  cbn [python_float_text] in Hf. congruence.
Qed.

(** The float builtins at a few values. *)
Example float_text_values :
  float64.to_str three = "3.0"
  ∧ float64.of_str "3.0" = Some three
  ∧ float64.of_str "2.5" = Some (S754_finite false 5629499534213120 (-51))
  ∧ float64.to_str (S754_finite false 5629499534213120 (-51)) = "2.5"
  ∧ float64.of_str "1_000" = Some (S754_finite false 8796093022208000 (-43))
  ∧ float64.of_str "1e400" = Some (S754_infinity false)
  ∧ float64.of_str "12a" = None
  ∧ float64.to_str (S754_finite false 5000000000000000 1) = "1e+16".
Proof. by vm_compute. Qed.


(** C2 at a table with neither required column. *)
Lemma schema_short_circuit_witness :
  ("Action" ∉ columns no_schema_table)
  ∧ scanner.scan config.shipped no_schema_table
    = Ok {| scanner.scan_rows := 1;
            scanner.scan_columns := [ "Test Case ID"; "Step #" ];
            scanner.scan_errors :=
              [ [ ("row", VNone);
                  ("message",
                   VStr "Missing required columns: Action, Expected Results");
                  ("rule", VStr "MISSING_COLUMNS");
                  ("severity", VStr "FAIL") ] ] |}.
Proof.
  assert ("Action" ∉ columns no_schema_table) as Hmiss.
  { apply (bool_decide_eq_false_1 _). by vm_compute. }
  split; [done |].
  destruct (schema_short_circuit config.shipped no_schema_table (or_introl Hmiss))
    as (names & -> & -> & _).
  by vm_compute.
Defined.

(** C3 as stated fails: with one WARNING, one FAIL and one INFO
    issue the FAIL count goes from 1 to 2. *)
Lemma strict_mode_fail_count_grows :
  main.summarize_issues
    (issue_values three_issues [RDict 0; RDict 1; RDict 2]) = (1, 1, 1)%Z
  ∧ main.summarize_issues
      (issue_values (main.apply_strict_mode three_issues [RDict 0; RDict 1; RDict 2]).1
         (main.apply_strict_mode three_issues [RDict 0; RDict 1; RDict 2]).2)
    = (2, 0, 1)%Z.
Proof. by vm_compute. Qed.

(** C3 (as amended) at that store. *)
Lemma strict_mode_promotes_witness :
  Forall (λ e, is_Some (main.deref three_issues e)) [RDict 0; RDict 1; RDict 2; RStr "old"]
  ∧ (main.apply_strict_mode three_issues [RDict 0; RDict 1; RDict 2; RStr "old"]).2
    = [RDict 3; RDict 1; RDict 2; RStr "old"]
  ∧ main.summarize_issues
      (issue_values
         (main.apply_strict_mode three_issues [RDict 0; RDict 1; RDict 2; RStr "old"]).1
         (main.apply_strict_mode three_issues [RDict 0; RDict 1; RDict 2; RStr "old"]).2)
    = (3, 0, 1)%Z.
Proof.
  assert (Forall (λ e, is_Some (main.deref three_issues e))
            [RDict 0; RDict 1; RDict 2; RStr "old"]) as Hvalid.
  { repeat constructor; by eexists. }
  split; [done |].
  pose proof (strict_mode_promotes three_issues _ Hvalid) as Hspec.
  destruct (main.apply_strict_mode _ _) as [h' out] eqn:Hrun.
  destruct Hspec as (_ & _ & _ & _ & _ & _ & Hcount).
  split.
  - vm_compute in Hrun. by injection Hrun as <- <-.
  - cbn [fst snd]. rewrite (Hcount 2 1 1)%Z; by vm_compute.
Defined.

(** C4 at the table of the example. *)
Lemma step_numbering_1224_witness :
  step_numbering.check_step_numbering tc1_table
  = Ok [ [ ("row", VInt 3); ("error", VStr "Duplicate Step # 2 in Test Case ID TC1") ];
         [ ("row", VInt 4); ("error", VStr "Duplicate Step # 2 in Test Case ID TC1") ];
         [ ("row", VInt 2); ("error", VStr "Missing Step # in Test Case ID TC1: 3") ] ].
Proof.
  destruct (step_numbering_1224 tc1_table _ _ _ _
              ltac:(by repeat constructor) ltac:(by repeat constructor) eq_refl
              ltac:(by repeat constructor) ltac:(by vm_compute))
    as (errors & Hcheck & -> & _).
  exact Hcheck.
Defined.

(** C5 at a test case whose steps read 3, 2, 1: the validator returns one
    out-of-order error, on the row of the step 2; the step 1 adds none. *)
Lemma first_decrease_reported_witness :
  ∃ errors : list dict,
    step_numbering.check_step_numbering descending_table = Ok errors
    ∧ List.filter is_out_of_order errors
      = [ [ ("row", VInt 3);
            ("error",
             VStr "Step # is out of order in Test Case ID {tc_id} (expected ascending order)") ] ].
Proof.
  destruct (first_decrease_reported descending_table
              ltac:(by repeat constructor) ltac:(by repeat constructor)
              ltac:(done))
    as (errors & Hcheck & Hfilter & _).
  exists errors. split; [exact Hcheck |]. rewrite Hfilter. by vm_compute.
Defined.

(** The issues of that table. *)
Example first_decrease_example :
  step_numbering.check_step_numbering descending_table
  = Ok [ [ ("row", VInt 3);
           ("error",
            VStr "Step # is out of order in Test Case ID {tc_id} (expected ascending order)") ] ].
Proof. by vm_compute. Qed.

(** C6 as stated fails: a table of five rows on which exactly two of the
    shipped anchors match (steps 3 and 4) and whose first row does not
    follow the template is not enforced. *)
Lemma anchor_threshold_short_table :
  config.CORE_ANCHOR_MIN_MATCHES config.shipped = 2%Z
  ∧ config.ENABLE_CORE_STEPS config.shipped = true
  ∧ columns short_table = [ "Test Case ID"; "Step #"; "Action"; "Expected Results" ]
  ∧ length (rows short_table) = 5%nat
  ∧ anchors_matching config.shipped short_table = 2%nat
  ∧ scanner.enforce config.shipped (scanner.steps_of short_table) ≠ []
  ∧ scanner.check_core_steps_enforcement config.shipped short_table = [].
Proof. by vm_compute. Qed.

(** C6 (as amended) at a table with two matching anchors, one with a single
    one and one of five rows. *)
Lemma anchor_threshold_witness :
  (anchors_matching config.shipped blank_first_table = 2%nat
   ∧ scanner.check_core_steps_enforcement config.shipped blank_first_table
     = scanner.enforce config.shipped (scanner.steps_of blank_first_table))
  ∧ (anchors_matching config.shipped one_anchor_table = 1%nat
     ∧ scanner.check_core_steps_enforcement config.shipped one_anchor_table = [])
  ∧ ((length (rows short_table) < 8)%nat
     ∧ scanner.check_core_steps_enforcement config.shipped short_table = []).
Proof.
  split; [| split]; (split; [first [by vm_compute | vm_compute; lia] |]).
  - refine (proj1 (anchor_threshold config.shipped blank_first_table eq_refl)
              eq_refl _ _ _ _);
      [by repeat constructor | by repeat constructor | vm_compute; lia | by vm_compute].
  - refine (proj1 (proj2 (anchor_threshold config.shipped one_anchor_table eq_refl)) _).
    by vm_compute.
  - refine (proj2 (proj2 (anchor_threshold config.shipped short_table eq_refl)) _).
    vm_compute. lia.
Defined.

(** C7 at the blank first row of a table. *)
Lemma blank_row_invariance_witness :
  common.is_blank_row (mk_row nan nan nan nan) = true
  ∧ issues_at 0
      (required_fields.check_required_fields blank_first_table
       ++ blank_rows.check_blank_rows blank_first_table
       ++ data_required.check_data_required_for_actions blank_first_table
       ++ expected_results_punctuation.check_expected_results_punctuation
            blank_first_table
       ++ generic_expected_results.check_generic_expected_results blank_first_table)
    = [ common.make_issue (VInt 2) "Blank row" "BLANK_ROW" (Some "WARNING") None ].
Proof.
  assert (common.is_blank_row (mk_row nan nan nan nan) = true) as Hblank
    by by vm_compute.
  split; [done |].
  exact (proj2 (blank_row_invariance blank_first_table 0 _ eq_refl Hblank)).
Defined.

(** C8 at a row whose Expected Results cell is "OK ". *)
Lemma generic_phrase_precedence_witness :
  generic_expected_results.check_row 0 ok_row
  = [ [ ("row", VInt 2);
        ("message", VStr ("Expected Results is too generic (" +:+ pystr.dquote
                          +:+ "OK" +:+ pystr.dquote +:+ ")"));
        ("rule", VStr "GENERIC_EXPECTED_RESULTS");
        ("severity", VStr "WARNING");
        ("field", VStr "Expected Results") ] ].
Proof.
  destruct (generic_phrase_precedence tc1_table 0 ok_row) as [Hok _].
  destruct (Hok eq_refl) as (_ & Hrow & _). exact Hrow.
Defined.

(** C9 with Python's builtins, at the float 3.0, the float 2.5 and the
    texts " 7 " and "n/a". *)
Lemma to_int_step_witness :
  common.to_int_step (VFloat three) = Some 3%Z
  ∧ common.to_int_step (VFloat (S754_finite false 5 (-1))) = None
  ∧ common.to_int_step (VStr " 7 ") = Some 7%Z
  ∧ common.to_int_step (VStr "n/a") = None.
Proof.
  pose proof (to_int_step_spec float_not_empty_like parsed_not_empty_like)
    as Hspec.
  split; [| split; [| split]].
  - by rewrite (proj2 (Hspec (VFloat three))).
  - by rewrite (proj2 (Hspec (VFloat (S754_finite false 5 (-1))))).
  - by rewrite (proj2 (Hspec (VStr " 7 "))).
  - by apply (proj1 (Hspec (VStr "n/a"))).
Defined.

(** [to_int_step] on further cells, with Python's float builtins. *)
Example to_int_step_values :
  common.to_int_step (VStr " 7 ") = Some 7%Z
  ∧ common.to_int_step (VStr "3.0") = Some 3%Z
  ∧ common.to_int_step (VStr "2.5") = None
  ∧ common.to_int_step (VStr "two") = None
  ∧ common.to_int_step (VStr "n/a") = None
  ∧ common.to_int_step nan = None
  ∧ common.to_int_step VNone = None
  ∧ common.to_int_step (VInt (-4)) = Some (-4)%Z
  ∧ common.to_int_step (VFloat (S754_finite false 5 (-1))) = None.
Proof. by vm_compute. Qed.

(** An empty Expected Results cell on a row that is not blank. *)
Lemma punctuation_skips_empty_witness :
  expected_results_punctuation.check_row 0
    (mk_row (VStr "TC1") (VInt 1) (VStr "Click OK button") nan) = []
  ∧ required_fields.check_row 0
      (mk_row (VStr "TC1") (VInt 1) (VStr "Click OK button") nan)
    = [ common.make_issue (VInt 2) "Expected Results is empty" "REQUIRED_FIELDS"
          (Some "FAIL") (Some "Expected Results") ].
Proof.
  split; [| by vm_compute].
  by refine (proj1 (punctuation_skips_empty 0 _ _)).
Defined.

(** The BLANK_ROW warning of the first row of a table is on Excel row 2. *)
Lemma excel_row_mapping_witness :
  ∃ (i : nat) (r : row),
    rows blank_first_table !! i = Some r
    ∧ dict_get (common.make_issue (VInt 2) "Blank row" "BLANK_ROW" (Some "WARNING") None)
        "row" = Some (VInt (Z.of_nat i + 2)).
Proof.
  apply (excel_row_mapping blank_first_table).
  apply elem_of_app. right. apply elem_of_app. left.
  apply list_elem_of_In. vm_compute. by left.
Defined.

(** The scan of the table of the step-numbering example, and of a table
    with the four columns and no row. *)
Lemma scan_order_witness :
  scanner.scan config.shipped tc1_table
  = Ok {| scanner.scan_rows := 4;
          scanner.scan_columns := four_columns;
          scanner.scan_errors :=
            [ [ ("row", VInt 3);
                ("error", VStr "Duplicate Step # 2 in Test Case ID TC1") ];
              [ ("row", VInt 4);
                ("error", VStr "Duplicate Step # 2 in Test Case ID TC1") ];
              [ ("row", VInt 2);
                ("error", VStr "Missing Step # in Test Case ID TC1: 3") ] ] |}
  ∧ scanner.scan config.shipped header_table = Raise (KeyError "Test Case ID").
Proof.
  destruct (scan_order config.shipped tc1_table
              ltac:(by repeat constructor) ltac:(by repeat constructor))
    as [Hscan _].
  destruct (scan_order config.shipped header_table
              ltac:(by repeat constructor) ltac:(by repeat constructor))
    as [_ Hraise].
  split; [rewrite Hscan; by vm_compute |].
  apply Hraise. split; [done |]. split; [done |]. split; by repeat constructor.
Defined.

(** The table that follows the template, against the shipped settings. *)
Lemma template_matches_two_anchors_witness :
  List.filter (anchor_matches template_table) (scanner.anchor_step_map config.shipped)
  = [ (3%nat, "Enter PIN and hit Enter"); (4%nat, "Click OK button") ]
  ∧ anchors_matching config.shipped template_table = 2%nat
  ∧ scanner.check_core_steps_enforcement config.shipped template_table = [].
Proof.
  apply (template_matches_two_anchors template_table).
  - by repeat constructor.
  - by repeat constructor.
  - vm_compute. lia.
  - intros i c s Hc Hs.
    do 8 (destruct i as [| i];
          [vm_compute in Hc, Hs; injection Hc as <-; injection Hs as <-;
           by vm_compute |]).
    done.
Defined.

(** "TC2" on the first row and "TC1" on the second: "TC1" comes first. *)
Lemma groups_in_key_order_witness :
  map fst (step_numbering.groupby (step_numbering.working_rows two_groups_table))
  = [ VStr "TC1"; VStr "TC2" ]
  ∧ step_numbering.check_step_numbering two_groups_table
    = Ok [ [ ("row", VInt 3); ("error", VStr "Step # is empty (Test Case ID: TC1)") ];
           [ ("row", VInt 2); ("error", VStr "Step # is empty (Test Case ID: TC2)") ] ].
Proof.
  destruct (groups_in_key_order two_groups_table
              ltac:(by repeat constructor) ltac:(by repeat constructor))
    as (_ & _ & _ & _ & _ & Hcheck).
  split; [by vm_compute |]. rewrite Hcheck. by vm_compute.
Defined.

(** The rule on a table with the four columns and no row. *)
Example header_table_raises :
  step_numbering.check_step_numbering header_table = Raise (KeyError "Test Case ID")
  ∧ scanner.check_core_steps_enforcement config.shipped header_table = []
  ∧ scanner.scan config.shipped header_table = Raise (KeyError "Test Case ID").
Proof. by vm_compute. Qed.

(** The two-anchor test on a table with a blank first row. *)
Lemma standard_case_detected_witness :
  core_steps.is_standard_case (map step_dict (scanner.steps_of blank_first_table))
    "Enter PIN and hit Enter" "Click OK button" = true
  ∧ (2 ≤ anchors_matching config.shipped blank_first_table)%nat
  ∧ scanner.check_core_steps_enforcement config.shipped blank_first_table
    = scanner.enforce config.shipped (scanner.steps_of blank_first_table).
Proof.
  assert (core_steps.is_standard_case
            (map step_dict (scanner.steps_of blank_first_table))
            (config.CORE_ANCHOR_STEP_3_ACTION config.shipped)
            (config.CORE_ANCHOR_STEP_4_ACTION config.shipped) = true) as Hstd
    by by vm_compute.
  split; [done |].
  destruct (standard_case_detected config.shipped blank_first_table Hstd)
    as (_ & _ & _ & Hn & Hrun); [done | done |].
  split; [done |].
  apply Hrun; [done | by repeat constructor | by repeat constructor
              | vm_compute; lia | done].
Defined.

(** The missing step of the group with the steps 1, 2, 2, 4. *)
Lemma missing_steps_listed_witness :
  ∃ (top first_row : Z) (missing : list Z),
    top ∈ step_numbers (iterrows tc1_table)
    ∧ (∀ s, s ∈ step_numbers (iterrows tc1_table) → (s ≤ top)%Z)
    ∧ first_row ∈ map row_num (iterrows tc1_table)
    ∧ (∀ r, r ∈ map row_num (iterrows tc1_table) → (first_row ≤ r)%Z)
    ∧ (∀ k, k ∈ missing ↔ (1 ≤ k ≤ top)%Z ∧ k ∉ step_numbers (iterrows tc1_table))
    ∧ Sorted Z.le missing ∧ NoDup missing
    ∧ step_numbering.missing_errors (VStr "TC1")
        (foldl (step_numbering.scan_row (VStr "TC1")) step_numbering.group_init
           (iterrows tc1_table))
      = match missing with
        | [] => []
        | _ :: _ =>
            [ step_numbering.error_item first_row
                (step_numbering.missing_message (VStr "TC1") missing) ]
        end.
Proof. apply (missing_steps_listed (VStr "TC1") (iterrows tc1_table)). by vm_compute. Defined.

(** That error. *)
Example missing_steps_example :
  step_numbering.missing_errors (VStr "TC1")
    (foldl (step_numbering.scan_row (VStr "TC1")) step_numbering.group_init
       (iterrows tc1_table))
  = [ [ ("row", VInt 2); ("error", VStr "Missing Step # in Test Case ID TC1: 3") ] ].
Proof. by vm_compute. Qed.

(** Strict mode twice on a WARNING, a FAIL, an INFO and a text. *)
Lemma strict_mode_idempotent_witness :
  main.apply_strict_mode
    (main.apply_strict_mode three_issues [RDict 0; RDict 1; RDict 2; RStr "old"]).1
    (main.apply_strict_mode three_issues [RDict 0; RDict 1; RDict 2; RStr "old"]).2
  = main.apply_strict_mode three_issues [RDict 0; RDict 1; RDict 2; RStr "old"].
Proof.
  assert (Forall (λ e, is_Some (main.deref three_issues e))
            [RDict 0; RDict 1; RDict 2; RStr "old"]) as Hvalid.
  { repeat constructor; by eexists. }
  pose proof (strict_mode_idempotent three_issues _ Hvalid) as Hspec.
  by destruct (main.apply_strict_mode _ _) as [h' out].
Defined.

(** The FINAL CHECK report of the table with the steps 1, 2, 2, 4. *)
Lemma final_check_status_witness :
  report.print_human_report (λ path, path) "cases.csv" four_columns 4 4
    (issue_values
       (main.apply_strict_mode tc1_issues [RDict 0; RDict 1; RDict 2]).1
       (main.apply_strict_mode tc1_issues [RDict 0; RDict 1; RDict 2]).2)
    "(FINAL CHECK)" !! 7%nat
  = Some "Status: FAIL ❌".
Proof.
  assert (Forall (λ e, is_Some (main.deref tc1_issues e))
            [RDict 0; RDict 1; RDict 2]) as Hvalid.
  { repeat constructor; by eexists. }
  set (res := {| scanner.scan_rows := 4;
                 scanner.scan_columns := four_columns;
                 scanner.scan_errors :=
                   [ step_numbering.error_item 3 "Duplicate Step # 2 in Test Case ID TC1";
                     step_numbering.error_item 4 "Duplicate Step # 2 in Test Case ID TC1";
                     step_numbering.error_item 2 "Missing Step # in Test Case ID TC1: 3" ] |}).
  assert (scanner.scan config.shipped tc1_table = Ok res) as Hres by by vm_compute.
  assert (issue_values tc1_issues [RDict 0; RDict 1; RDict 2]
          = map ErrDict (scanner.scan_errors res)) as Hvals by by vm_compute.
  pose proof (final_check_status (λ path, path) config.shipped tc1_table res tc1_issues
                _ "cases.csv" four_columns 4 4 Hres Hvals Hvalid) as Hspec.
  destruct (main.apply_strict_mode _ _) as [h' out]. cbn [fst snd].
  destruct Hspec as [-> _]. by vm_compute.
Defined.

(** A row whose Expected Results cell is "OK " gets both warnings. *)
Lemma generic_phrase_unpunctuated_witness :
  generic_expected_results.check_row 0 ok_row
  = [ common.make_issue (VInt 2)
        ("Expected Results is too generic (" +:+ pystr.dquote +:+ "OK"
         +:+ pystr.dquote +:+ ")")
        "GENERIC_EXPECTED_RESULTS" (Some "WARNING") (Some "Expected Results") ]
  ∧ expected_results_punctuation.check_row 0 ok_row
    = [ common.make_issue (VInt 2)
          "Expected Results should end with a period (.)"
          "EXPECTED_RESULTS_PUNCTUATION" (Some "WARNING") (Some "Expected Results") ].
Proof.
  apply (generic_phrase_unpunctuated 0 ok_row); [by vm_compute | by vm_compute |].
  apply (bool_decide_eq_true_1 _). by vm_compute.
Defined.

(** The report of two issues on one row and one without a row. *)
Example print_human_report_example :
  report.print_human_report (λ path, path) "cases.csv" [ " Action "; "Expected Results" ]
    3 3
    [ ErrDict (common.make_issue (VInt 3) "Action is empty" "REQUIRED_FIELDS"
                 (Some "FAIL") (Some "Action"));
      ErrStr " old style ";
      ErrDict (common.make_issue (VInt 3) "Blank row" "BLANK_ROW" (Some "WARNING") None);
      ErrDict (scanner.core_issue 2 "Core Step 1 Action mismatch.") ]
    ""
  = [ "Loading test case file: cases.csv" +:+ report.newline;
      "Columns: Action | Expected Results";
      "Steps loaded: 3" +:+ report.newline;
      "==============================";
      "TEST CASE SCAN REPORT";
      "==============================";
      "Steps scanned: 3" +:+ report.newline;
      "Status: FAIL ❌";
      "Issues found: 4";
      "Breakdown: FAIL=2, WARNING=2";
      "";
      "Excel Row 2:";
      "  WARNING: Core Step 1 Action mismatch.";
      "";
      "Excel Row 3:";
      "  FAIL: Action is empty";
      "  WARNING: Blank row";
      "";
      "Excel Row ?:";
      "  FAIL: old style";
      "" ].
Proof. by vm_compute. Qed.

(** The path and the answer in a few cases. *)
Example command_line_values :
  report.resolve_csv_path [ "main.py"; " cases.csv " ] [ VStr "configured.csv" ]
  = "cases.csv"
  ∧ report.resolve_csv_path [ "main.py"; "  " ] [ VStr "configured.csv" ]
    = "configured.csv"
  ∧ report.resolve_csv_path [ "main.py" ] [] = report.default_path
  ∧ report.ask_yes_no " Y " = true
  ∧ report.ask_yes_no "yes" = false
  ∧ report.ask_yes_no "" = false.
Proof. by vm_compute. Qed.
